(** * profiler-cli: a shallow embedding of the extraction scripts and the CLI

    The tool opens a Firefox Profiler page, waits for two readiness flags and
    then evaluates scripts that read the page's call tree and marker list.
    This development embeds those scripts ([src/profiler.ts]) and the
    command-line front end ([src/index.ts]) as Rocq functions and proves the
    properties the specification states about them.

    Conventions of the embedding:
    - a JavaScript [number] is an integer of [Z] (sample counts, timestamps in
      a fixed unit); [undefined]/[null] is [None]; [NaN], the infinities and
      the rounding of doubles are not modelled;
    - the page's call tree is a finite tree: a call-node handle is the node
      itself, [getNodeData] and [getChildren] are its two projections, and an
      empty child list stands for both [null] and [[]] (the scripts treat the
      two alike everywhere);
    - the values read from the page have the types the scripts expect, and
      reading them does not throw;
    - [Array.prototype.sort] is the stable sort by the script's comparator;
    - [console.log] output is a list of structured lines. *)

From Stdlib Require Import ZArith List String Ascii Bool Lia Permutation Sorted QArith.
From stdpp Require Import gmap strings.
Import ListNotations.

Set Warnings "-register-all".

Local Open Scope string_scope.
Local Open Scope list_scope.
Local Open Scope Z_scope.

(** ** JavaScript primitives used by the scripts *)

Module Js.

(** [x || 0] on [number | undefined]: a falsy number is [0] already. *)
Definition orZero (x : option Z) : Z := default 0 x.

(** Truthiness of [number | undefined | null]. *)
Definition truthyNum (x : option Z) : bool :=
  match x with
  | Some v => negb (v =? 0)
  | None => false
  end.

(** Truthiness of [string | undefined]. *)
Definition truthyStr (x : option string) : bool :=
  match x with
  | Some s => negb (String.eqb s EmptyString)
  | None => false
  end.

(** [a || b] on [number | undefined]. *)
Definition orElse (a b : option Z) : option Z :=
  if truthyNum a then a else b.

(** [arr.slice(0, n)]: a negative [n] counts from the end of the array. *)
Definition slice0 {A : Type} (n : Z) (l : list A) : list A :=
  if n <? 0
  then firstn (Z.to_nat (Z.max (Z.of_nat (length l) + n) 0)) l
  else firstn (Z.to_nat n) l.

(** [arr.slice(k)] for a length [k] taken from another array. *)
Definition sliceFrom {A : Type} (k : nat) (l : list A) : list A := skipn k l.

(** [s.startsWith(p)] *)
Definition startsWith (s p : string) : bool := String.prefix p s.

(** The regular-expression class [\d]. *)
Definition isDigit (c : ascii) : bool :=
  let n := nat_of_ascii c in ((48 <=? n)%nat && (n <=? 57)%nat)%bool.

(** The longest run of digits at the head of a string, and what follows. *)
Fixpoint takeDigits (s : string) : string * string :=
  match s with
  | EmptyString => (EmptyString, EmptyString)
  | String c s' =>
      if isDigit c
      then let '(ds, rest) := takeDigits s' in (String c ds, rest)
      else (EmptyString, s)
  end.

(** [s] without the prefix [p], when it has it. *)
Fixpoint stripPrefix (p s : string) : option string :=
  match p with
  | EmptyString => Some s
  | String a p' =>
      match s with
      | EmptyString => None
      | String b s' => if Ascii.eqb a b then stripPrefix p' s' else None
      end
  end.

(** The pattern [/after (\d+)ms/] tried at the head of [s]: the digits of
    the group. The group is greedy, and giving digits back cannot help,
    since the pattern goes on with the letter m. *)
Definition afterMsHere (s : string) : option string :=
  match stripPrefix "after " s with
  | None => None
  | Some s1 =>
      match takeDigits s1 with
      | (EmptyString, _) => None
      | (ds, rest) =>
          match stripPrefix "ms" rest with
          | Some _ => Some ds
          | None => None
          end
      end
  end.

(** [s.match(/after (\d+)ms/)]: the group of the leftmost match. *)
Fixpoint matchAfterMs (s : string) : option string :=
  match afterMsHere s with
  | Some ds => Some ds
  | None =>
      match s with
      | EmptyString => None
      | String _ s' => matchAfterMs s'
      end
  end.

(** [parseFloat] of a string of digits. *)
Fixpoint digitsValue (acc : Z) (ds : string) : Z :=
  match ds with
  | EmptyString => acc
  | String c ds' => digitsValue (10 * acc + (Z.of_nat (nat_of_ascii c) - 48)) ds'
  end.

Definition parseFloat (ds : string) : Z := digitsValue 0 ds.

Section Sort.
Context {A : Type}.
(** The comparator, as JavaScript has it: a positive [cmp a b] puts [a]
    after [b]. *)
Variable cmp : A -> A -> Z.

Fixpoint insertBy (x : A) (l : list A) : list A :=
  match l with
  | [] => [x]
  | y :: l' => if 0 <? cmp x y then y :: insertBy x l' else x :: y :: l'
  end.

(** [arr.sort(cmp)]: stable, so equal elements keep their order. *)
Definition sort (l : list A) : list A := fold_right insertBy [] l.

Definition inOrder (a b : A) : Prop := cmp a b <= 0.

Lemma insertBy_perm x l : Permutation (insertBy x l) (x :: l).
Proof.
  induction l as [|y l IH]; simpl; [reflexivity|].
  destruct (0 <? cmp x y); [|reflexivity].
  rewrite IH. apply perm_swap.
Qed.

Lemma sort_perm l : Permutation (sort l) l.
Proof.
  induction l as [|x l IH]; simpl; [constructor|].
  rewrite insertBy_perm. by constructor.
Qed.

Lemma sort_length l : length (sort l) = length l.
Proof. apply Permutation_length, sort_perm. Qed.

Lemma sort_In x l : In x (sort l) <-> In x l.
Proof.
  split; apply Permutation_in; [|symmetry]; apply sort_perm.
Qed.

(** A comparator that is a difference of keys is total and transitive. *)
Hypothesis cmp_total : forall a b, 0 < cmp a b -> cmp b a <= 0.
Hypothesis cmp_trans : forall a b c, cmp a b <= 0 -> cmp b c <= 0 -> cmp a c <= 0.

Lemma insertBy_sorted x l :
  StronglySorted inOrder l -> StronglySorted inOrder (insertBy x l).
Proof.
  induction l as [|y l IH]; simpl; intros Hs.
  - repeat constructor.
  - destruct (0 <? cmp x y) eqn:E.
    + apply Z.ltb_lt in E.
      inversion Hs as [|? ? Hl Hy]; subst.
      constructor; [by apply IH|].
      apply List.Forall_forall. intros z Hz.
      apply (Permutation_in _ (insertBy_perm x l)) in Hz.
      destruct Hz as [<-|Hz]; [by apply cmp_total|].
      by apply (proj1 (List.Forall_forall _ _) Hy).
    + apply Z.ltb_ge in E.
      constructor; [done|].
      constructor; [done|].
      inversion Hs as [|? ? Hl Hy]; subst.
      eapply List.Forall_impl; [|exact Hy].
      intros z Hz. by eapply cmp_trans.
Qed.

Lemma sort_sorted l : StronglySorted inOrder (sort l).
Proof.
  induction l as [|x l IH]; simpl; [constructor|].
  by apply insertBy_sorted.
Qed.
End Sort.

Lemma slice0_length_nonneg {A : Type} (n : Z) (l : list A) :
  0 <= n -> Z.of_nat (length (slice0 n l)) = Z.min n (Z.of_nat (length l)).
Proof.
  intros Hn. unfold slice0.
  destruct (n <? 0) eqn:E; [apply Z.ltb_lt in E; lia|].
  rewrite length_firstn. lia.
Qed.

Lemma slice0_split {A : Type} (n : Z) (l : list A) :
  exists rest, l = slice0 n l ++ rest.
Proof.
  unfold slice0. destruct (n <? 0).
  - eexists. symmetry. apply firstn_skipn.
  - eexists. symmetry. apply firstn_skipn.
Qed.

Lemma In_omap {A B : Type} (g : A -> option B) (l : list A) (y : B) :
  In y (omap g l) <-> exists x, In x l /\ g x = Some y.
Proof.
  rewrite <- list_elem_of_In, list_elem_of_omap.
  split; intros (x & Hx & Hg); exists x; split; try done; by apply list_elem_of_In.
Qed.

Lemma StronglySorted_weaken {A : Type} (R S : A -> A -> Prop) (l : list A) :
  (forall a b, R a b -> S a b) -> StronglySorted R l -> StronglySorted S l.
Proof.
  intros HRS. induction 1 as [|x l Hl IH Hx]; constructor; [done|].
  eapply List.Forall_impl; [|exact Hx]. intros b. apply HRS.
Qed.

Lemma StronglySorted_app_l {A : Type} (R : A -> A -> Prop) (l1 l2 : list A) :
  StronglySorted R (l1 ++ l2) -> StronglySorted R l1.
Proof.
  induction l1 as [|x l1 IH]; simpl; intros Hs; [constructor|].
  inversion Hs as [|? ? Hl Hx]; subst.
  constructor; [by apply IH|].
  apply List.Forall_app in Hx. tauto.
Qed.

Lemma StronglySorted_app_cross {A : Type} (R : A -> A -> Prop) (l1 l2 : list A) :
  StronglySorted R (l1 ++ l2) ->
  forall x y, In x l1 -> In y l2 -> R x y.
Proof.
  induction l1 as [|a l1 IH]; simpl; intros Hs x y Hx Hy; [done|].
  inversion Hs as [|? ? Hl Ha]; subst.
  destruct Hx as [<-|Hx].
  - apply (proj1 (List.Forall_forall _ _) Ha). apply in_or_app. by right.
  - by apply IH.
Qed.

End Js.

(** ** The page's call tree ([window.callTree]) *)

Module CallTree.

(** What [callTree.getNodeData(node)] returns; every field may be absent. *)
Record NodeData := {
  funcName : option string;
  self : option Z;
  total : option Z
}.

Inductive CallNode := Node {
  getNodeData : option NodeData;
  getChildren : list CallNode
}.

Record t := { getRoots : list CallNode }.

(** Induction over the tree, with the hypothesis for every child. *)
Fixpoint CallNode_forall_ind (P : CallNode -> Prop)
    (step : forall d kids, Forall P kids -> P (Node d kids)) (n : CallNode) : P n :=
  match n with
  | Node d kids =>
      step d kids
        ((fix all (l : list CallNode) : Forall P l :=
            match l with
            | [] => @List.Forall_nil _ P
            | k :: l' => @List.Forall_cons _ P k l' (CallNode_forall_ind P step k) (all l')
            end) kids)
  end.

(** The guard [!nodeData || !nodeData.funcName] of the scripts, read
    positively: the node data together with its non-empty function name. *)
Definition named (d : option NodeData) : option (string * NodeData) :=
  match d with
  | Some nd =>
      match funcName nd with
      | Some f => if String.eqb f EmptyString then None else Some (f, nd)
      | None => None
      end
  | None => None
  end.

Lemma named_Some d f nd :
  named d = Some (f, nd) <-> d = Some nd /\ funcName nd = Some f /\ f <> EmptyString.
Proof.
  unfold named. destruct d as [nd'|]; [|split; [done|by intros [? _]]].
  destruct (funcName nd') as [f'|] eqn:Ef.
  - destruct (String.eqb f' EmptyString) eqn:E.
    + apply String.eqb_eq in E. split; [done|].
      intros (H1 & H2 & H3). congruence.
    + apply String.eqb_neq in E. split.
      * intros [= <- <-]. done.
      * intros (H1 & H2 & H3). congruence.
  - split; [done|]. intros (H1 & H2 & H3). congruence.
Qed.

End CallTree.

(** ** [getCallTreeData]: top functions by self time *)

Module CallTreeData.
Import CallTree.

Record CallPath := { stack : list string; samples : Z }.

(** [nodeStack] is the node's [stack] field, [callPaths] is absent unless
    the call is detailed. *)
Record CallTreeNode := {
  name : string;
  selfTime : Z;
  totalTime : Z;
  nodeStack : list string;
  callPaths : option (list CallPath)
}.

(** [nodeData.total || nodeData.self || 0] *)
Definition leafSamples (nd : NodeData) : Z :=
  Js.orZero (Js.orElse (total nd) (self nd)).

Fixpoint collectCallPaths (n : CallNode) (currentPath : list string) : list CallPath :=
  match n with
  | Node d children =>
      match named d with
      | None => []
      | Some (f, nd) =>
          let newPath := currentPath ++ [f] in
          match children with
          | [] => [ {| stack := newPath; samples := leafSamples nd |} ]
          | _ => flat_map (fun child => collectCallPaths child newPath) children
          end
      end
  end.

(** The body of the loop over [rootNodes]: [None] is the [continue]. The
    accessors of the page do not throw here, so the loop's [catch], which
    skips a root, is never entered. *)
Definition rootEntry (detailed : bool) (rootNode : CallNode) : option CallTreeNode :=
  match named (getNodeData rootNode) with
  | None => None
  | Some (f, nd) =>
      Some {| name := f;
              selfTime := Js.orZero (self nd);
              totalTime := Js.orZero (total nd);
              nodeStack := [f];
              callPaths := if detailed
                           then Some (collectCallPaths rootNode [])
                           else None |}
  end.

(** [(a, b) => b.selfTime - a.selfTime] *)
Definition bySelfTimeDesc (a b : CallTreeNode) : Z := selfTime b - selfTime a.

(** The script evaluated in the page, and what [getCallTreeData] returns
    ([result.topNodes]). *)
Definition getCallTreeData (ct : CallTree.t) (topN : Z) (detailed : bool)
  : list CallTreeNode :=
  match getRoots ct with
  | [] => []
  | rootNodes =>
      let allNodes := omap (rootEntry detailed) rootNodes in
      Js.slice0 topN (Js.sort bySelfTimeDesc allNodes)
  end.

(** The figures the specification speaks of: name, self and total time. *)
Definition figures (n : CallTreeNode) : string * Z * Z :=
  (name n, selfTime n, totalTime n).


Definition exampleTree : CallTree.t :=
  {| getRoots :=
       [ Node (Some {| funcName := Some "memcpy"; self := Some 7; total := Some 7 |})
           [ Node (Some {| funcName := Some "main"; self := None; total := Some 7 |}) [] ];
         Node None [];
         Node (Some {| funcName := Some "malloc"; self := Some 9; total := Some 12 |})
           [ Node (Some {| funcName := Some "parse"; self := None; total := Some 5 |})
               [ Node (Some {| funcName := Some "main"; self := None; total := Some 5 |}) [] ];
             Node (Some {| funcName := Some "main"; self := None; total := Some 4 |}) [] ];
         Node (Some {| funcName := Some EmptyString; self := Some 50; total := Some 50 |}) [];
         Node (Some {| funcName := Some "idle"; self := None; total := None |}) [] ] |}.


Example top_two_of_example :
  map figures (getCallTreeData exampleTree 2 false) = [("malloc", 9, 12); ("memcpy", 7, 7)].
Proof. reflexivity. Qed.

Example call_paths_of_example :
  map callPaths (getCallTreeData exampleTree 1 true) =
  [ Some [ {| stack := ["malloc"; "parse"; "main"]; samples := 5 |};
           {| stack := ["malloc"; "main"]; samples := 4 |} ] ].
Proof. reflexivity. Qed.











End CallTreeData.

(** ** The page's marker list ([window.filteredMarkers]) *)

Module Phase.
(** The keys of a network marker's payload that hold timestamps. *)
Inductive t :=
| startTime | domainLookupStart | domainLookupEnd | connectStart
| tcpConnectEnd | secureConnectionStart | connectEnd | requestStart
| responseStart | responseEnd | endTime.

Definition eqb (p q : t) : bool :=
  match p, q with
  | startTime, startTime | domainLookupStart, domainLookupStart
  | domainLookupEnd, domainLookupEnd | connectStart, connectStart
  | tcpConnectEnd, tcpConnectEnd | secureConnectionStart, secureConnectionStart
  | connectEnd, connectEnd | requestStart, requestStart
  | responseStart, responseStart | responseEnd, responseEnd
  | endTime, endTime => true
  | _, _ => false
  end.
End Phase.

Module Markers.

(** [marker.data.name], when defined: an index into the string table when
    it is a number, the text itself otherwise. *)
Inductive DataName :=
| NameIndex (i : Z)
| NameText (s : string).

(** The payload fields the scripts read. [timestamp p] is [data[p]] when
    [typeof data[p] === 'number'], and [None] otherwise. *)
Record MarkerData := {
  dataName : option DataName;
  dataType : option string;
  status : option string;
  URI : option string;
  cache : option string;
  contentType : option string;
  count : option Z;
  httpVersion : option string;
  timestamp : Phase.t -> option Z
}.

Record Marker := {
  name : string;
  start : option Z;
  startTime : option Z;
  end_ : option Z;
  data : option MarkerData
}.

(** [window.filteredThread.stringTable] *)
Record StringTable := { getString : Z -> string }.

(** The display name of a marker, by the words of the specification: the
    marker's name unless its data exists and the data's name is defined;
    then the data's name itself when that is not a number, and the string
    table's entry for it when it is. *)
Definition displayName (stringTable : StringTable) (marker : Marker) : string :=
  match data marker ≫= dataName with
  | None => name marker
  | Some (NameText s) => s
  | Some (NameIndex i) => getString stringTable i
  end.

(** The first marker of the list whose display name is [n]. *)
Definition firstNamed (stringTable : StringTable) (n : string) (markers : list Marker)
  : option Marker :=
  List.find (fun m => String.eqb (displayName stringTable m) n) markers.

(** [marker.start || marker.startTime || 0] *)
Definition startOf (marker : Marker) : Z :=
  Js.orZero (Js.orElse (start marker) (startTime marker)).

Definition noData : MarkerData :=
  {| dataName := None; dataType := None; status := None; URI := None;
     cache := None; contentType := None; count := None; httpVersion := None;
     timestamp := fun _ => None |}.

(** A marker with a start, an end and a display name given in its payload. *)
Definition span (n : DataName) (s e : Z) : Marker :=
  {| name := "UserTiming"; start := Some s; startTime := None; end_ := Some e;
     data := Some {| dataName := Some n; dataType := None; status := None;
                     URI := None; cache := None; contentType := None;
                     count := None; httpVersion := None;
                     timestamp := fun _ => None |} |}.

(** A marker without payload. *)
Definition plain (n : string) (s : option Z) (e : option Z) : Marker :=
  {| name := n; start := s; startTime := None; end_ := e; data := None |}.

Definition exampleTable : StringTable :=
  {| getString := fun i => if i =? 3 then "Navigation::Start"
                           else if i =? 4 then "Load"
                           else if i =? 5 then "Paint"
                           else "?" |}.

End Markers.

(** ** [getMarkerSummary]: marker statistics by display name *)

Module MarkerSummary.
Import Markers.

Record t := {
  name : string;
  count : Z;
  totalDuration : Z;
  avgDuration : Q;
  minDuration : Z;
  maxDuration : Z
}.

(** The display name as this script computes it (lines 253-262). *)
Definition markerName (stringTable : StringTable) (marker : Marker) : string :=
  let markerName := Markers.name marker in
  match data marker with
  | Some d =>
      match dataName d with
      | Some dataName =>
          match dataName with
          | NameIndex i => getString stringTable i
          | NameText s => s
          end
      | None => markerName
      end
  | None => markerName
  end.

(** [markerStats]: a [Map] from name to durations; a [Map] iterates in
    insertion order, so it is a list of entries. [record] is the
    [has]/[set]/[get(...).durations.push] sequence. *)
Definition Stats := list (string * list Z).

Fixpoint record (key : string) (duration : Z) (stats : Stats) : Stats :=
  match stats with
  | [] => [(key, [duration])]
  | (k, ds) :: rest =>
      if String.eqb k key
      then (k, ds ++ [duration]) :: rest
      else (k, ds) :: record key duration rest
  end.

(** The two [continue] guards of the loop. *)
Definition measured (marker : Marker) : option Z :=
  if negb (Js.truthyNum (start marker)) || negb (Js.truthyNum (end_ marker))
  then None
  else
    let duration := Js.orZero (end_ marker) - Js.orZero (start marker) in
    if duration <=? 0 then None else Some duration.

Definition visit (stringTable : StringTable) (stats : Stats) (marker : Marker) : Stats :=
  match measured marker with
  | None => stats
  | Some duration => record (markerName stringTable marker) duration stats
  end.

(** [Math.min(...ds)] and [Math.max(...ds)]; the scripts never call them
    on an empty list (where JavaScript gives an infinity). *)
Definition minOf (ds : list Z) : Z :=
  match ds with
  | [] => 0
  | d :: rest => fold_left Z.min rest d
  end.

Definition maxOf (ds : list Z) : Z :=
  match ds with
  | [] => 0
  | d :: rest => fold_left Z.max rest d
  end.

(** [ds.reduce((sum, d) => sum + d, 0)] *)
Definition sumOf (ds : list Z) : Z := fold_left Z.add ds 0.

Definition summarize (entry : string * list Z) : t :=
  let '(name, durations) := entry in
  let count := Z.of_nat (length durations) in
  let totalDuration := sumOf durations in
  {| name := name;
     count := count;
     totalDuration := totalDuration;
     avgDuration := (inject_Z totalDuration / inject_Z count)%Q;
     minDuration := minOf durations;
     maxDuration := maxOf durations |}.

(** [(a, b) => b.count - a.count] *)
Definition byCountDesc (a b : t) : Z := count b - count a.

Definition markerStats (stringTable : StringTable) (filteredMarkers : list Marker) : Stats :=
  fold_left (visit stringTable) filteredMarkers [].

Definition getMarkerSummary (stringTable : StringTable) (filteredMarkers : list Marker)
  : list t :=
  Js.sort byCountDesc (map summarize (markerStats stringTable filteredMarkers)).

(** The durations the specification groups under a name: end minus start
    of the markers with a truthy start, a truthy end and a positive
    difference whose display name is that name, in marker order. *)
Definition qualifies (marker : Marker) : bool :=
  Js.truthyNum (start marker) && Js.truthyNum (end_ marker)
  && (0 <? default 0 (end_ marker) - default 0 (start marker)).

Definition durationsOf (stringTable : StringTable) (markers : list Marker) (n : string)
  : list Z :=
  map (fun m => default 0 (end_ m) - default 0 (start m))
      (List.filter (fun m => qualifies m && String.eqb (displayName stringTable m) n) markers).

Definition exampleMarkers : list Marker :=
  [ span (NameText "Paint") 10 14;
    span (NameIndex 4) 20 50;
    plain "GC" (Some 0) (Some 9);
    plain "GC" (Some 30) None;
    span (NameIndex 5) 40 41;
    plain "GC" (Some 60) (Some 60);
    plain "Paint" (Some 70) (Some 79);
    plain "GC" (Some 80) (Some 85) ].


Example summary_of_example :
  map (fun s => (name s, count s, totalDuration s, minDuration s, maxDuration s))
      (getMarkerSummary exampleTable exampleMarkers) =
  [("Paint", 3, 14, 1, 9); ("Load", 1, 30, 30, 30); ("GC", 1, 5, 5, 5)].
Proof. reflexivity. Qed.

(** *** The statistics map as a lookup table *)

Fixpoint lookupStats (key : string) (stats : Stats) : option (list Z) :=
  match stats with
  | [] => None
  | (k, ds) :: rest => if String.eqb k key then Some ds else lookupStats key rest
  end.

Lemma lookup_record key d stats k :
  lookupStats k (record key d stats) =
  if String.eqb key k
  then Some (default [] (lookupStats key stats) ++ [d])
  else lookupStats k stats.
Proof.
  induction stats as [|[k0 ds] rest IH]; simpl.
  - by destruct (String.eqb key k).
  - destruct (String.eqb k0 key) eqn:E0; simpl.
    + apply String.eqb_eq in E0. subst k0.
      by destruct (String.eqb key k).
    + rewrite IH. destruct (String.eqb key k) eqn:E1; [|done].
      apply String.eqb_eq in E1. subst k. by rewrite E0.
Qed.

Lemma keys_record key d stats k :
  In k (map fst (record key d stats)) <-> k = key \/ In k (map fst stats).
Proof.
  induction stats as [|[k0 ds] rest IH]; simpl; [intuition congruence|].
  destruct (String.eqb k0 key) eqn:E0; simpl.
  - apply String.eqb_eq in E0. subst k0. intuition congruence.
  - rewrite IH. tauto.
Qed.

Lemma NoDup_record key d stats :
  List.NoDup (map fst stats) -> List.NoDup (map fst (record key d stats)).
Proof.
  induction stats as [|[k0 ds] rest IH]; simpl; intros Hnd.
  - constructor; [intros []|constructor].
  - inversion Hnd as [|? ? Hnot Hrest]; subst.
    destruct (String.eqb k0 key) eqn:E0; simpl.
    + by constructor.
    + apply String.eqb_neq in E0. constructor; [|by apply IH].
      rewrite keys_record. intros [->|Hin]; [done|]. by apply Hnot.
Qed.

Lemma lookup_None key stats :
  lookupStats key stats = None <-> ~ In key (map fst stats).
Proof.
  induction stats as [|[k0 ds] rest IH]; simpl; [split; [intros _ []|done]|].
  destruct (String.eqb k0 key) eqn:E0.
  - apply String.eqb_eq in E0. split; [done|]. intros H. exfalso. apply H. by left.
  - apply String.eqb_neq in E0. rewrite IH. tauto.
Qed.

Lemma lookup_In key ds stats :
  List.NoDup (map fst stats) -> In (key, ds) stats -> lookupStats key stats = Some ds.
Proof.
  induction stats as [|[k0 ds0] rest IH]; simpl; intros Hnd Hin; [done|].
  inversion Hnd as [|? ? Hnot Hrest]; subst.
  destruct Hin as [[= -> ->]|Hin].
  - by rewrite String.eqb_refl.
  - destruct (String.eqb k0 key) eqn:E0; [|by apply IH].
    apply String.eqb_eq in E0. subst k0. exfalso. apply Hnot.
    apply in_map_iff. by exists (key, ds).
Qed.

(** *** The loop invariant *)

Lemma summary_markerName stringTable marker :
  markerName stringTable marker = displayName stringTable marker.
Proof.
  unfold markerName, displayName.
  destruct (data marker) as [d|]; [|done]. simpl.
  destruct (dataName d) as [[i|s]|]; done.
Qed.

Lemma measured_qualifies m :
  measured m =
  if qualifies m then Some (default 0 (end_ m) - default 0 (start m)) else None.
Proof.
  unfold measured, qualifies, Js.orZero.
  destruct (Js.truthyNum (start m)), (Js.truthyNum (end_ m)); simpl; try done.
  destruct (default 0 (end_ m) - default 0 (start m) <=? 0) eqn:E1,
           (0 <? default 0 (end_ m) - default 0 (start m)) eqn:E2; try done; lia.
Qed.

Lemma durationsOf_snoc stringTable ms m n :
  durationsOf stringTable (ms ++ [m]) n =
  durationsOf stringTable ms n ++
  (if qualifies m && String.eqb (displayName stringTable m) n
   then [default 0 (end_ m) - default 0 (start m)] else []).
Proof.
  unfold durationsOf. rewrite List.filter_app, map_app. f_equal. simpl.
  by destruct (qualifies m && String.eqb (displayName stringTable m) n).
Qed.

Definition tabulates (stringTable : StringTable) (ms : list Marker) (stats : Stats) : Prop :=
  List.NoDup (map fst stats) /\
  forall k, lookupStats k stats =
            match durationsOf stringTable ms k with
            | [] => None
            | ds => Some ds
            end.

Lemma markerStats_tabulates stringTable ms :
  tabulates stringTable ms (markerStats stringTable ms).
Proof.
  unfold markerStats.
  induction ms as [|m ms IH] using rev_ind.
  - split; [constructor|]. intros k. done.
  - rewrite fold_left_app. simpl.
    destruct IH as [Hnd Hlk].
    set (stats := fold_left (visit stringTable) ms []) in *.
    unfold visit. rewrite measured_qualifies, summary_markerName.
    destruct (qualifies m) eqn:Eq.
    + split; [by apply NoDup_record|].
      intros k. rewrite lookup_record, durationsOf_snoc, Eq. simpl.
      destruct (String.eqb (displayName stringTable m) k) eqn:Ek.
      * apply String.eqb_eq in Ek. subst k. rewrite Hlk.
        by destruct (durationsOf stringTable ms (displayName stringTable m)).
      * rewrite app_nil_r. apply Hlk.
    + split; [done|].
      intros k. rewrite durationsOf_snoc, Eq. simpl.
      rewrite app_nil_r. apply Hlk.
Qed.

Lemma durationsOf_nonempty stringTable ms n :
  durationsOf stringTable ms n <> [] <->
  exists m, In m ms /\ qualifies m = true /\ displayName stringTable m = n.
Proof.
  unfold durationsOf. split.
  - intros Hne.
    destruct (List.filter (fun m => qualifies m && String.eqb (displayName stringTable m) n) ms)
      as [|m rest] eqn:E; [done|].
    assert (Hin : In m (m :: rest)) by (by left).
    rewrite <- E in Hin. apply filter_In in Hin.
    destruct Hin as [Hin Hp]. apply andb_true_iff in Hp.
    destruct Hp as [Hq Hn]. apply String.eqb_eq in Hn.
    by exists m.
  - intros (m & Hin & Hq & Hn) Hnil.
    apply map_eq_nil in Hnil.
    assert (Hm : In m (List.filter (fun m => qualifies m && String.eqb (displayName stringTable m) n) ms)).
    { apply filter_In. split; [done|].
      rewrite Hq. simpl. by apply String.eqb_eq. }
    rewrite Hnil in Hm. destruct Hm.
Qed.

(** *** The figures of one summary *)

Lemma fold_min_le ds d : fold_left Z.min ds d <= d.
Proof.
  revert d. induction ds as [|x ds IH]; intros d; simpl; [lia|].
  specialize (IH (Z.min d x)). lia.
Qed.

Lemma fold_min_lower ds d : Forall (fun x => fold_left Z.min ds d <= x) ds.
Proof.
  revert d. induction ds as [|x ds IH]; intros d; simpl; constructor.
  - pose proof (fold_min_le ds (Z.min d x)). lia.
  - apply IH.
Qed.

Lemma fold_min_In ds d : fold_left Z.min ds d = d \/ In (fold_left Z.min ds d) ds.
Proof.
  revert d. induction ds as [|x ds IH]; intros d; simpl; [by left|].
  destruct (IH (Z.min d x)) as [H|H]; [|by right; right].
  rewrite H. destruct (Z.min_spec d x) as [[_ ->]|[_ ->]]; [by left|by right; left].
Qed.

Lemma fold_max_ge ds d : d <= fold_left Z.max ds d.
Proof.
  revert d. induction ds as [|x ds IH]; intros d; simpl; [lia|].
  specialize (IH (Z.max d x)). lia.
Qed.

Lemma fold_max_upper ds d : Forall (fun x => x <= fold_left Z.max ds d) ds.
Proof.
  revert d. induction ds as [|x ds IH]; intros d; simpl; constructor.
  - pose proof (fold_max_ge ds (Z.max d x)). lia.
  - apply IH.
Qed.

Lemma fold_max_In ds d : fold_left Z.max ds d = d \/ In (fold_left Z.max ds d) ds.
Proof.
  revert d. induction ds as [|x ds IH]; intros d; simpl; [by left|].
  destruct (IH (Z.max d x)) as [H|H]; [|by right; right].
  rewrite H. destruct (Z.max_spec d x) as [[_ ->]|[_ ->]]; [by right; left|by left].
Qed.

Lemma minOf_is_minimum ds :
  ds <> [] -> In (minOf ds) ds /\ Forall (fun d => minOf ds <= d) ds.
Proof.
  destruct ds as [|d rest]; [done|]. intros _. simpl. split.
  - destruct (fold_min_In rest d) as [->|H]; [by left|by right].
  - constructor; [apply fold_min_le|apply fold_min_lower].
Qed.

Lemma maxOf_is_maximum ds :
  ds <> [] -> In (maxOf ds) ds /\ Forall (fun d => d <= maxOf ds) ds.
Proof.
  destruct ds as [|d rest]; [done|]. intros _. simpl. split.
  - destruct (fold_max_In rest d) as [->|H]; [by left|by right].
  - constructor; [apply fold_max_ge|apply fold_max_upper].
Qed.

Lemma fold_add_shift ds a : fold_left Z.add ds a = a + fold_right Z.add 0 ds.
Proof.
  revert a. induction ds as [|x ds IH]; intros a; simpl; [lia|].
  rewrite IH. lia.
Qed.

Lemma sumOf_sum ds : sumOf ds = fold_right Z.add 0 ds.
Proof. unfold sumOf. rewrite fold_add_shift. lia. Qed.

Lemma byCountDesc_total a b : 0 < byCountDesc a b -> byCountDesc b a <= 0.
Proof. unfold byCountDesc. lia. Qed.

Lemma byCountDesc_trans a b c :
  byCountDesc a b <= 0 -> byCountDesc b c <= 0 -> byCountDesc a c <= 0.
Proof. unfold byCountDesc. lia. Qed.


Lemma summaries_of_stats stringTable markers s :
  In s (getMarkerSummary stringTable markers) ->
  s = summarize (name s, durationsOf stringTable markers (name s)) /\
  durationsOf stringTable markers (name s) <> [].
Proof.
  intros Hs. unfold getMarkerSummary in Hs.
  apply (proj1 (Js.sort_In byCountDesc _ _)) in Hs. apply in_map_iff in Hs.
  destruct Hs as ([k ds] & <- & Hin).
  destruct (markerStats_tabulates stringTable markers) as [Hnd Hlk].
  pose proof (lookup_In k ds _ Hnd Hin) as Hk.
  rewrite Hlk in Hk. simpl.
  destruct (durationsOf stringTable markers k) as [|d rest]; [done|].
  injection Hk as <-. done.
Qed.

(** C2: the summaries are sorted by count in descending order; there is
    exactly one summary for each display name borne by a marker with a
    truthy start, a truthy end and a positive difference; and the summary
    of a name has, over the durations of exactly those markers, count
    their number, totalDuration their sum, avgDuration the quotient of
    the two, minDuration their minimum and maxDuration their maximum. *)
Theorem getMarkerSummary_groups (stringTable : StringTable) (markers : list Marker) :
  let res := getMarkerSummary stringTable markers in
  StronglySorted (fun a b => count b <= count a) res /\
  List.NoDup (map name res) /\
  (forall n, In n (map name res) <->
             exists m, In m markers /\ qualifies m = true /\
                       displayName stringTable m = n) /\
  (forall s, In s res ->
     let ds := durationsOf stringTable markers (name s) in
     ds <> [] /\
     count s = Z.of_nat (length ds) /\
     totalDuration s = fold_right Z.add 0 ds /\
     (avgDuration s == inject_Z (totalDuration s) / inject_Z (count s))%Q /\
     (avgDuration s * inject_Z (count s) == inject_Z (totalDuration s))%Q /\
     In (minDuration s) ds /\ Forall (fun d => minDuration s <= d) ds /\
     In (maxDuration s) ds /\ Forall (fun d => d <= maxDuration s) ds).
Proof.
  intros res. subst res.
  destruct (markerStats_tabulates stringTable markers) as [Hnd Hlk].
  assert (Hnames : Permutation (map name (getMarkerSummary stringTable markers))
                               (map fst (markerStats stringTable markers))).
  { unfold getMarkerSummary.
    rewrite (Permutation_map name (Js.sort_perm byCountDesc _)).
    rewrite map_map. erewrite map_ext; [reflexivity|]. by intros [k ds]. }
  split; [|split; [|split]].
  - unfold getMarkerSummary.
    eapply Js.StronglySorted_weaken;
      [|apply (Js.sort_sorted byCountDesc byCountDesc_total byCountDesc_trans)].
    intros a b. unfold Js.inOrder, byCountDesc. lia.
  - eapply Permutation_NoDup; [symmetry; exact Hnames|exact Hnd].
  - intros n. rewrite <- durationsOf_nonempty.
    split.
    + intros Hin. apply (Permutation_in _ Hnames) in Hin.
      intros Hnil.
      apply (proj1 (lookup_None n (markerStats stringTable markers))); [|exact Hin].
      by rewrite Hlk, Hnil.
    + intros Hne. apply (Permutation_in _ (Permutation_sym Hnames)).
      destruct (in_dec string_dec n (map fst (markerStats stringTable markers)))
        as [Hin|Hnot]; [done|].
      apply lookup_None in Hnot. rewrite Hlk in Hnot.
      by destruct (durationsOf stringTable markers n).
  - intros s Hs ds. subst ds.
    destruct (summaries_of_stats _ _ _ Hs) as [Heq Hne].
    set (ds := durationsOf stringTable markers (name s)) in *.
    assert (Hlen : 0 < Z.of_nat (length ds)).
    { destruct ds; [done|]. simpl. lia. }
    rewrite Heq. simpl.
    split; [done|]. split; [done|]. split; [apply sumOf_sum|].
    split; [reflexivity|].
    split.
    { rewrite Qmult_comm. apply Qmult_div_r. intros H0.
      assert (H1 : (0 < inject_Z (Z.of_nat (length ds)))%Q).
      { rewrite <- (Zlt_Qlt 0). exact Hlen. }
      rewrite H0 in H1. by apply Qlt_irrefl in H1. }
    destruct (minOf_is_minimum ds Hne) as [? ?].
    destruct (maxOf_is_maximum ds Hne) as [? ?].
    done.
Qed.

Definition examplePaint : t :=
  {| name := "Paint"; count := 3; totalDuration := 14;
     avgDuration := (inject_Z 14 / inject_Z 3)%Q;
     minDuration := 1; maxDuration := 9 |}.

Lemma getMarkerSummary_groups_witness :
  In examplePaint (getMarkerSummary exampleTable exampleMarkers) /\
  totalDuration examplePaint =
  fold_right Z.add 0 (durationsOf exampleTable exampleMarkers "Paint").
Proof.
  assert (H : In examplePaint (getMarkerSummary exampleTable exampleMarkers)).
  { left. reflexivity. }
  split; [exact H|].
  destruct (getMarkerSummary_groups exampleTable exampleMarkers) as (_ & _ & _ & Hall).
  destruct (Hall examplePaint H) as (_ & _ & Hsum & _).
  exact Hsum.
Defined.

End MarkerSummary.

(** ** [getFlamegraphData]: the top-down forest *)

Module Flamegraph.
Import CallTree.

Inductive FlameNode := Flame {
  name : string;
  selfTime : Z;
  totalTime : Z;
  children : list FlameNode
}.

(** [(a, b) => b.totalTime - a.totalTime] *)
Definition byTotalTimeDesc (a b : FlameNode) : Z := totalTime b - totalTime a.

(** [maxDepth !== null && currentDepth >= maxDepth] *)
Definition tooDeep (maxDepth : option Z) (currentDepth : Z) : bool :=
  match maxDepth with
  | Some m => m <=? currentDepth
  | None => false
  end.

Fixpoint buildFlameTree (maxDepth : option Z) (n : CallNode) (currentDepth : Z)
  : option FlameNode :=
  match n with
  | Node d childIndexes =>
      match named d with
      | None => None
      | Some (f, nd) =>
          if tooDeep maxDepth currentDepth then None
          else
            let kept :=
              omap (fun childIndex =>
                      buildFlameTree maxDepth childIndex (currentDepth + 1))
                   childIndexes in
            Some {| name := f;
                    selfTime := Js.orZero (self nd);
                    totalTime := Js.orZero (total nd);
                    children := Js.sort byTotalTimeDesc kept |}
      end
  end.

Definition getFlamegraphData (ct : CallTree.t) (maxDepth : option Z) : list FlameNode :=
  match getRoots ct with
  | [] => []
  | rootNodes =>
      Js.sort byTotalTimeDesc
        (omap (fun rootNode => buildFlameTree maxDepth rootNode 0) rootNodes)
  end.

(** *** What the specification says of the forest *)

Definition totalDesc (a b : FlameNode) : Prop := totalTime b <= totalTime a.

(** Every node's children are sorted by totalTime, descending. *)
Inductive sortedTree : FlameNode -> Prop :=
| sortedTree_intro n s t kids :
    StronglySorted totalDesc kids ->
    Forall sortedTree kids ->
    sortedTree (Flame n s t kids).

(** [occursAt f k x]: [x] is a node of the tree [f], [k] levels below its
    root. *)
Inductive occursAt : FlameNode -> nat -> FlameNode -> Prop :=
| occurs_root f : occursAt f 0 f
| occurs_below f c k x :
    In c (children f) -> occursAt c k x -> occursAt f (S k) x.

(** A call node is taken into the forest at depth [d] when its node data
    has a function name and [d] is below the depth limit. *)
Definition eligible (maxDepth : option Z) (d : Z) (c : CallNode) : bool :=
  match named (getNodeData c) with
  | Some _ => negb (tooDeep maxDepth d)
  | None => false
  end.

(** [renders maxDepth d c f]: the flame node [f] stands for the call node
    [c] at depth [d]: [c] is eligible, [f] carries its name and times, and
    the children of [f] are, in some order, what renders the eligible
    children of [c], one for one. So a node without a function name, and
    everything below it, has no part in [f]. *)
Inductive renders (maxDepth : option Z) : Z -> CallNode -> FlameNode -> Prop :=
| renders_intro d c nd f images :
    getNodeData c = Some nd ->
    funcName nd = Some (name f) ->
    name f <> EmptyString ->
    tooDeep maxDepth d = false ->
    selfTime f = default 0 (self nd) ->
    totalTime f = default 0 (total nd) ->
    Forall2 (renders maxDepth (d + 1))
            (List.filter (eligible maxDepth (d + 1)) (getChildren c)) images ->
    Permutation images (children f) ->
    renders maxDepth d c f.

Definition exampleTree : CallTree.t :=
  {| getRoots :=
       [ Node (Some {| funcName := Some "idle"; self := Some 2; total := Some 2 |}) [];
         Node (Some {| funcName := Some "main"; self := None; total := Some 16 |})
           [ Node (Some {| funcName := Some "parse"; self := Some 1; total := Some 5 |})
               [ Node (Some {| funcName := Some "malloc"; self := Some 4; total := Some 4 |}) [] ];
             Node (Some {| funcName := None; self := Some 1; total := Some 1 |})
               [ Node (Some {| funcName := Some "hidden"; self := Some 1; total := Some 1 |}) [] ];
             Node (Some {| funcName := Some "render"; self := Some 3; total := Some 10 |})
               [ Node (Some {| funcName := Some "memcpy"; self := Some 7; total := Some 7 |}) [] ] ] ] |}.


Example forest_of_example_depth_two :
  getFlamegraphData exampleTree (Some 2) =
  [ Flame "main" 0 16 [ Flame "render" 3 10 []; Flame "parse" 1 5 [] ];
    Flame "idle" 2 2 [] ].
Proof. reflexivity. Qed.

Example forest_of_example_depth_zero : getFlamegraphData exampleTree (Some 0) = [].
Proof. reflexivity. Qed.

Lemma byTotalTimeDesc_total a b : 0 < byTotalTimeDesc a b -> byTotalTimeDesc b a <= 0.
Proof. unfold byTotalTimeDesc. lia. Qed.

Lemma byTotalTimeDesc_trans a b c :
  byTotalTimeDesc a b <= 0 -> byTotalTimeDesc b c <= 0 -> byTotalTimeDesc a c <= 0.
Proof. unfold byTotalTimeDesc. lia. Qed.

Lemma sort_totalDesc l : StronglySorted totalDesc (Js.sort byTotalTimeDesc l).
Proof.
  eapply Js.StronglySorted_weaken;
    [|apply (Js.sort_sorted byTotalTimeDesc byTotalTimeDesc_total byTotalTimeDesc_trans)].
  intros a b. unfold Js.inOrder, byTotalTimeDesc, totalDesc. lia.
Qed.

Lemma getFlamegraphData_unfold ct maxDepth :
  getFlamegraphData ct maxDepth =
  Js.sort byTotalTimeDesc
    (omap (fun rootNode => buildFlameTree maxDepth rootNode 0) (getRoots ct)).
Proof. unfold getFlamegraphData. by destruct (getRoots ct). Qed.

Definition withinDepth (maxDepth : option Z) (d : Z) (f : FlameNode) : Prop :=
  forall m, maxDepth = Some m ->
  forall k x, occursAt f k x -> d + Z.of_nat k < m.

Lemma buildFlameTree_None maxDepth n d :
  buildFlameTree maxDepth n d = None <-> eligible maxDepth d n = false.
Proof.
  destruct n as [dt kids]. unfold eligible. simpl.
  destruct (named dt) as [[f nd]|]; [|done].
  by destruct (tooDeep maxDepth d).
Qed.

(** The images of the eligible nodes of a list, given the image of each. *)
Lemma omap_renders maxDepth d (cs : list CallNode) :
  Forall (fun c => forall f, buildFlameTree maxDepth c d = Some f ->
                             renders maxDepth d c f) cs ->
  Forall2 (renders maxDepth d)
          (List.filter (eligible maxDepth d) cs)
          (omap (fun c => buildFlameTree maxDepth c d) cs).
Proof.
  induction 1 as [|c cs Hc Hcs IH]; [constructor|].
  cbn [omap list_omap List.filter]. fold (@omap list _).
  destruct (buildFlameTree maxDepth c d) as [f|] eqn:E.
  - destruct (eligible maxDepth d c) eqn:Ee.
    + constructor; [by apply Hc|exact IH].
    + apply buildFlameTree_None in Ee. congruence.
  - apply buildFlameTree_None in E. rewrite E. exact IH.
Qed.

Lemma buildFlameTree_sound maxDepth n :
  forall d f, buildFlameTree maxDepth n d = Some f ->
              sortedTree f /\ renders maxDepth d n f /\ withinDepth maxDepth d f.
Proof.
  induction n as [dt kids IH] using CallNode_forall_ind.
  intros d f Hb. simpl in Hb.
  destruct (named dt) as [[fn nd]|] eqn:En; [|done].
  destruct (tooDeep maxDepth d) eqn:Ed; [done|].
  injection Hb as <-.
  apply named_Some in En. destruct En as (-> & Hfn & Hne).
  set (kept := omap (fun c => buildFlameTree maxDepth c (d + 1)) kids).
  assert (Hkept : forall k, In k (Js.sort byTotalTimeDesc kept) ->
            sortedTree k /\ withinDepth maxDepth (d + 1) k).
  { intros k Hk. apply (proj1 (Js.sort_In _ _ _)) in Hk.
    apply Js.In_omap in Hk. destruct Hk as (c & Hc & Hbc).
    destruct (proj1 (List.Forall_forall _ _) IH c Hc _ _ Hbc) as (? & _ & ?).
    done. }
  split; [|split].
  - constructor; [apply sort_totalDesc|].
    apply List.Forall_forall. intros k Hk. by apply Hkept.
  - apply renders_intro with (nd := nd) (images := kept); simpl; try done.
    + apply omap_renders. eapply List.Forall_impl; [|exact IH].
      intros c Hc f Hf. by apply Hc.
    + symmetry. apply Js.sort_perm.
  - intros m -> k x Hocc. simpl in Ed. apply Z.leb_gt in Ed.
    inversion Hocc as [|? c k' ? Hc Hocc']; subst; [lia|].
    simpl in Hc. destruct (Hkept c Hc) as (_ & Hd).
    specialize (Hd m eq_refl k' x Hocc'). lia.
Qed.

(** C3: the roots are sorted by totalTime in descending order, and so are
    the children of every node; the forest is, in some order, what renders
    the roots that have a function name (and, under a depth limit, each node
    only down to its eligible children), so that a node without a function
    name is left out together with everything below it; and when maxDepth is
    a number [m], a node that occurs [k] levels below a root has [k < m]. *)
Theorem getFlamegraphData_forest (ct : CallTree.t) (maxDepth : option Z) :
  let forest := getFlamegraphData ct maxDepth in
  StronglySorted totalDesc forest /\
  Forall sortedTree forest /\
  (exists images,
      Forall2 (renders maxDepth 0)
              (List.filter (eligible maxDepth 0) (getRoots ct)) images /\
      Permutation images forest) /\
  (forall m, maxDepth = Some m ->
     forall f k x, In f forest -> occursAt f k x -> Z.of_nat k < m).
Proof.
  intros forest. subst forest. rewrite getFlamegraphData_unfold.
  set (built := omap (fun r => buildFlameTree maxDepth r 0) (getRoots ct)).
  assert (Hroots : forall f, In f (Js.sort byTotalTimeDesc built) ->
            sortedTree f /\ withinDepth maxDepth 0 f).
  { intros f Hf. apply (proj1 (Js.sort_In _ _ _)) in Hf.
    apply Js.In_omap in Hf. destruct Hf as (r & Hr & Hb).
    destruct (buildFlameTree_sound maxDepth r 0 f Hb) as (? & _ & ?). done. }
  split; [apply sort_totalDesc|]. split; [|split].
  - apply List.Forall_forall. intros f Hf. by apply Hroots.
  - exists built. split; [|symmetry; apply Js.sort_perm].
    apply omap_renders. apply List.Forall_forall. intros r _ f Hf.
    by apply buildFlameTree_sound.
  - intros m Hm f k x Hf Hocc.
    destruct (Hroots f Hf) as (_ & Hd).
    specialize (Hd m Hm k x Hocc). lia.
Qed.

Definition exampleRender : FlameNode :=
  {| name := "render"; selfTime := 3; totalTime := 10; children := [] |}.

Definition exampleMain : FlameNode :=
  {| name := "main"; selfTime := 0; totalTime := 16;
     children := [ exampleRender;
                   {| name := "parse"; selfTime := 1; totalTime := 5; children := [] |} ] |}.

Lemma getFlamegraphData_forest_witness :
  In exampleMain (getFlamegraphData exampleTree (Some 2)) /\
  occursAt exampleMain 1 exampleRender /\
  Z.of_nat 1 < 2.
Proof.
  assert (Hin : In exampleMain (getFlamegraphData exampleTree (Some 2))).
  { left. reflexivity. }
  assert (Hocc : occursAt exampleMain 1 exampleRender).
  { apply occurs_below with (c := exampleRender); [by left|apply occurs_root]. }
  split; [exact Hin|]. split; [exact Hocc|].
  destruct (getFlamegraphData_forest exampleTree (Some 2)) as (_ & _ & _ & Hdepth).
  exact (Hdepth 2 eq_refl exampleMain 1%nat exampleRender Hin Hocc).
Defined.

End Flamegraph.

(** ** [getNetworkResources]: network-resource timing *)

Module Network.
Import Markers.

Record NetworkPhase := { label : string; phaseDuration : Z }.

Record NetworkResourceTiming := {
  url : string;
  startTime : Z;
  duration : Z;
  status : string;
  contentType : option string;
  size : option Z;
  httpVersion : option string;
  cache : string;
  phases : list NetworkPhase
}.

Record NetworkResourceSummary := {
  resources : list NetworkResourceTiming;
  totalResources : Z;
  phaseTotals : gmap string Z;
  cacheStats : gmap string Z
}.

(** The display name as this script computes it (lines 791-799). *)
Definition markerName (stringTable : StringTable) (marker : Marker) : string :=
  match data marker with
  | None => Markers.name marker
  | Some d =>
      match dataName d with
      | None => Markers.name marker
      | Some (NameIndex dataName) => getString stringTable dataName
      | Some (NameText dataName) => dataName
      end
  end.

(** The first loop: it stops at the first marker named Navigation::Start. *)
Fixpoint findNavigationStart (stringTable : StringTable) (filteredMarkers : list Marker)
  : option Z :=
  match filteredMarkers with
  | [] => None
  | marker :: rest =>
      if String.eqb (markerName stringTable marker) "Navigation::Start"
      then Some (startOf marker)
      else findNavigationStart stringTable rest
  end.

Definition ALL_NETWORK_PHASES_IN_ORDER : list Phase.t :=
  [ Phase.startTime; Phase.domainLookupStart; Phase.domainLookupEnd;
    Phase.connectStart; Phase.tcpConnectEnd; Phase.secureConnectionStart;
    Phase.connectEnd; Phase.requestStart; Phase.responseStart;
    Phase.responseEnd; Phase.endTime ].

Definition HUMAN_LABEL_FOR_PHASE (phase : Phase.t) : string :=
  match phase with
  | Phase.startTime => "Waiting for socket thread"
  | Phase.domainLookupStart => "DNS request"
  | Phase.domainLookupEnd => "After DNS request"
  | Phase.connectStart => "TCP connection"
  | Phase.tcpConnectEnd => "After TCP connection"
  | Phase.secureConnectionStart => "Establishing TLS session"
  | Phase.connectEnd => "Waiting for HTTP request"
  | Phase.requestStart => "HTTP request and waiting for response"
  | Phase.responseStart => "HTTP response"
  | Phase.responseEnd => "Waiting for main thread"
  | Phase.endTime => "End"
  end.

(** [availablePhases]: the phases whose timestamp is a number, in order. *)
Definition availablePhases (d : MarkerData) : list (Phase.t * Z) :=
  omap (fun phase => match timestamp d phase with
                     | Some value => Some (phase, value)
                     | None => None
                     end) ALL_NETWORK_PHASES_IN_ORDER.

(** [(phaseTotals[label] || 0) + phaseDuration], stored under [label]. *)
Definition addTo (key : string) (amount : Z) (totals : gmap string Z) : gmap string Z :=
  <[key := Js.orZero (totals !! key) + amount]> totals.

(** The loop [for (let j = 1; j < availablePhases.length; j++)]: [prevPhase]
    is the entry before the remaining ones. *)
Fixpoint phaseLoop (prevPhase : Phase.t * Z) (remaining : list (Phase.t * Z))
    (phases : list NetworkPhase) (phaseTotals : gmap string Z)
  : list NetworkPhase * gmap string Z :=
  match remaining with
  | [] => (phases, phaseTotals)
  | currPhase :: rest =>
      let phaseDuration := snd currPhase - snd prevPhase in
      let label := HUMAN_LABEL_FOR_PHASE (fst prevPhase) in
      phaseLoop currPhase rest
        (phases ++ [ {| label := label; phaseDuration := phaseDuration |} ])
        (addTo label phaseDuration phaseTotals)
  end.

Definition textIs (x : option string) (s : string) : bool :=
  match x with
  | Some v => String.eqb v s
  | None => false
  end.

(** [x || fallback] on [string | undefined]. *)
Definition orText (x : option string) (fallback : string) : string :=
  match x with
  | Some v => if String.eqb v EmptyString then fallback else v
  | None => fallback
  end.

(** [marker.data && marker.data.type === "Network" &&
     marker.data.status === "STATUS_STOP"]: the payload when the test holds. *)
Definition networkStop (marker : Marker) : option MarkerData :=
  match data marker with
  | Some d => if textIs (dataType d) "Network" && textIs (Markers.status d) "STATUS_STOP"
              then Some d else None
  | None => None
  end.

(** The three variables the second loop updates. *)
Record Acc := {
  accResources : list NetworkResourceTiming;
  accPhaseTotals : gmap string Z;
  accCacheStats : gmap string Z
}.

(** One turn of the second loop. *)
Definition visit (navigationStart : option Z) (acc : Acc) (marker : Marker) : Acc :=
  match networkStop marker with
  | None => acc
  | Some d =>
      let startTime := Js.orZero (start marker) in
      let endTime := if Js.truthyNum (end_ marker) then Js.orZero (end_ marker) else startTime in
      let duration := endTime - startTime in
      let '(phases, phaseTotals) :=
        match availablePhases d with
        | [] => ([], accPhaseTotals acc)
        | first :: rest => phaseLoop first rest [] (accPhaseTotals acc)
        end in
      let cache := orText (Markers.cache d) "Unknown" in
      let resource :=
        {| url := orText (URI d) EmptyString;
           startTime := match navigationStart with
                        | Some nav => startTime - nav
                        | None => startTime
                        end;
           duration := duration;
           status := orText (Markers.status d) EmptyString;
           contentType := Markers.contentType d;
           size := count d;
           httpVersion := Markers.httpVersion d;
           cache := cache;
           phases := phases |} in
      {| accResources := accResources acc ++ [resource];
         accPhaseTotals := phaseTotals;
         accCacheStats := addTo cache 1 (accCacheStats acc) |}
  end.

(** [(a, b) => a.startTime - b.startTime] *)
Definition byStartTime (a b : NetworkResourceTiming) : Z := startTime a - startTime b.

Definition getNetworkResources (stringTable : StringTable) (filteredMarkers : list Marker)
  : NetworkResourceSummary :=
  let navigationStart := findNavigationStart stringTable filteredMarkers in
  let acc := fold_left (visit navigationStart) filteredMarkers
               {| accResources := []; accPhaseTotals := ∅; accCacheStats := ∅ |} in
  {| resources := Js.sort byStartTime (accResources acc);
     totalResources := Z.of_nat (length (accResources acc));
     phaseTotals := accPhaseTotals acc;
     cacheStats := accCacheStats acc |}.

(** *** What the specification says of the result *)

(** The differences between consecutive entries, each labelled by the
    earlier entry's human label. *)
Fixpoint consecutive (l : list (Phase.t * Z)) : list NetworkPhase :=
  match l with
  | [] => []
  | prev :: rest =>
      match rest with
      | [] => []
      | curr :: _ =>
          {| label := HUMAN_LABEL_FOR_PHASE (fst prev);
             phaseDuration := snd curr - snd prev |} :: consecutive rest
      end
  end.

(** The resource of one marker, when it is a stopped network marker. *)
Definition resourceOf (navigationStart : option Z) (marker : Marker)
  : option NetworkResourceTiming :=
  match networkStop marker with
  | None => None
  | Some d =>
      let s := Js.orZero (start marker) in
      Some {| url := orText (URI d) EmptyString;
              startTime := s - default 0 navigationStart;
              duration := (if Js.truthyNum (end_ marker)
                           then Js.orZero (end_ marker) else s) - s;
              status := orText (Markers.status d) EmptyString;
              contentType := Markers.contentType d;
              size := count d;
              httpVersion := Markers.httpVersion d;
              cache := orText (Markers.cache d) "Unknown";
              phases := consecutive (availablePhases d) |}
  end.

(** The sum of the durations labelled [l] in a phase list, and over the
    phase lists of a list of resources. *)
Definition labelled (l : string) (ps : list NetworkPhase) : Z :=
  fold_right Z.add 0
    (map phaseDuration (List.filter (fun ph => String.eqb (label ph) l) ps)).

Definition totalOver (l : string) (rs : list NetworkResourceTiming) : Z :=
  fold_right Z.add 0 (map (fun r => labelled l (phases r)) rs).

(** The timestamp keys present as numbers in a payload, in the fixed order. *)
Definition presentPhases (d : MarkerData) : list Phase.t :=
  List.filter (fun p => match timestamp d p with Some _ => true | None => false end)
    ALL_NETWORK_PHASES_IN_ORDER.

(** A network payload with the given timestamps. *)
Definition payload (st : string) (u : string) (ts : Phase.t -> option Z) : MarkerData :=
  {| dataName := None; dataType := Some "Network"; Markers.status := Some st;
     URI := Some u; Markers.cache := None; Markers.contentType := None;
     count := None; Markers.httpVersion := None; timestamp := ts |}.

Definition load (st : string) (u : string) (s e : Z) (ts : Phase.t -> option Z) : Marker :=
  {| Markers.name := "Load"; start := Some s; Markers.startTime := None;
     end_ := Some e; data := Some (payload st u ts) |}.

Definition exampleMarkers : list Marker :=
  [ load "STATUS_STOP" "https://a.test/late.js" 140 190
      (fun p => match p with
                | Phase.startTime => Some 140
                | Phase.requestStart => Some 150
                | Phase.responseStart => Some 170
                | Phase.endTime => Some 190
                | _ => None
                end);
    span (NameIndex 3) 100 100;
    load "STATUS_START" "https://a.test/" 105 106 (fun _ => None);
    load "STATUS_STOP" "https://a.test/" 105 130
      (fun p => match p with
                | Phase.startTime => Some 105
                | Phase.domainLookupStart => Some 107
                | Phase.requestStart => Some 110
                | Phase.responseEnd => Some 128
                | _ => None
                end);
    plain "GC" (Some 120) (Some 125) ].


Example eleven_phases : length ALL_NETWORK_PHASES_IN_ORDER = 11%nat.
Proof. reflexivity. Qed.

Example resources_of_example :
  map (fun r => (url r, startTime r, duration r, map phaseDuration (phases r)))
      (resources (getNetworkResources exampleTable exampleMarkers)) =
  [ ("https://a.test/", 5, 25, [2; 3; 18]);
    ("https://a.test/late.js", 40, 50, [10; 20; 20]) ].
Proof. reflexivity. Qed.

Example totals_of_example :
  phaseTotals (getNetworkResources exampleTable exampleMarkers)
    !! "Waiting for socket thread" = Some 12.
Proof. reflexivity. Qed.

(** *** The phase loop *)

Definition addPhases (ps : list NetworkPhase) (totals : gmap string Z) : gmap string Z :=
  fold_left (fun t ph => addTo (label ph) (phaseDuration ph) t) ps totals.

Lemma phaseLoop_spec rest : forall prev ps totals,
  phaseLoop prev rest ps totals =
  (ps ++ consecutive (prev :: rest), addPhases (consecutive (prev :: rest)) totals).
Proof.
  induction rest as [|curr rest IH]; intros prev ps totals.
  - simpl. by rewrite app_nil_r.
  - cbn [phaseLoop]. rewrite IH.
    change (consecutive (prev :: curr :: rest)) with
      ({| label := HUMAN_LABEL_FOR_PHASE (fst prev);
          phaseDuration := snd curr - snd prev |} :: consecutive (curr :: rest)).
    by rewrite <- app_assoc.
Qed.

Lemma lookup_addTo key amount (totals : gmap string Z) l :
  default 0 (addTo key amount totals !! l) =
  default 0 (totals !! l) + (if String.eqb key l then amount else 0).
Proof.
  unfold addTo, Js.orZero. destruct (String.eqb key l) eqn:E.
  - apply String.eqb_eq in E. subst l. by rewrite lookup_insert_eq.
  - apply String.eqb_neq in E. rewrite lookup_insert_ne by done. lia.
Qed.

Lemma lookup_addTo_None key amount (totals : gmap string Z) l :
  addTo key amount totals !! l = None <-> totals !! l = None /\ key <> l.
Proof.
  unfold addTo. destruct (decide (key = l)) as [->|Hne].
  - rewrite lookup_insert_eq. split; [done|]. by intros [_ ?].
  - rewrite lookup_insert_ne by done. tauto.
Qed.

Lemma lookup_addPhases ps : forall (totals : gmap string Z) l,
  default 0 (addPhases ps totals !! l) = default 0 (totals !! l) + labelled l ps.
Proof.
  unfold labelled.
  induction ps as [|ph ps IH]; intros totals l; simpl; [lia|].
  unfold addPhases in *. simpl. rewrite IH, lookup_addTo.
  destruct (String.eqb (label ph) l); simpl; lia.
Qed.

Lemma lookup_addPhases_None ps : forall (totals : gmap string Z) l,
  addPhases ps totals !! l = None <->
  totals !! l = None /\ Forall (fun ph => label ph <> l) ps.
Proof.
  induction ps as [|ph ps IH]; intros totals l.
  - simpl. split; [by intros ?; split|by intros [? _]].
  - unfold addPhases in *. simpl. rewrite IH, lookup_addTo_None. split.
    + intros [[? ?] ?]. split; [done|by constructor].
    + intros [? Hall]. inversion Hall; subst. done.
Qed.

(** *** The marker loop *)

Lemma network_visit_spec nav acc m :
  visit nav acc m =
  match resourceOf nav m with
  | None => acc
  | Some r =>
      {| accResources := accResources acc ++ [r];
         accPhaseTotals := addPhases (phases r) (accPhaseTotals acc);
         accCacheStats := addTo (cache r) 1 (accCacheStats acc) |}
  end.
Proof.
  unfold visit, resourceOf.
  destruct (networkStop m) as [d|]; [|done].
  destruct (availablePhases d) as [|first rest] eqn:Ea.
  - simpl. by destruct nav; rewrite ?Z.sub_0_r.
  - rewrite phaseLoop_spec. simpl app.
    by destruct nav; simpl; rewrite ?Z.sub_0_r.
Qed.

Definition addResources (rs : list NetworkResourceTiming) (totals : gmap string Z)
  : gmap string Z :=
  fold_left (fun t r => addPhases (phases r) t) rs totals.

Lemma network_loop_spec nav ms : forall acc,
  accResources (fold_left (visit nav) ms acc) =
    accResources acc ++ omap (resourceOf nav) ms /\
  accPhaseTotals (fold_left (visit nav) ms acc) =
    addResources (omap (resourceOf nav) ms) (accPhaseTotals acc).
Proof.
  induction ms as [|m ms IH]; intros acc.
  - simpl. by rewrite app_nil_r.
  - cbn [fold_left]. destruct (IH (visit nav acc m)) as [-> ->].
    rewrite network_visit_spec. cbn [omap list_omap].
    destruct (resourceOf nav m) as [r|]; [|done].
    simpl. by rewrite <- app_assoc.
Qed.

Lemma lookup_addResources rs : forall (totals : gmap string Z) l,
  default 0 (addResources rs totals !! l) = default 0 (totals !! l) + totalOver l rs.
Proof.
  unfold totalOver.
  induction rs as [|r rs IH]; intros totals l; simpl; [lia|].
  unfold addResources in *. simpl. rewrite IH, lookup_addPhases. lia.
Qed.

Lemma lookup_addResources_None rs : forall (totals : gmap string Z) l,
  addResources rs totals !! l = None <->
  totals !! l = None /\ Forall (fun r => Forall (fun ph => label ph <> l) (phases r)) rs.
Proof.
  induction rs as [|r rs IH]; intros totals l.
  - simpl. split; [by intros ?; split|by intros [? _]].
  - unfold addResources in *. simpl. rewrite IH, lookup_addPhases_None. split.
    + intros [[? ?] ?]. split; [done|by constructor].
    + intros [? Hall]. inversion Hall; subst. done.
Qed.

Lemma sum_Permutation (l l' : list Z) :
  Permutation l l' -> fold_right Z.add 0 l = fold_right Z.add 0 l'.
Proof. induction 1; simpl; lia. Qed.

Lemma totalOver_Permutation l rs rs' :
  Permutation rs rs' -> totalOver l rs = totalOver l rs'.
Proof.
  intros H. unfold totalOver. apply sum_Permutation. by apply Permutation_map.
Qed.

(** *** The phases of one resource *)

Lemma consecutive_length l : length (consecutive l) = pred (length l).
Proof.
  induction l as [|prev rest IH]; [done|].
  destruct rest as [|curr rest]; [done|].
  change (consecutive (prev :: curr :: rest)) with
    ({| label := HUMAN_LABEL_FOR_PHASE (fst prev);
        phaseDuration := snd curr - snd prev |} :: consecutive (curr :: rest)).
  simpl length in *. by rewrite IH.
Qed.

Lemma consecutive_lookup l : forall (i : nat) p tp q tq,
  l !! i = Some (p, tp) -> l !! S i = Some (q, tq) ->
  consecutive l !! i =
  Some {| label := HUMAN_LABEL_FOR_PHASE p; phaseDuration := tq - tp |}.
Proof.
  induction l as [|prev rest IH]; intros i p tp q tq Hi Hsi; [done|].
  destruct rest as [|curr rest]; [done|].
  change (consecutive (prev :: curr :: rest)) with
    ({| label := HUMAN_LABEL_FOR_PHASE (fst prev);
        phaseDuration := snd curr - snd prev |} :: consecutive (curr :: rest)).
  destruct i as [|i].
  - simpl in Hi, Hsi. injection Hi as ->. injection Hsi as ->. done.
  - simpl in Hi. change ((curr :: rest) !! i = Some (p, tp)) in Hi.
    change ((curr :: rest) !! S i = Some (q, tq)) in Hsi.
    exact (IH i p tp q tq Hi Hsi).
Qed.

Lemma available_present d (ps : list Phase.t) :
  omap (fun phase => match timestamp d phase with
                     | Some value => Some (phase, value)
                     | None => None
                     end) ps =
  (fun p => (p, default 0 (timestamp d p))) <$>
    List.filter (fun p => match timestamp d p with Some _ => true | None => false end) ps.
Proof.
  induction ps as [|p ps IH]; [done|].
  cbn [omap list_omap List.filter]. fold (@omap list _).
  destruct (timestamp d p) as [v|] eqn:E; simpl.
  - rewrite E. simpl. f_equal. exact IH.
  - exact IH.
Qed.

Lemma present_timestamp d p :
  In p (presentPhases d) -> exists v, timestamp d p = Some v.
Proof.
  unfold presentPhases. intros H. apply filter_In in H. destruct H as [_ H].
  destruct (timestamp d p) as [v|]; [by exists v|done].
Qed.

Lemma phases_spec d (i : nat) p q :
  presentPhases d !! i = Some p -> presentPhases d !! S i = Some q ->
  exists tp tq, timestamp d p = Some tp /\ timestamp d q = Some tq /\
    consecutive (availablePhases d) !! i =
    Some {| label := HUMAN_LABEL_FOR_PHASE p; phaseDuration := tq - tp |}.
Proof.
  intros Hp Hq.
  destruct (present_timestamp d p) as [tp Htp].
  { apply list_elem_of_In. by eapply list_elem_of_lookup_2. }
  destruct (present_timestamp d q) as [tq Htq].
  { apply list_elem_of_In. by eapply list_elem_of_lookup_2. }
  exists tp, tq. split; [done|]. split; [done|].
  unfold availablePhases. rewrite available_present. fold (presentPhases d).
  apply consecutive_lookup with (q := q).
  - rewrite list_lookup_fmap, Hp. simpl. by rewrite Htp.
  - rewrite list_lookup_fmap, Hq. simpl. by rewrite Htq.
Qed.


Lemma network_markerName stringTable marker :
  markerName stringTable marker = displayName stringTable marker.
Proof.
  unfold markerName, displayName.
  destruct (data marker) as [d|]; [|done]. simpl.
  destruct (dataName d) as [[i|s]|]; done.
Qed.

Lemma findNavigationStart_first stringTable markers :
  findNavigationStart stringTable markers =
  startOf <$> firstNamed stringTable "Navigation::Start" markers.
Proof.
  unfold firstNamed.
  induction markers as [|m ms IH]; [done|].
  simpl. rewrite network_markerName.
  by destruct (String.eqb (displayName stringTable m) "Navigation::Start").
Qed.

Lemma networkStop_Some m d :
  networkStop m = Some d <->
  data m = Some d /\ dataType d = Some "Network" /\ Markers.status d = Some "STATUS_STOP".
Proof.
  unfold networkStop, textIs.
  destruct (data m) as [d'|]; [|split; [done|by intros [? _]]].
  destruct (dataType d') as [ty|] eqn:Et; simpl.
  2:{ split; [done|]. intros ([= <-] & H & _). congruence. }
  destruct (Markers.status d') as [st|] eqn:Es; simpl.
  2:{ rewrite andb_false_r. split; [done|]. intros ([= <-] & _ & H). congruence. }
  destruct (String.eqb ty "Network") eqn:E1; simpl.
  2:{ apply String.eqb_neq in E1. split; [done|]. intros ([= <-] & H & _). congruence. }
  destruct (String.eqb st "STATUS_STOP") eqn:E2.
  2:{ apply String.eqb_neq in E2. split; [done|]. intros ([= <-] & _ & H). congruence. }
  apply String.eqb_eq in E1, E2. subst. split.
  - by intros [= <-].
  - by intros ([= <-] & _ & _).
Qed.

Lemma byStartTime_total a b : 0 < byStartTime a b -> byStartTime b a <= 0.
Proof. unfold byStartTime. lia. Qed.

Lemma byStartTime_trans a b c :
  byStartTime a b <= 0 -> byStartTime b c <= 0 -> byStartTime a c <= 0.
Proof. unfold byStartTime. lia. Qed.

(** C4: with [nav] the start of the first marker named Navigation::Start
    (if any), the returned resources are a rearrangement of the resources of
    exactly the markers whose data.type is Network and data.status is
    STATUS_STOP; a resource's startTime is the marker's start less [nav];
    its phases are the differences of consecutive timestamps present as
    numbers, in the fixed order, each labelled by the earlier phase's human
    label; phaseTotals holds for each label the sum of the durations so
    labelled over all returned resources (and no entry for a label that
    labels nothing); the resources are sorted by ascending startTime; and
    totalResources is their number. *)
Theorem getNetworkResources_summary (stringTable : StringTable) (markers : list Marker) :
  let r := getNetworkResources stringTable markers in
  let nav := startOf <$> firstNamed stringTable "Navigation::Start" markers in
  Permutation (resources r) (omap (resourceOf nav) markers) /\
  (forall m, is_Some (resourceOf nav m) <->
             exists d, data m = Some d /\ dataType d = Some "Network" /\
                       Markers.status d = Some "STATUS_STOP") /\
  (forall m d res, resourceOf nav m = Some res -> data m = Some d ->
     startTime res = Js.orZero (start m) - default 0 nav /\
     length (phases res) = pred (length (presentPhases d)) /\
     forall (i : nat) p q,
       presentPhases d !! i = Some p -> presentPhases d !! S i = Some q ->
       exists tp tq, timestamp d p = Some tp /\ timestamp d q = Some tq /\
         phases res !! i =
         Some {| label := HUMAN_LABEL_FOR_PHASE p; phaseDuration := tq - tp |}) /\
  (forall l, default 0 (phaseTotals r !! l) = totalOver l (resources r)) /\
  (forall l, phaseTotals r !! l = None <->
             Forall (fun res => Forall (fun ph => label ph <> l) (phases res))
                    (resources r)) /\
  StronglySorted (fun a b => startTime a <= startTime b) (resources r) /\
  totalResources r = Z.of_nat (length (resources r)).
Proof.
  intros r nav. subst r. unfold getNetworkResources.
  rewrite findNavigationStart_first. fold nav. cbn zeta.
  destruct (network_loop_spec nav markers
              {| accResources := []; accPhaseTotals := ∅; accCacheStats := ∅ |})
    as [Hres Htot].
  simpl in Hres, Htot. cbn [resources totalResources phaseTotals].
  rewrite Hres, Htot.
  set (rs := omap (resourceOf nav) markers).
  pose proof (Js.sort_perm byStartTime rs) as Hperm.
  split; [exact Hperm|]. split; [|split; [|split; [|split; [|split]]]].
  - intros m. unfold resourceOf.
    destruct (networkStop m) as [d|] eqn:E.
    + apply networkStop_Some in E. split; [by exists d|by eexists].
    + split; [by intros [? ?]|]. intros (d & Hd). apply networkStop_Some in Hd.
      congruence.
  - intros m d res Hr Hd. unfold resourceOf in Hr.
    destruct (networkStop m) as [d'|] eqn:E; [|done].
    apply networkStop_Some in E. destruct E as (E & _). rewrite Hd in E.
    injection E as <-. injection Hr as <-. cbn [startTime phases].
    split; [done|]. split.
    + rewrite consecutive_length. unfold availablePhases.
      rewrite available_present. fold (presentPhases d).
      by rewrite length_fmap.
    + intros i p q. apply phases_spec.
  - intros l. rewrite lookup_addResources, lookup_empty. simpl.
    symmetry. by apply totalOver_Permutation.
  - intros l. rewrite lookup_addResources_None, lookup_empty. split.
    + intros [_ H]. eapply Permutation_Forall; [symmetry; exact Hperm|exact H].
    + intros H. split; [done|].
      eapply Permutation_Forall; [exact Hperm|exact H].
  - eapply Js.StronglySorted_weaken;
      [|apply (Js.sort_sorted byStartTime byStartTime_total byStartTime_trans)].
    intros a b. unfold Js.inOrder, byStartTime. lia.
  - by rewrite Js.sort_length.
Qed.

Definition exampleDocument : Marker :=
  load "STATUS_STOP" "https://a.test/" 105 130
    (fun p => match p with
              | Phase.startTime => Some 105
              | Phase.domainLookupStart => Some 107
              | Phase.requestStart => Some 110
              | Phase.responseEnd => Some 128
              | _ => None
              end).

Lemma getNetworkResources_summary_witness :
  exists d res,
    resourceOf (Some 100) exampleDocument = Some res /\
    data exampleDocument = Some d /\
    startTime res = 5 /\
    phases res !! 1%nat = Some {| label := "DNS request"; phaseDuration := 3 |}.
Proof.
  destruct (getNetworkResources_summary exampleTable exampleMarkers)
    as (_ & _ & Hph & _).
  destruct (resourceOf (Some 100) exampleDocument) as [res|] eqn:Er; [|discriminate Er].
  destruct (data exampleDocument) as [d|] eqn:Ed; [|discriminate Ed].
  exists d, res. split; [reflexivity|]. split; [reflexivity|].
  destruct (Hph exampleDocument d res Er Ed) as (Hs & _ & Hi).
  split; [exact Hs|].
  injection Ed as <-.
  destruct (Hi 1%nat Phase.domainLookupStart Phase.requestStart eq_refl eq_refl)
    as (tp & tq & Htp & Htq & Hl).
  injection Htp as <-. injection Htq as <-. exact Hl.
Defined.

End Network.

(** ** [getPageLoadSummary]: navigation start, load and paint times

    Of the summary, the four timing fields are embedded. The other fields
    (url, resources, sampleCategories, jankPeriods) are computed into
    variables of their own that the four never read. *)

Module PageLoad.
Import Markers.

Record PageLoadSummary := {
  navigationStart : option Z;
  load : option Z;
  firstContentfulPaint : option Z;
  largestContentfulPaint : option Z
}.

(** The variables of the loop over the markers. *)
Module Var.
Record t := {
  navigationStart : option Z;
  load : option Z;
  firstContentfulPaint : option Z;
  largestContentfulPaint : option Z
}.
End Var.

(** The display name as this script computes it (lines 519-527). *)
Definition markerName (stringTable : StringTable) (marker : Marker) : string :=
  match data marker with
  | Some d =>
      match dataName d with
      | Some (NameIndex dataName) => getString stringTable dataName
      | Some (NameText dataName) => dataName
      | None => name marker
      end
  | None => name marker
  end.

Definition isNull (x : option Z) : bool :=
  match x with
  | None => true
  | Some _ => false
  end.

(** [marker.data && marker.data.URI] *)
Definition hasURI (marker : Marker) : bool :=
  match data marker with
  | Some d => Js.truthyStr (URI d)
  | None => false
  end.

(** [markerName.match(/after (\d+)ms/)] followed by [parseFloat(match[1])]. *)
Definition msAfter (markerName : string) : option Z :=
  Js.parseFloat <$> Js.matchAfterMs markerName.

(** One turn of the loop: the chain of [if ... else if ...]. The second
    branch only appends to [resources] and sets [loadUrl]. *)
Definition visit (stringTable : StringTable) (v : Var.t) (marker : Marker) : Var.t :=
  let markerName := markerName stringTable marker in
  if String.eqb markerName "Navigation::Start" && isNull (Var.navigationStart v) then
    {| Var.navigationStart := Some (startOf marker);
       Var.load := Var.load v;
       Var.firstContentfulPaint := Var.firstContentfulPaint v;
       Var.largestContentfulPaint := Var.largestContentfulPaint v |}
  else if Js.startsWith markerName "Load " && hasURI marker then
    v
  else if String.eqb markerName "Load" && isNull (Var.load v) then
    {| Var.navigationStart := Var.navigationStart v;
       Var.load := Some (startOf marker);
       Var.firstContentfulPaint := Var.firstContentfulPaint v;
       Var.largestContentfulPaint := Var.largestContentfulPaint v |}
  else if Js.startsWith markerName "Contentful paint after"
          && isNull (Var.firstContentfulPaint v) then
    match msAfter markerName with
    | Some ms =>
        {| Var.navigationStart := Var.navigationStart v;
           Var.load := Var.load v;
           Var.firstContentfulPaint := Some ms;
           Var.largestContentfulPaint := Var.largestContentfulPaint v |}
    | None => v
    end
  else if Js.startsWith markerName "Largest contentful paint after"
          && isNull (Var.largestContentfulPaint v) then
    match msAfter markerName with
    | Some ms =>
        {| Var.navigationStart := Var.navigationStart v;
           Var.load := Var.load v;
           Var.firstContentfulPaint := Var.firstContentfulPaint v;
           Var.largestContentfulPaint := Some ms |}
    | None => v
    end
  else v.

Definition initial : Var.t :=
  {| Var.navigationStart := None; Var.load := None;
     Var.firstContentfulPaint := None; Var.largestContentfulPaint := None |}.

Definition getPageLoadSummary (stringTable : StringTable) (filteredMarkers : list Marker)
  : PageLoadSummary :=
  let v := fold_left (visit stringTable) filteredMarkers initial in
  {| navigationStart := Var.navigationStart v;
     load := match Var.load v, Var.navigationStart v with
             | Some load, Some navigationStart => Some (load - navigationStart)
             | _, _ => None
             end;
     firstContentfulPaint := Var.firstContentfulPaint v;
     largestContentfulPaint := Var.largestContentfulPaint v |}.

(** *** What the specification says of the four fields *)


Definition exampleMarkers : list Marker :=
  [ plain "Load" (Some 70) None;
    plain "Contentful paint after an unknown time" (Some 20) None;
    span (NameIndex 3) 10 10;
    span (NameText "Navigation::Start") 500 500;
    plain "Largest contentful paint after 98ms for URL https://a.test/" (Some 108) None;
    plain "Contentful paint after 45ms for URL https://a.test/, foreground tab" (Some 55) None;
    plain "Contentful paint after 46ms" (Some 56) None;
    span (NameIndex 4) 90 90 ].


Example summary_of_example_page :
  getPageLoadSummary exampleTable exampleMarkers =
  {| navigationStart := Some 10; load := Some 60;
     firstContentfulPaint := Some 45; largestContentfulPaint := Some 98 |}.
Proof. reflexivity. Qed.

Example leftmost_match : msAfter "x after 12 after 0345ms after 7ms" = Some 345.
Proof. reflexivity. Qed.

Example no_digits_no_match : msAfter "Contentful paint after ms" = None.
Proof. reflexivity. Qed.

Lemma pageLoad_markerName stringTable marker :
  markerName stringTable marker = displayName stringTable marker.
Proof.
  unfold markerName, displayName.
  destruct (data marker) as [d|]; [|done]. simpl.
  destruct (dataName d) as [[i|s]|]; done.
Qed.

(** *** The tests of the chain exclude one another *)









Definition examplePaint : Marker :=
  plain "Contentful paint after 45ms for URL https://a.test/, foreground tab" (Some 55) None.


End PageLoad.

(** ** The display name is resolved alike in the three marker scripts *)

(** C10: [getMarkerSummary], [getPageLoadSummary] and [getNetworkResources]
    resolve a marker's display name by the same function of the marker and
    the string table: marker.name unless marker.data exists and
    marker.data.name is defined; then marker.data.name itself when it is not
    a number, and stringTable.getString(marker.data.name) when it is. *)
Theorem markerName_same (stringTable : Markers.StringTable) (marker : Markers.Marker) :
  MarkerSummary.markerName stringTable marker = Markers.displayName stringTable marker /\
  PageLoad.markerName stringTable marker = Markers.displayName stringTable marker /\
  Network.markerName stringTable marker = Markers.displayName stringTable marker.
Proof.
  split; [apply MarkerSummary.summary_markerName|].
  split; [apply PageLoad.pageLoad_markerName|apply Network.network_markerName].
Qed.

(** ** The browser session: what each operation does to the page *)

Module Session.

(** The part of the page's state the operations read. *)
Record AppState := {
  selectors : bool;
  viewPhase : string;
  symbolicationStatus : string;
  funcTable : list string;
  callTree : CallTree.t;
  filteredMarkers : list Markers.Marker;
  stringTable : Markers.StringTable;
  raw : nat -> Z
}.

(** The two predicates given to [page.waitForFunction]. *)
Inductive Condition := ViewDataLoaded | SymbolicationDone.

Definition holds (c : Condition) (st : AppState) : bool :=
  match c with
  | ViewDataLoaded => selectors st && String.eqb (viewPhase st) "DATA_LOADED"
  | SymbolicationDone => String.eqb (symbolicationStatus st) "DONE"
  end.

(** The functions given to [page.evaluate]. The first three dispatch actions
    of the user interface; the others read data. [Extraction] stands for
    the scripts of the assembly and source extraction of [annotateFunction]. *)
Inductive Script :=
| SetCallTreeView (invert : bool)
| FocusFunction (functionName : string)
| FilterSamples (markerTransform : string)
| ReadCallTree (topN : Z) (detailed : bool)
| ReadMarkerSummary
| ReadFlamegraph (maxDepth : option Z)
| ReadPageLoad
| ReadNetwork
| FindFunction (functionName : string)
| Extraction (id : nat).

Inductive Reply :=
| Done
| DebugInfo (error : option string)
| CallTreeJson (totalNodes : Z) (topNodes : list CallTreeData.CallTreeNode)
| MarkerJson (summaries : list MarkerSummary.t)
| FlameJson (roots : list Flamegraph.FlameNode)
| PageLoadJson (result : PageLoad.PageLoadSummary)
| NetworkJson (result : Network.NetworkResourceSummary)
| FoundNode (funcName : string) (selfTime totalTime : Z)
| SearchError (error : string)
| Raw (value : Z).

Definition quote : string := String (ascii_of_nat 34) EmptyString.

Definition notInTable (functionName : string) : string :=
  ("Function " ++ quote ++ functionName ++ quote ++ " not found in function table")%string.

Definition notInCallTree (functionName : string) : string :=
  ("Function " ++ quote ++ functionName ++ quote ++ " not found in call tree")%string.

Definition noCallTree : string := "No call tree data available".

(** [nodeData && nodeData.funcName === functionName] *)
Definition isFunction (functionName : string) (rootNode : CallTree.CallNode) : bool :=
  match CallTree.getNodeData rootNode with
  | Some nd =>
      match CallTree.funcName nd with
      | Some f => String.eqb f functionName
      | None => false
      end
  | None => false
  end.

(** The search script of [annotateFunction] (lines 1029-1058). *)
Definition findFunction (functionName : string) (ct : CallTree.t) : Reply :=
  match CallTree.getRoots ct with
  | [] => SearchError noCallTree
  | rootNodes =>
      match List.find (isFunction functionName) rootNodes with
      | Some rootNode =>
          match CallTree.getNodeData rootNode with
          | Some nd =>
              FoundNode (default EmptyString (CallTree.funcName nd))
                        (Js.orZero (CallTree.self nd)) (Js.orZero (CallTree.total nd))
          | None => SearchError (notInCallTree functionName)
          end
      | None => SearchError (notInCallTree functionName)
      end
  end.

(** What a script returns when evaluated in a given state of the page. *)
Definition evaluateIn (st : AppState) (s : Script) : Reply :=
  match s with
  | SetCallTreeView _ => Done
  | FocusFunction functionName =>
      DebugInfo (if existsb (String.eqb functionName) (funcTable st)
                 then None else Some (notInTable functionName))
  | FilterSamples _ => Done
  | ReadCallTree topN detailed =>
      CallTreeJson
        (Z.of_nat (length (omap (CallTreeData.rootEntry detailed)
                             (CallTree.getRoots (callTree st)))))
        (CallTreeData.getCallTreeData (callTree st) topN detailed)
  | ReadMarkerSummary =>
      MarkerJson (MarkerSummary.getMarkerSummary (stringTable st) (filteredMarkers st))
  | ReadFlamegraph maxDepth =>
      FlameJson (Flamegraph.getFlamegraphData (callTree st) maxDepth)
  | ReadPageLoad =>
      PageLoadJson (PageLoad.getPageLoadSummary (stringTable st) (filteredMarkers st))
  | ReadNetwork =>
      NetworkJson (Network.getNetworkResources (stringTable st) (filteredMarkers st))
  | FindFunction functionName => findFunction functionName (callTree st)
  | Extraction id => Raw (raw st id)
  end.

(** The calls an operation makes on the page; [Sleep] is the awaited
    [setTimeout]. A timeout of [None] is no timeout. *)
Inductive PageCall :=
| NewPage
| SetDefaultTimeout (ms : Z)
| Goto (url : string) (timeout : option Z)
| WaitForFunction (c : Condition) (timeout : option Z)
| Evaluate (s : Script)
| Sleep (ms : Z)
| Close.

(** Console output. *)
Inductive Line :=
| Log (text : string)
| LogWarning (error : string)
| LogCollected (totalNodes : Z)
| LogTimes (selfTime totalTime : Z)
| ConsoleError (text : string).

(** An operation: a tree of calls, each continued with the call's reply. *)
Inductive Prog (R : Type) : Type :=
| Ret (r : R)
| Throw (message : string)
| Do (c : PageCall) (k : Reply -> Prog R)
| Say (line : Line) (k : Prog R).

Arguments Ret {R} r.
Arguments Throw {R} message.
Arguments Do {R} c k.
Arguments Say {R} line k.

Fixpoint bind {A B : Type} (p : Prog A) (f : A -> Prog B) : Prog B :=
  match p with
  | Ret a => f a
  | Throw m => Throw m
  | Do c k => Do c (fun r => bind (k r) f)
  | Say l k => Say l (bind k f)
  end.

Definition call (c : PageCall) : Prog Reply := Do c Ret.
Definition say (l : Line) : Prog unit := Say l (Ret tt).
Definition when (b : bool) (p : Prog unit) : Prog unit := if b then p else Ret tt.

#[global] Instance prog_ret : MRet Prog := @Ret.
#[global] Instance prog_bind : MBind Prog := fun A B f p => bind p f.


Definition isNone {A : Type} (x : option A) : bool :=
  match x with
  | None => true
  | Some _ => false
  end.

(** *** The six operations *)

(** The focus-function step shared in shape by [getCallTreeData] and
    [getFlamegraphData] ([if (functionName !== null) { ... }]). *)
Definition focusOn (functionName : option string) : Prog unit :=
  match functionName with
  | Some fn =>
      debugInfo ← call (Evaluate (FocusFunction fn));
      match debugInfo with
      | DebugInfo (Some error) => say (LogWarning error)
      | _ => mret tt
      end;;
      call (Sleep 5000);;
      mret tt
  | None => mret tt
  end.

(** [if (markerTransform !== null) { ... }], with the operation's pause. *)
Definition filterBy (markerTransform : option string) (pause : Z) : Prog unit :=
  match markerTransform with
  | Some mt =>
      call (Evaluate (FilterSamples mt));;
      call (Sleep pause);;
      mret tt
  | None => mret tt
  end.

Definition getCallTreeData (url : string) (topN : Z) (detailed : bool)
    (functionName markerTransform : option string)
  : Prog (list CallTreeData.CallTreeNode) :=
  call NewPage;;
  call (SetDefaultTimeout 0);;
  call (Goto url None);;
  call (WaitForFunction ViewDataLoaded None);;
  call (WaitForFunction SymbolicationDone None);;
  call (Evaluate (SetCallTreeView true));;
  call (Sleep 500);;
  focusOn functionName;;
  filterBy markerTransform 2000;;
  when (isNone functionName && isNone markerTransform) (call (Sleep 500);; mret tt);;
  jsonString ← call (Evaluate (ReadCallTree topN detailed));
  call Close;;
  match jsonString with
  | CallTreeJson totalNodes topNodes =>
      when (0 <? totalNodes) (say (LogCollected totalNodes));;
      mret topNodes
  | _ => Throw "Did not get back a string"
  end.

Definition getMarkerSummary (url : string) : Prog (list MarkerSummary.t) :=
  call NewPage;;
  call (SetDefaultTimeout 0);;
  call (Goto url None);;
  call (WaitForFunction ViewDataLoaded None);;
  call (WaitForFunction SymbolicationDone None);;
  jsonString ← call (Evaluate ReadMarkerSummary);
  call Close;;
  match jsonString with
  | MarkerJson summaries => mret summaries
  | _ => Throw "Did not get back a string"
  end.

Definition getFlamegraphData (url : string) (maxDepth : option Z)
    (functionName markerTransform : option string)
  : Prog (list Flamegraph.FlameNode) :=
  call NewPage;;
  call (SetDefaultTimeout 0);;
  call (Goto url None);;
  call (WaitForFunction ViewDataLoaded None);;
  call (WaitForFunction SymbolicationDone None);;
  call (Evaluate (SetCallTreeView false));;
  call (Sleep 500);;
  focusOn functionName;;
  filterBy markerTransform 5000;;
  when (isNone functionName && isNone markerTransform) (call (Sleep 500);; mret tt);;
  jsonString ← call (Evaluate (ReadFlamegraph maxDepth));
  call Close;;
  match jsonString with
  | FlameJson roots => mret roots
  | _ => Throw "Did not get back a string"
  end.

Definition getPageLoadSummary (url : string) : Prog PageLoad.PageLoadSummary :=
  call NewPage;;
  call (SetDefaultTimeout 0);;
  call (Goto url None);;
  call (WaitForFunction ViewDataLoaded None);;
  call (WaitForFunction SymbolicationDone None);;
  jsonString ← call (Evaluate ReadPageLoad);
  call Close;;
  match jsonString with
  | PageLoadJson result => mret result
  | _ => Throw "Did not get back a string"
  end.

Definition getNetworkResources (url : string) : Prog Network.NetworkResourceSummary :=
  call NewPage;;
  call (SetDefaultTimeout 0);;
  call (Goto url None);;
  call (WaitForFunction ViewDataLoaded None);;
  call (WaitForFunction SymbolicationDone None);;
  jsonString ← call (Evaluate ReadNetwork);
  call Close;;
  match jsonString with
  | NetworkJson result => mret result
  | _ => Throw "Did not get back a string"
  end.

Inductive Mode := asm | src | all.

Definition modeName (mode : Mode) : string :=
  match mode with
  | asm => "asm"
  | src => "src"
  | all => "all"
  end.

Section Annotate.

(** What [annotateFunction] does once the function is found (from line 1077
    on): it reads the native symbols, extracts assembly and source as the
    mode asks, and closes the page. It is left open here: the two properties
    proved of [annotateFunction] hold whatever calls it makes. *)
Variable extraction : string -> Mode -> Prog unit.

Definition annotateFunction (url : string) (functionName : string) (mode : Mode)
  : Prog unit :=
  call NewPage;;
  call (SetDefaultTimeout 0);;
  say (Log "Loading profile...");;
  call (Goto url (Some 120000));;
  say (Log "Waiting for profile data...");;
  call (WaitForFunction ViewDataLoaded (Some 300000));;
  say (Log "Waiting for symbolication...");;
  call (WaitForFunction SymbolicationDone (Some 120000));;
  call (Evaluate (SetCallTreeView true));;
  call (Sleep 500);;
  say (Log ("Searching for function: " ++ functionName)%string);;
  result ← call (Evaluate (FindFunction functionName));
  match result with
  | SearchError error =>
      say (ConsoleError error);;
      call Close;;
      mret tt
  | FoundNode funcName selfTime totalTime =>
      say (Log ("Found function: " ++ funcName)%string);;
      say (LogTimes selfTime totalTime);;
      say (Log ("Mode: " ++ modeName mode)%string);;
      extraction functionName mode
  | _ => Throw "unexpected result"
  end.

End Annotate.

(** *** Running an operation against a page *)

(** A page as the operation sees it: the states of the application at the
    successive instants at which the operation looks at it, the state it
    stays in afterwards, and how many looks fit in a timeout. *)
Record Page := {
  timeline : list AppState;
  finally : AppState;
  polls : Z -> nat
}.

Definition stateAt (page : Page) (t : nat) : AppState :=
  nth t (timeline page) (finally page).

(** [waitForFunction] looks at the page until the condition holds. *)
Fixpoint pollFor (page : Page) (c : Condition) (now : nat) (looks : nat) : option nat :=
  match looks with
  | O => None
  | S looks' =>
      if holds c (stateAt page now) then Some now
      else pollFor page c (S now) looks'
  end.

(** Without a timeout the wait goes on; once the page has reached its final
    state nothing more can change. *)
Definition looksFor (page : Page) (now : nat) (timeout : option Z) : nat :=
  match timeout with
  | Some ms => polls page ms
  | None => S (length (timeline page) - now)
  end.

Inductive Event :=
| PageEvent (t : nat) (c : PageCall)
| ConsoleEvent (line : Line).

Inductive Outcome (R : Type) : Type :=
| Returned (r : R)
| Threw (message : string)
| Blocked.

Arguments Returned {R} r.
Arguments Threw {R} message.
Arguments Blocked {R}.

Fixpoint run {R : Type} (p : Prog R) (page : Page) (now : nat) : list Event * Outcome R :=
  match p with
  | Ret r => ([], Returned r)
  | Throw m => ([], Threw m)
  | Say l k =>
      let '(events, out) := run k page now in
      (ConsoleEvent l :: events, out)
  | Do c k =>
      match c with
      | WaitForFunction cond timeout =>
          match pollFor page cond now (looksFor page now timeout) with
          | Some t =>
              let '(events, out) := run (k Done) page (S t) in
              (PageEvent t c :: events, out)
          | None =>
              ([], match timeout with
                   | Some _ => Threw "TimeoutError"
                   | None => Blocked
                   end)
          end
      | Evaluate s =>
          let '(events, out) := run (k (evaluateIn (stateAt page now) s)) page (S now) in
          (PageEvent now c :: events, out)
      | _ =>
          let '(events, out) := run (k Done) page (S now) in
          (PageEvent now c :: events, out)
      end
  end.

Definition trace {R : Type} (p : Prog R) (page : Page) : list Event :=
  fst (run p page 0).

(** *** Readiness *)

(** Every script is evaluated after an instant at which the view phase was
    DATA_LOADED and after one at which the symbolication status was DONE. *)
Definition readyBefore (page : Page) (events : list Event) : Prop :=
  forall t s, In (PageEvent t (Evaluate s)) events ->
    (exists t1, (t1 < t)%nat /\ holds ViewDataLoaded (stateAt page t1) = true) /\
    (exists t2, (t2 < t)%nat /\ holds SymbolicationDone (stateAt page t2) = true).

(** A page on which a readiness condition, once true, stays true. *)
Definition steady (page : Page) : Prop :=
  forall c t t', (t <= t')%nat ->
    holds c (stateAt page t) = true -> holds c (stateAt page t') = true.

(** Both conditions hold at the very instant of every evaluation. *)
Definition readyAt (page : Page) (events : list Event) : Prop :=
  forall t s, In (PageEvent t (Evaluate s)) events ->
    holds ViewDataLoaded (stateAt page t) = true /\
    holds SymbolicationDone (stateAt page t) = true.

(** The same, read off the text of the operation: [gated a b p] says that
    no [Evaluate] of [p] comes before a wait for each condition not yet
    awaited ([a]: the view phase was awaited, [b]: the symbolication). *)
Fixpoint gated {R : Type} (a b : bool) (p : Prog R) : Prop :=
  match p with
  | Ret _ => True
  | Throw _ => True
  | Say _ k => gated a b k
  | Do c k =>
      match c with
      | Evaluate _ => a = true /\ b = true /\ forall r, gated a b (k r)
      | WaitForFunction ViewDataLoaded _ => forall r, gated true b (k r)
      | WaitForFunction SymbolicationDone _ => forall r, gated a true (k r)
      | _ => forall r, gated a b (k r)
      end
  end.

Definition blank : AppState :=
  {| selectors := false; viewPhase := "INITIALIZING"; symbolicationStatus := "SYMBOLICATING";
     funcTable := []; callTree := {| CallTree.getRoots := [] |};
     filteredMarkers := []; stringTable := Markers.exampleTable; raw := fun _ => 0 |}.

Definition loaded (symbolication : string) (ct : CallTree.t) : AppState :=
  {| selectors := true; viewPhase := "DATA_LOADED"; symbolicationStatus := symbolication;
     funcTable := ["main"; "malloc"; "memcpy"; "parse"]; callTree := ct;
     filteredMarkers := MarkerSummary.exampleMarkers;
     stringTable := Markers.exampleTable; raw := fun _ => 0 |}.

Definition examplePage : Page :=
  {| timeline := [ blank; blank; blank; blank;
                   loaded "SYMBOLICATING" {| CallTree.getRoots := [] |};
                   loaded "SYMBOLICATING" {| CallTree.getRoots := [] |} ];
     finally := loaded "DONE" CallTreeData.exampleTree;
     polls := fun ms => Z.to_nat (ms / 1000) |}.

(** A page that is ready but whose call tree has no roots. *)
Definition emptyPage : Page :=
  {| timeline := [];
     finally := loaded "DONE" {| CallTree.getRoots := [] |};
     polls := fun ms => Z.to_nat (ms / 1000) |}.


Example evaluation_first_is_not_gated :
  ~ gated false false (call (Evaluate ReadNetwork)).
Proof. simpl. by intros (H & _). Qed.

Example evaluation_after_one_wait_is_not_gated :
  ~ gated false false
      (call (WaitForFunction ViewDataLoaded None);; call (Evaluate ReadNetwork)).
Proof. simpl. intros H. by destruct (H Done) as (_ & ? & _). Qed.

Inductive Operation :=
| CallTreeOp (url : string) (topN : Z) (detailed : bool)
    (functionName markerTransform : option string)
| MarkerSummaryOp (url : string)
| FlamegraphOp (url : string) (maxDepth : option Z)
    (functionName markerTransform : option string)
| PageLoadOp (url : string)
| NetworkOp (url : string)
| AnnotateOp (extraction : string -> Mode -> Prog unit)
    (url : string) (functionName : string) (mode : Mode).

Definition eventsOf (op : Operation) (page : Page) : list Event :=
  match op with
  | CallTreeOp url topN detailed functionName markerTransform =>
      trace (getCallTreeData url topN detailed functionName markerTransform) page
  | MarkerSummaryOp url => trace (getMarkerSummary url) page
  | FlamegraphOp url maxDepth functionName markerTransform =>
      trace (getFlamegraphData url maxDepth functionName markerTransform) page
  | PageLoadOp url => trace (getPageLoadSummary url) page
  | NetworkOp url => trace (getNetworkResources url) page
  | AnnotateOp extraction url functionName mode =>
      trace (annotateFunction extraction url functionName mode) page
  end.

Lemma pollFor_Some page c looks : forall now t,
  pollFor page c now looks = Some t ->
  (now <= t)%nat /\ holds c (stateAt page t) = true.
Proof.
  induction looks as [|looks IH]; intros now t H; [done|].
  simpl in H. destruct (holds c (stateAt page now)) eqn:E.
  - injection H as <-. split; [lia|done].
  - destruct (IH _ _ H) as [Hle Hc]. split; [lia|done].
Qed.

Lemma gated_any {R : Type} (p : Prog R) : gated true true p.
Proof.
  induction p as [r|m|c k IH|l k IH]; simpl; try done.
  destruct c as [| | |[] ?| | |]; done.
Qed.

Lemma gated_sound {R : Type} (p : Prog R) : forall page now a b,
  gated a b p ->
  (a = true -> exists t1, (t1 < now)%nat /\ holds ViewDataLoaded (stateAt page t1) = true) ->
  (b = true -> exists t2, (t2 < now)%nat /\ holds SymbolicationDone (stateAt page t2) = true) ->
  readyBefore page (fst (run p page now)).
Proof.
  induction p as [r|m|c k IH|l k IH]; intros page now a b Hg Ha Hb.
  - by intros t s [].
  - by intros t s [].
  - assert (Hnext : forall r a' b',
              gated a' b' (k r) ->
              (a' = true -> exists t1, (t1 < S now)%nat /\
                                       holds ViewDataLoaded (stateAt page t1) = true) ->
              (b' = true -> exists t2, (t2 < S now)%nat /\
                                       holds SymbolicationDone (stateAt page t2) = true) ->
              forall c', (forall s, c' <> Evaluate s) ->
              readyBefore page (PageEvent now c' :: fst (run (k r) page (S now)))).
    { intros r a' b' Hg' Ha' Hb' c' Hc' t s [Heq|Hin].
      - injection Heq as _ Heq. by destruct (Hc' s).
      - exact (IH r page (S now) a' b' Hg' Ha' Hb' t s Hin). }
    assert (Hlater : forall x, (exists t1, (t1 < now)%nat /\ x t1) ->
                               exists t1, (t1 < S now)%nat /\ x t1).
    { intros x (t1 & Hlt & Hx). exists t1. split; [lia|done]. }
    destruct c as [| | |cond timeout|s| |]; simpl in Hg; simpl run.
    + destruct (run (k Done) page (S now)) as [ev out] eqn:E.
      replace ev with (fst (run (k Done) page (S now))) by (by rewrite E).
      eapply Hnext; eauto.
    + destruct (run (k Done) page (S now)) as [ev out] eqn:E.
      replace ev with (fst (run (k Done) page (S now))) by (by rewrite E).
      eapply Hnext; eauto.
    + destruct (run (k Done) page (S now)) as [ev out] eqn:E.
      replace ev with (fst (run (k Done) page (S now))) by (by rewrite E).
      eapply Hnext; eauto.
    + destruct (pollFor page cond now (looksFor page now timeout)) as [t0|] eqn:Ep;
        [|by intros t s []].
      apply pollFor_Some in Ep. destruct Ep as [Hle Hc].
      destruct (run (k Done) page (S t0)) as [ev out] eqn:E.
      intros t s [Heq|Hin]; [done|].
      replace ev with (fst (run (k Done) page (S t0))) in Hin by (by rewrite E).
      destruct cond.
      * refine (IH Done page (S t0) true b (Hg Done) _ _ t s Hin).
        -- intros _. exists t0. split; [lia|done].
        -- intros Hb'. destruct (Hb Hb') as (t2 & Hlt & H2).
           exists t2. split; [lia|done].
      * refine (IH Done page (S t0) a true (Hg Done) _ _ t s Hin).
        -- intros Ha'. destruct (Ha Ha') as (t1 & Hlt & H1).
           exists t1. split; [lia|done].
        -- intros _. exists t0. split; [lia|done].
    + destruct Hg as (-> & -> & Hg).
      destruct (run (k (evaluateIn (stateAt page now) s)) page (S now)) as [ev out] eqn:E.
      intros t s' [Heq|Hin].
      * injection Heq as <- _. split; [by apply Ha|by apply Hb].
      * replace ev with (fst (run (k (evaluateIn (stateAt page now) s)) page (S now)))
          in Hin by (by rewrite E).
        refine (IH _ page (S now) true true (Hg _) _ _ t s' Hin).
        -- intros _. apply Hlater. by apply Ha.
        -- intros _. apply Hlater. by apply Hb.
    + destruct (run (k Done) page (S now)) as [ev out] eqn:E.
      replace ev with (fst (run (k Done) page (S now))) by (by rewrite E).
      eapply Hnext; eauto.
    + destruct (run (k Done) page (S now)) as [ev out] eqn:E.
      replace ev with (fst (run (k Done) page (S now))) by (by rewrite E).
      eapply Hnext; eauto.
  - simpl in Hg. simpl run.
    destruct (run k page now) as [ev out] eqn:E.
    intros t s [Heq|Hin]; [done|].
    replace ev with (fst (run k page now)) in Hin by (by rewrite E).
    exact (IH page now a b Hg Ha Hb t s Hin).
Qed.

Lemma readyBefore_steady page events :
  steady page -> readyBefore page events -> readyAt page events.
Proof.
  intros Hst Hrb t s Hin.
  destruct (Hrb t s Hin) as [(t1 & Hlt1 & H1) (t2 & Hlt2 & H2)].
  split.
  - apply (Hst ViewDataLoaded t1 t); [lia|done].
  - apply (Hst SymbolicationDone t2 t); [lia|done].
Qed.


(** The opening of every operation: calls that are no evaluation, then the
    two waits. After them anything is gated. *)
Ltac through_the_waits :=
  repeat first
    [ apply gated_any
    | reflexivity
    | lazymatch goal with |- _ /\ _ => split end
    | intros ?
    | progress cbn [gated bind mbind prog_bind call say] ].

Lemma gated_operation (op : Operation) :
  match op with
  | CallTreeOp url topN detailed fn mt =>
      gated false false (getCallTreeData url topN detailed fn mt)
  | MarkerSummaryOp url => gated false false (getMarkerSummary url)
  | FlamegraphOp url maxDepth fn mt =>
      gated false false (getFlamegraphData url maxDepth fn mt)
  | PageLoadOp url => gated false false (getPageLoadSummary url)
  | NetworkOp url => gated false false (getNetworkResources url)
  | AnnotateOp extraction url fn mode =>
      gated false false (annotateFunction extraction url fn mode)
  end.
Proof.
  destruct op.
  - unfold getCallTreeData. through_the_waits.
  - unfold getMarkerSummary. through_the_waits.
  - unfold getFlamegraphData. through_the_waits.
  - unfold getPageLoadSummary. through_the_waits.
  - unfold getNetworkResources. through_the_waits.
  - unfold annotateFunction. through_the_waits.
Qed.

(** C6: in each of the six operations, on every page, a script is evaluated
    (a dispatch of a user-interface action or a data extraction) only after
    an instant at which the view phase was DATA_LOADED (with the selectors
    defined) and after an instant at which the symbolication status was
    DONE; on a page where these conditions persist, both hold at the
    instant of every evaluation. *)
Theorem evaluations_wait_for_readiness (op : Operation) (page : Page) :
  readyBefore page (eventsOf op page) /\
  (steady page -> readyAt page (eventsOf op page)).
Proof.
  assert (H : readyBefore page (eventsOf op page)).
  { pose proof (gated_operation op) as Hg.
    destruct op; unfold eventsOf, trace;
      (eapply gated_sound; [exact Hg|done|done]). }
  split; [exact H|].
  intros Hst. by apply readyBefore_steady.
Qed.

Lemma emptyPage_steady : steady emptyPage.
Proof.
  intros c t t' _ H. unfold stateAt, emptyPage in *. simpl in *.
  by destruct t, t'.
Qed.

Lemma evaluations_wait_for_readiness_witness :
  In (PageEvent 5 (Evaluate (ReadNetwork))) (eventsOf (NetworkOp "u") emptyPage) /\
  steady emptyPage /\
  holds SymbolicationDone (stateAt emptyPage 5) = true.
Proof.
  assert (Hin : In (PageEvent 5 (Evaluate (ReadNetwork)))
                   (eventsOf (NetworkOp "u") emptyPage)).
  { vm_compute. tauto. }
  split; [exact Hin|]. split; [exact emptyPage_steady|].
  destruct (evaluations_wait_for_readiness (NetworkOp "u") emptyPage) as [_ Hat].
  exact (proj2 (Hat emptyPage_steady 5%nat ReadNetwork Hin)).
Defined.



(** *** [annotateFunction] when the function is not a root of the call tree *)

Lemma find_isFunction_None functionName (roots : list CallTree.CallNode) :
  (forall r nd, In r roots -> CallTree.getNodeData r = Some nd ->
                CallTree.funcName nd <> Some functionName) ->
  List.find (isFunction functionName) roots = None.
Proof.
  intros H. induction roots as [|r roots IH]; [done|].
  simpl. destruct (isFunction functionName r) eqn:E.
  - exfalso. unfold isFunction in E.
    destruct (CallTree.getNodeData r) as [nd|] eqn:Ed; [|done].
    destruct (CallTree.funcName nd) as [f|] eqn:Ef; [|done].
    apply String.eqb_eq in E. subst f.
    by apply (H r nd (or_introl eq_refl) Ed).
  - apply IH. intros r' nd Hin. apply H. by right.
Qed.

(** The error the search reports when no root matches. *)
Definition searchFailure (functionName : string) (ct : CallTree.t) : string :=
  match CallTree.getRoots ct with
  | [] => noCallTree
  | _ => notInCallTree functionName
  end.

(** C7 (as amended): for every mode, once the page is ready, when no root of
    the inverted call tree has node data whose funcName equals functionName,
    annotateFunction writes one error to the console, closes the page and
    returns; the calls it has made are the opening ones and the search only,
    whatever the extraction would do. The error is that the function was not
    found in the call tree when the tree has roots, and that no call tree
    data is available when it has none. *)
Theorem annotateFunction_not_found
    (extraction : string -> Mode -> Prog unit) (url functionName : string)
    (mode : Mode) (page : Page) (t1 t2 : nat) :
  pollFor page ViewDataLoaded 3 (polls page 300000) = Some t1 ->
  pollFor page SymbolicationDone (S t1) (polls page 120000) = Some t2 ->
  let ct := callTree (stateAt page (S (S (S t2)))) in
  (forall r nd, In r (CallTree.getRoots ct) -> CallTree.getNodeData r = Some nd ->
                CallTree.funcName nd <> Some functionName) ->
  run (annotateFunction extraction url functionName mode) page 0 =
  ([ PageEvent 0 NewPage;
     PageEvent 1 (SetDefaultTimeout 0);
     ConsoleEvent (Log "Loading profile...");
     PageEvent 2 (Goto url (Some 120000));
     ConsoleEvent (Log "Waiting for profile data...");
     PageEvent t1 (WaitForFunction ViewDataLoaded (Some 300000));
     ConsoleEvent (Log "Waiting for symbolication...");
     PageEvent t2 (WaitForFunction SymbolicationDone (Some 120000));
     PageEvent (S t2) (Evaluate (SetCallTreeView true));
     PageEvent (S (S t2)) (Sleep 500);
     ConsoleEvent (Log ("Searching for function: " ++ functionName)%string);
     PageEvent (S (S (S t2))) (Evaluate (FindFunction functionName));
     ConsoleEvent (ConsoleError (searchFailure functionName ct));
     PageEvent (S (S (S (S t2)))) Close ],
   Returned tt).
Proof.
  intros H1 H2 ct Hno.
  apply find_isFunction_None in Hno.
  unfold annotateFunction.
  cbn [run bind mbind prog_bind call say looksFor].
  rewrite H1.
  cbn [run bind mbind prog_bind call say looksFor].
  rewrite H2.
  cbn [run bind mbind prog_bind call say looksFor evaluateIn].
  fold ct. unfold findFunction, searchFailure.
  destruct (CallTree.getRoots ct) as [|r rs] eqn:Er.
  - reflexivity.
  - rewrite Hno. reflexivity.
Qed.

Lemma annotateFunction_not_found_witness :
  pollFor examplePage ViewDataLoaded 3 (polls examplePage 300000) = Some 4%nat /\
  pollFor examplePage SymbolicationDone 5 (polls examplePage 120000) = Some 6%nat /\
  snd (run (annotateFunction (fun _ _ => Throw "extraction") "u" "free" all)
           examplePage 0) = Returned tt.
Proof.
  split; [reflexivity|]. split; [reflexivity|].
  rewrite (annotateFunction_not_found (fun _ _ => Throw "extraction") "u" "free" all
             examplePage 4 6 eq_refl eq_refl).
  - reflexivity.
  - intros r nd Hin Hd.
    simpl in Hin.
    repeat (destruct Hin as [<-|Hin];
            [first [discriminate Hd | injection Hd as <-; simpl; discriminate]|]).
    destruct Hin.
Defined.

(** C7 as stated fails on a call tree without roots: no root matches the
    name, yet the error reported is not that the function was not found. *)
Lemma annotateFunction_empty_tree :
  (forall r nd, In r (CallTree.getRoots (callTree (stateAt emptyPage 7))) ->
                CallTree.getNodeData r = Some nd ->
                CallTree.funcName nd <> Some "malloc") /\
  ~ In (ConsoleEvent (ConsoleError (notInCallTree "malloc")))
       (trace (annotateFunction (fun _ _ => Ret tt) "u" "malloc" asm) emptyPage).
Proof.
  split; [intros r nd []|].
  vm_compute. intuition discriminate.
Qed.

End Session.

(** ** The command line ([src/index.ts]) *)

Module Cli.

(** An entry of [argv._]: yargs yields a string or a number. *)
Inductive Positional :=
| Text (s : string)
| Number (n : Z).

(** The parsed options. An option without default may be undefined. *)
Record Argv := {
  positional : list Positional;
  ai : option bool;
  calltree : option Z;
  focusFunction : option string;
  focusMarker : option string;
  topMarkers : option Z;
  detailed : bool;
  maxPaths : Z;
  flamegraph : option Z;
  pageLoad : bool;
  network : bool
}.

Definition truthy (p : option Positional) : bool :=
  match p with
  | Some (Text s) => negb (String.eqb s EmptyString)
  | Some (Number n) => negb (n =? 0)
  | None => false
  end.

(** [process.argv.includes(flag)] *)
Definition includes (processArgv : list string) (flag : string) : bool :=
  existsb (String.eqb flag) processArgv.

(** The test on [argv.focusMarker] (line 284). *)
Definition focusMarkerMisparsed (argv : Argv) : bool :=
  match focusMarker argv with
  | Some s => String.eqb s EmptyString
  | None =>
      (1 <? Z.of_nat (length (positional argv))) &&
      match nth_error (positional argv) 1 with
      | Some (Text s) => Js.startsWith s "-"
      | _ => false
      end
  end.

(** [[argv.calltree, hasTopMarkersFlag, hasFlamegraphFlag, argv.pageLoad,
      argv.network].filter(x => x !== undefined && x !== false).length] *)
Definition optionCount (processArgv : list string) (argv : Argv) : Z :=
  Z.of_nat (length (List.filter (fun x : bool => x)
    [ negb (Session.isNone (calltree argv));
      includes processArgv "--top-markers";
      includes processArgv "--flamegraph";
      pageLoad argv;
      network argv ])).

Inductive Analysis := TopMarkers | Flamegraph | Calltree | PageLoad | Network | Nothing.

(** How the program starts: it exits with a status after some lines on the
    console, or launches the browser for one analysis. *)
Inductive Startup :=
| Exit (status : Z) (lines : list string)
| Launch (analysis : Analysis).

Definition aiGuide : string := "# profiler-cli: AI Usage Guide ...".

Definition startup (processArgv : list string) (argv : Argv) : Startup :=
  if default false (ai argv) then Exit 0 [aiGuide]
  else if negb (truthy (nth_error (positional argv) 0)) then
    Exit 1 ["Please provide a profile URL"]
  else if focusMarkerMisparsed argv then
    Exit 1 ["Error: When using --focus-marker with a value starting with '-', use the equals sign syntax:";
            ("  --focus-marker=" ++ Session.quote ++ "-async,-sync" ++ Session.quote)%string;
            String (ascii_of_nat 10) "Instead of:";
            ("  --focus-marker " ++ Session.quote ++ "-async,-sync" ++ Session.quote)%string]
  else
    let hasTopMarkersFlag := includes processArgv "--top-markers" in
    let hasFlamegraphFlag := includes processArgv "--flamegraph" in
    if negb (Js.truthyNum (calltree argv)) && negb hasTopMarkersFlag
       && negb hasFlamegraphFlag && negb (pageLoad argv) && negb (network argv) then
      Exit 1 ["Please specify one of: --calltree <N>, --flamegraph, --top-markers [N], --page-load, or --network";
              "Note: --focus-function can be used with --calltree or --flamegraph to filter results"]
    else if 1 <? optionCount processArgv argv then
      Exit 1 ["Please specify only one of: --calltree, --flamegraph, --top-markers, --page-load, or --network"]
    else
      Launch (if hasTopMarkersFlag then TopMarkers
              else if hasFlamegraphFlag then Flamegraph
              else if Js.truthyNum (calltree argv) then Calltree
              else if pageLoad argv then PageLoad
              else if network argv then Network
              else Nothing).

(** The options yargs yields for a command line without options. *)
Definition bare (args : list Positional) : Argv :=
  {| positional := args; ai := None; calltree := None; focusFunction := None;
     focusMarker := None; topMarkers := None; detailed := false; maxPaths := 5;
     flamegraph := None; pageLoad := false; network := false |}.




Example single_mode_launches :
  startup ["node"; "profiler-cli"; "https://share.firefox.dev/abc"; "--network"]
          {| positional := [Text "https://share.firefox.dev/abc"]; ai := None;
             calltree := None; focusFunction := None; focusMarker := None;
             topMarkers := None; detailed := false; maxPaths := 5;
             flamegraph := None; pageLoad := false; network := true |}
  = Launch Network.
Proof. reflexivity. Qed.

Example no_url_exits :
  startup ["node"; "profiler-cli"] (bare []) = Exit 1 ["Please provide a profile URL"].
Proof. reflexivity. Qed.





(** *** The detailed call paths of [--calltree --detailed] *)

(** The lines written for the call paths of one function. The percentage of
    a path line is computed from the two numbers the line carries. *)
Inductive PathOutput :=
| Blank
| PathLine (number : nat) (samples : Z) (ofSelfTime : Z)
| FrameLine (frame : string)
| RemainingLine (remainingPaths : nat) (samplesRemaining : Z).

(** [(a, b) => b.samples - a.samples] *)
Definition bySamplesDesc (a b : CallTreeData.CallPath) : Z :=
  CallTreeData.samples b - CallTreeData.samples a.

(** The loop over [pathsToShow], from the index [j] on. *)
Fixpoint printPaths (selfTime : Z) (j : nat) (pathsToShow : list CallTreeData.CallPath)
  : list PathOutput :=
  match pathsToShow with
  | [] => []
  | path :: rest =>
      PathLine (j + 1) (CallTreeData.samples path) selfTime
      :: map FrameLine (rev (CallTreeData.stack path))
      ++ [Blank]
      ++ printPaths selfTime (S j) rest
  end.

(** [sortedPaths.slice(k).reduce((sum, p) => sum + p.samples, 0)] *)
Definition samplesOf (paths : list CallTreeData.CallPath) : Z :=
  fold_left (fun sum p => sum + CallTreeData.samples p) paths 0.

(** The body of [if (argv.detailed && node.callPaths) { ... }]. *)
Definition printCallPaths (argv : Argv) (node : CallTreeData.CallTreeNode)
  : list PathOutput :=
  match CallTreeData.callPaths node with
  | Some callPaths =>
      if detailed argv then
        let sortedPaths := Js.sort bySamplesDesc callPaths in
        let pathsToShow := Js.slice0 (maxPaths argv) sortedPaths in
        let remainingPaths := (length sortedPaths - length pathsToShow)%nat in
        [Blank]
        ++ printPaths (CallTreeData.selfTime node) 0 pathsToShow
        ++ (if (0 <? remainingPaths)%nat
            then [RemainingLine remainingPaths
                    (samplesOf (Js.sliceFrom (length pathsToShow) sortedPaths))]
            else [])
      else []
  | None => []
  end.

(** *** Reading the output back *)





(** The sum of the samples of a list of paths. *)
Definition totalSamples (paths : list CallTreeData.CallPath) : Z :=
  fold_right Z.add 0 (map CallTreeData.samples paths).

Definition exampleDetailed (limit : Z) : Argv :=
  {| positional := [Text "https://share.firefox.dev/abc"]; ai := None;
     calltree := Some 1; focusFunction := None; focusMarker := None;
     topMarkers := None; detailed := true; maxPaths := limit; flamegraph := None;
     pageLoad := false; network := false |}.

Definition exampleMalloc : CallTreeData.CallTreeNode :=
  {| CallTreeData.name := "malloc";
     CallTreeData.selfTime := 9;
     CallTreeData.totalTime := 12;
     CallTreeData.nodeStack := ["malloc"];
     CallTreeData.callPaths :=
       Some [ {| CallTreeData.stack := ["malloc"; "parse"; "main"];
                 CallTreeData.samples := 5 |};
              {| CallTreeData.stack := ["malloc"; "main"];
                 CallTreeData.samples := 4 |} ] |}.

Example paths_of_example :
  printCallPaths (exampleDetailed 1) exampleMalloc =
  [ Blank; PathLine 1 5 9; FrameLine "main"; FrameLine "parse"; FrameLine "malloc";
    Blank; RemainingLine 1 4 ].
Proof. reflexivity. Qed.














End Cli.

(** ** What the start of the program never does *)

Module Launching.
Import Cli.

(** The test of the branch taken after the launch, for each analysis. *)
Definition selected (processArgv : list string) (argv : Argv) (a : Analysis) : Prop :=
  match a with
  | TopMarkers => includes processArgv "--top-markers" = true
  | Flamegraph => includes processArgv "--flamegraph" = true
  | Calltree => Js.truthyNum (calltree argv) = true
  | PageLoad => pageLoad argv = true
  | Network => network argv = true
  | Nothing => False
  end.

(** The browser is launched only with a truthy first positional argument,
    without --ai, with exactly one analysis mode counted, and for an analysis
    whose own test holds: never with nothing to do. *)
Theorem launch_is_for_one_analysis (processArgv : list string) (argv : Argv) (a : Analysis) :
  startup processArgv argv = Launch a ->
  default false (ai argv) = false /\
  truthy (nth_error (positional argv) 0) = true /\
  focusMarkerMisparsed argv = false /\
  optionCount processArgv argv = 1 /\
  selected processArgv argv a.
Proof.
  unfold startup, selected, optionCount.
  destruct (default false (ai argv)); [done|].
  destruct (truthy (nth_error (positional argv) 0)); [|done].
  destruct (focusMarkerMisparsed argv); [done|]. simpl.
  destruct (calltree argv) as [n|]; simpl;
    [destruct (n =? 0); simpl|];
    destruct (includes processArgv "--top-markers"),
             (includes processArgv "--flamegraph"),
             (pageLoad argv), (network argv); simpl;
    intros H; try discriminate H; injection H as <-; done.
Qed.

Lemma launch_is_for_one_analysis_witness :
  startup ["node"; "profiler-cli"; "https://share.firefox.dev/abc"; "--flamegraph"; "3"]
    {| positional := [Text "https://share.firefox.dev/abc"]; ai := None;
       calltree := None; focusFunction := None; focusMarker := None;
       topMarkers := None; detailed := false; maxPaths := 5;
       flamegraph := Some 3; pageLoad := false; network := false |}
  = Launch Flamegraph /\
  optionCount
    ["node"; "profiler-cli"; "https://share.firefox.dev/abc"; "--flamegraph"; "3"]
    {| positional := [Text "https://share.firefox.dev/abc"]; ai := None;
       calltree := None; focusFunction := None; focusMarker := None;
       topMarkers := None; detailed := false; maxPaths := 5;
       flamegraph := Some 3; pageLoad := false; network := false |} = 1.
Proof.
  split; [reflexivity|].
  eapply launch_is_for_one_analysis. reflexivity.
Defined.

(** [--calltree 0] never reaches the browser: alone it is taken for no mode
    at all, and beside another mode it is counted as a second one. *)
Theorem calltree_zero_never_launches (processArgv : list string) (argv : Argv) :
  calltree argv = Some 0 ->
  exists status lines, startup processArgv argv = Exit status lines.
Proof.
  intros Hc. unfold startup, optionCount. rewrite Hc.
  destruct (default false (ai argv)); [by eexists _, _|].
  destruct (truthy (nth_error (positional argv) 0)); [|by eexists _, _].
  destruct (focusMarkerMisparsed argv); [by eexists _, _|].
  destruct (includes processArgv "--top-markers"),
           (includes processArgv "--flamegraph"),
           (pageLoad argv), (network argv); simpl; by eexists _, _.
Qed.

Lemma calltree_zero_never_launches_witness :
  exists status lines,
    startup ["node"; "profiler-cli"; "https://share.firefox.dev/abc"; "--calltree"; "0"]
      {| positional := [Text "https://share.firefox.dev/abc"]; ai := None;
         calltree := Some 0; focusFunction := None; focusMarker := None;
         topMarkers := None; detailed := false; maxPaths := 5;
         flamegraph := None; pageLoad := false; network := false |}
    = Exit status lines.
Proof. apply calltree_zero_never_launches. reflexivity. Defined.

End Launching.

(** ** The flamegraph on the console ([printFlameTree] and its caller) *)

Module FlameOutput.
Import Flamegraph.

(** The two pieces an indentation is made of: three blanks, or a vertical
    bar and two blanks. *)
Inductive Seg := Gap | Bar.

(** The prefix of a line: none for a root, the corner for a last child, the
    tee for another child. *)
Inductive Branch := Root | Last | Mid.

(** A printed line. The percentage is computed from [samples] and
    [ofTotal]; [selfShown] is the bracketed self time, printed when it is
    positive. *)
Record FlameLine := {
  indent : list Seg;
  branch : Branch;
  lineName : string;
  samples : Z;
  ofTotal : Z;
  selfShown : option Z
}.

Fixpoint printFlameTree (node : FlameNode) (totalSamples : Z) (indent : list Seg)
    (isLast isRoot : bool) : list FlameLine :=
  match node with
  | Flame n s t kids =>
      let prefix := if isRoot then Root else if isLast then Last else Mid in
      let childIndent :=
        if isRoot then [] else indent ++ [if isLast then Gap else Bar] in
      {| indent := indent; branch := prefix; lineName := n; samples := t;
         ofTotal := totalSamples;
         selfShown := if 0 <? s then Some s else None |}
      :: (fix each (cs : list FlameNode) : list FlameLine :=
            match cs with
            | [] => []
            | c :: rest =>
                printFlameTree c totalSamples childIndent
                  (match rest with [] => true | _ => false end) false
                ++ each rest
            end) kids
  end.

Inductive Output :=
| Header (depth : option Z) (focusFunction focusMarker : option string)
| NoData
| Line (l : FlameLine)
| Blank.

(** [x || null] on the string options. *)
Definition orNull (x : option string) : option string :=
  if Js.truthyStr x then x else None.

(** [argv.flamegraph || null] *)
Definition maxDepthOf (argv : Cli.Argv) : option Z :=
  if Js.truthyNum (Cli.flamegraph argv) then Cli.flamegraph argv else None.

(** [flamegraphData.reduce((sum, root) => sum + root.totalTime, 0)] *)
Definition totalSamplesOf (roots : list FlameNode) : Z :=
  fold_left (fun sum root => sum + totalTime root) roots 0.

(** What the flamegraph branch of the program prints for the forest it got. *)
Definition printFlamegraph (argv : Cli.Argv) (flamegraphData : list FlameNode)
  : list Output :=
  Header (maxDepthOf argv) (orNull (Cli.focusFunction argv)) (orNull (Cli.focusMarker argv))
  :: match flamegraphData with
     | [] => [NoData]
     | _ =>
         let totalSamples := totalSamplesOf flamegraphData in
         flat_map (fun root =>
                     map Line (printFlameTree root totalSamples [] true true) ++ [Blank])
                  flamegraphData
     end.

(** The program's flamegraph for a call tree: the forest the page script
    returns for [argv.flamegraph || null], printed. *)
Definition flamegraphOf (argv : Cli.Argv) (ct : CallTree.t) : list Output :=
  printFlamegraph argv (getFlamegraphData ct (maxDepthOf argv)).

(** *** Reading the lines back *)

(** How deep a line is drawn: a root at 0, another node one beyond the
    pieces of its indentation. *)
Definition level (l : FlameLine) : nat :=
  match branch l with
  | Root => 0
  | _ => S (length (indent l))
  end.

Definition linesOf (out : list Output) : list FlameLine :=
  omap (fun o => match o with Line l => Some l | _ => None end) out.

(** The nodes of a tree with their depths, parents before children and
    children in order. *)
Fixpoint preorder (d : nat) (node : FlameNode) : list (nat * FlameNode) :=
  match node with
  | Flame n s t kids => (d, node) :: flat_map (preorder (S d)) kids
  end.

Definition drawn (l : FlameLine) : nat * string * Z * option Z :=
  (level l, lineName l, samples l, selfShown l).

Definition toDraw (x : nat * FlameNode) : nat * string * Z * option Z :=
  (fst x, name (snd x), totalTime (snd x),
   if 0 <? selfTime (snd x) then Some (selfTime (snd x)) else None).

Fixpoint FlameNode_forall_ind (P : FlameNode -> Prop)
    (step : forall n s t kids, Forall P kids -> P (Flame n s t kids))
    (node : FlameNode) : P node :=
  match node with
  | Flame n s t kids =>
      step n s t kids
        ((fix all (l : list FlameNode) : Forall P l :=
            match l with
            | [] => @List.Forall_nil _ P
            | k :: l' =>
                @List.Forall_cons _ P k l' (FlameNode_forall_ind P step k) (all l')
            end) kids)
  end.

Example print_example :
  map drawn (printFlameTree
               (Flame "main" 0 16 [ Flame "render" 3 10 [ Flame "memcpy" 7 7 [] ];
                                    Flame "parse" 1 5 [] ]) 18 [] true true) =
  [ (0%nat, "main", 16, None); (1%nat, "render", 10, Some 3);
    (2%nat, "memcpy", 7, Some 7); (1%nat, "parse", 5, Some 1) ].
Proof. reflexivity. Qed.

Example print_example_marks :
  map (fun l => (indent l, branch l))
      (printFlameTree
         (Flame "main" 0 16 [ Flame "render" 3 10 [ Flame "memcpy" 7 7 [] ];
                              Flame "parse" 1 5 [] ]) 18 [] true true) =
  [ ([], Root); ([], Mid); ([Bar], Last); ([], Last) ].
Proof. reflexivity. Qed.

Lemma printFlameTree_below node : forall total ind isLast,
  map drawn (printFlameTree node total ind isLast false) =
  map toDraw (preorder (S (length ind)) node).
Proof.
  induction node as [n s t kids IH] using FlameNode_forall_ind.
  intros total ind isLast. cbn [printFlameTree preorder map].
  f_equal; [by destruct isLast|].
  assert (Hlen : S (length (ind ++ [if isLast then Gap else Bar])) = S (S (length ind))).
  { rewrite length_app. simpl. lia. }
  induction IH as [|c rest Hc Hrest IHrest]; [done|].
  cbn [flat_map]. rewrite !map_app, Hc, Hlen. f_equal. exact IHrest.
Qed.

Lemma printFlameTree_root node total ind isLast :
  map drawn (printFlameTree node total ind isLast true) = map toDraw (preorder 0 node).
Proof.
  destruct node as [n s t kids]. cbn [printFlameTree preorder map].
  f_equal. induction kids as [|c rest IH]; [done|].
  cbn [flat_map]. rewrite !map_app, printFlameTree_below. simpl length.
  f_equal. exact IH.
Qed.

Lemma linesOf_tree (ls : list FlameLine) : linesOf (map Line ls ++ [Blank]) = ls.
Proof.
  unfold linesOf. rewrite omap_app. simpl. rewrite app_nil_r.
  induction ls as [|l ls IH]; [done|]. cbn [map omap list_omap]. by rewrite IH.
Qed.

Lemma linesOf_forest total (roots : list FlameNode) :
  linesOf (flat_map (fun root => map Line (printFlameTree root total [] true true) ++ [Blank])
                    roots) =
  flat_map (fun root => printFlameTree root total [] true true) roots.
Proof.
  induction roots as [|r roots IH]; [done|].
  cbn [flat_map]. unfold linesOf in *. rewrite omap_app.
  fold (linesOf (map Line (printFlameTree r total [] true true) ++ [Blank])).
  by rewrite linesOf_tree, IH.
Qed.

Lemma linesOf_printFlamegraph argv (roots : list FlameNode) :
  linesOf (printFlamegraph argv roots) =
  flat_map (fun root => printFlameTree root (totalSamplesOf roots) [] true true) roots.
Proof.
  unfold printFlamegraph. destruct roots as [|r roots]; [done|].
  change (linesOf (Header (maxDepthOf argv) (orNull (Cli.focusFunction argv))
                     (orNull (Cli.focusMarker argv)) :: ?x)) with (linesOf x).
  apply linesOf_forest.
Qed.

Lemma printFlameTree_ofTotal node : forall total ind isLast isRoot,
  Forall (fun l => ofTotal l = total) (printFlameTree node total ind isLast isRoot).
Proof.
  induction node as [n s t kids IH] using FlameNode_forall_ind.
  intros total ind isLast isRoot. cbn [printFlameTree].
  constructor; [done|].
  generalize (if isRoot then [] else ind ++ [if isLast then Gap else Bar]).
  intros ci. induction IH as [|c rest Hc Hrest IHrest]; [constructor|].
  apply List.Forall_app. split; [apply Hc|exact IHrest].
Qed.

Lemma totalSamplesOf_sum (roots : list FlameNode) :
  totalSamplesOf roots = fold_right Z.add 0 (map totalTime roots).
Proof.
  unfold totalSamplesOf.
  assert (H : forall a, fold_left (fun sum root => sum + totalTime root) roots a =
                        a + fold_right Z.add 0 (map totalTime roots)).
  { induction roots as [|r roots IH]; intros a; simpl; [lia|]. rewrite IH. lia. }
  rewrite H. lia.
Qed.

Lemma flamegraph_drawn argv ct :
  map drawn (linesOf (flamegraphOf argv ct)) =
  flat_map (fun root => map toDraw (preorder 0 root))
           (getFlamegraphData ct (maxDepthOf argv)).
Proof.
  unfold flamegraphOf. rewrite linesOf_printFlamegraph.
  generalize (totalSamplesOf (getFlamegraphData ct (maxDepthOf argv))). intros total.
  induction (getFlamegraphData ct (maxDepthOf argv)) as [|r roots IH]; [done|].
  cbn [flat_map]. by rewrite map_app, printFlameTree_root, IH.
Qed.

(** The lines of the flamegraph are the nodes of the forest the script
    returned, each tree in turn with parents before children and children in
    order: one line per node, drawn at the node's depth, with its name and
    total time, and its self time when positive; every percentage is taken
    of the sum of the roots' total times; and nothing but "no data" is
    printed for an empty forest. *)
Theorem flamegraph_lines_are_the_nodes (argv : Cli.Argv) (ct : CallTree.t) :
  let forest := getFlamegraphData ct (maxDepthOf argv) in
  let lines := linesOf (flamegraphOf argv ct) in
  map drawn lines = flat_map (fun root => map toDraw (preorder 0 root)) forest /\
  Forall (fun l => ofTotal l = fold_right Z.add 0 (map totalTime forest)) lines /\
  (forest = [] <-> In NoData (flamegraphOf argv ct)).
Proof.
  intros forest lines. subst lines.
  split; [apply flamegraph_drawn|].
  unfold flamegraphOf. fold forest.
  rewrite linesOf_printFlamegraph. split.
  - rewrite <- totalSamplesOf_sum. generalize (totalSamplesOf forest). intros total.
    induction forest as [|r roots IH]; [constructor|].
    cbn [flat_map]. apply List.Forall_app. split; [apply printFlameTree_ofTotal|exact IH].
  - unfold printFlamegraph. destruct forest as [|r roots].
    + split; [intros _; right; by left|done].
    + split; [done|]. intros [H|H]; [done|].
      apply in_flat_map in H. destruct H as (root & _ & H).
      apply in_app_or in H. destruct H as [H|[H|[]]]; [|done].
      apply in_map_iff in H. by destruct H as (? & ? & _).
Qed.






End FlameOutput.

(** ** The marker summaries on the console ([--top-markers]) *)

Module TopMarkers.
Import MarkerSummary.

Inductive Output :=
| TotalUnique (n : Z)
| TopByTotalHeader (n : Z)
| ByTotalLine (number : nat) (s : MarkerSummary.t)
| TopByMaxHeader (n : Z)
| ByMaxLine (number : nat) (s : MarkerSummary.t)
| FrequencyHeader
| ShowingTop (limit : Z)
| SummaryBlock (number : nat) (s : MarkerSummary.t).

(** [(a, b) => b.totalDuration - a.totalDuration] and
    [(a, b) => b.maxDuration - a.maxDuration] *)
Definition byTotalDurationDesc (a b : MarkerSummary.t) : Z :=
  totalDuration b - totalDuration a.

Definition byMaxDurationDesc (a b : MarkerSummary.t) : Z :=
  maxDuration b - maxDuration a.

(** A loop [for (let i = 0; ...)] printing one line for each element, the
    line of the element at [i] numbered [i + 1]. *)
Fixpoint numbered (line : nat -> MarkerSummary.t -> Output) (i : nat)
    (l : list MarkerSummary.t) : list Output :=
  match l with
  | [] => []
  | s :: rest => line (i + 1)%nat s :: numbered line (S i) rest
  end.

(** The branch [if (hasTopMarkersFlag) { ... }], given the summaries. *)
Definition printTopMarkers (argv : Cli.Argv) (allMarkerSummaries : list MarkerSummary.t)
  : list Output :=
  TotalUnique (Z.of_nat (length allMarkerSummaries))
  :: match Cli.topMarkers argv with
     | None =>
         let limit := 5 in
         let byTotalDuration :=
           Js.slice0 (Z.min limit (Z.of_nat (length allMarkerSummaries)))
                     (Js.sort byTotalDurationDesc allMarkerSummaries) in
         let byMaxDuration :=
           Js.slice0 (Z.min limit (Z.of_nat (length allMarkerSummaries)))
                     (Js.sort byMaxDurationDesc allMarkerSummaries) in
         TopByTotalHeader (Z.of_nat (length byTotalDuration))
         :: numbered ByTotalLine 0 byTotalDuration
         ++ TopByMaxHeader (Z.of_nat (length byMaxDuration))
         :: numbered ByMaxLine 0 byMaxDuration
     | Some limit =>
         let markerSummaries := Js.slice0 limit allMarkerSummaries in
         FrequencyHeader
         :: (if limit <? Z.of_nat (length allMarkerSummaries)
             then [ShowingTop limit] else [])
         ++ numbered SummaryBlock 0 markerSummaries
     end.

(** What the program prints for the markers of a page. *)
Definition topMarkersOf (argv : Cli.Argv) (stringTable : Markers.StringTable)
    (markers : list Markers.Marker) : list Output :=
  printTopMarkers argv (getMarkerSummary stringTable markers).

(** *** Reading the output back *)

Definition byTotalShown (out : list Output) : list (nat * MarkerSummary.t) :=
  omap (fun o => match o with ByTotalLine i s => Some (i, s) | _ => None end) out.

Definition byMaxShown (out : list Output) : list (nat * MarkerSummary.t) :=
  omap (fun o => match o with ByMaxLine i s => Some (i, s) | _ => None end) out.

Definition blocksShown (out : list Output) : list (nat * MarkerSummary.t) :=
  omap (fun o => match o with SummaryBlock i s => Some (i, s) | _ => None end) out.

(** [l] with its elements numbered from 1. *)
Definition fromOne (l : list MarkerSummary.t) : list (nat * MarkerSummary.t) :=
  combine (seq 1 (length l)) l.

Definition withLimit (limit : option Z) : Cli.Argv :=
  {| Cli.positional := [Cli.Text "https://share.firefox.dev/abc"]; Cli.ai := None;
     Cli.calltree := None; Cli.focusFunction := None; Cli.focusMarker := None;
     Cli.topMarkers := limit; Cli.detailed := false; Cli.maxPaths := 5;
     Cli.flamegraph := None; Cli.pageLoad := false; Cli.network := false |}.

Example default_view_of_example :
  map (fun x => (fst x, name (snd x)))
      (byTotalShown (topMarkersOf (withLimit None) Markers.exampleTable exampleMarkers)) =
  [ (1%nat, "Load"); (2%nat, "Paint"); (3%nat, "GC") ].
Proof. reflexivity. Qed.

Example frequency_view_of_example :
  map (fun o => match o with
                | SummaryBlock i s => Some (i, name s)
                | ShowingTop n => Some (0%nat, "showing")
                | _ => None
                end)
      (topMarkersOf (withLimit (Some 2)) Markers.exampleTable exampleMarkers) =
  [ None; None; Some (0%nat, "showing"); Some (1%nat, "Paint"); Some (2%nat, "Load") ].
Proof. reflexivity. Qed.

Lemma numbered_shown (line : nat -> MarkerSummary.t -> Output)
    (proj : Output -> option (nat * MarkerSummary.t)) (l : list MarkerSummary.t) :
  (forall i s, proj (line i s) = Some (i, s)) ->
  forall i, omap proj (numbered line i l) = combine (seq (S i) (length l)) l.
Proof.
  intros Hp. induction l as [|s l IH]; intros i; [done|].
  cbn [numbered omap list_omap length seq combine]. fold (@omap list _).
  rewrite Hp, IH, Nat.add_1_r. done.
Qed.

Lemma numbered_hidden (line : nat -> MarkerSummary.t -> Output)
    (proj : Output -> option (nat * MarkerSummary.t)) (l : list MarkerSummary.t) :
  (forall i s, proj (line i s) = None) ->
  forall i, omap proj (numbered line i l) = [].
Proof.
  intros Hp. induction l as [|s l IH]; intros i; [done|].
  cbn [numbered omap list_omap]. fold (@omap list _). by rewrite Hp, IH.
Qed.

Lemma byTotalDurationDesc_total a b :
  0 < byTotalDurationDesc a b -> byTotalDurationDesc b a <= 0.
Proof. unfold byTotalDurationDesc. lia. Qed.

Lemma byTotalDurationDesc_trans a b c :
  byTotalDurationDesc a b <= 0 -> byTotalDurationDesc b c <= 0 ->
  byTotalDurationDesc a c <= 0.
Proof. unfold byTotalDurationDesc. lia. Qed.

Lemma byMaxDurationDesc_total a b :
  0 < byMaxDurationDesc a b -> byMaxDurationDesc b a <= 0.
Proof. unfold byMaxDurationDesc. lia. Qed.

Lemma byMaxDurationDesc_trans a b c :
  byMaxDurationDesc a b <= 0 -> byMaxDurationDesc b c <= 0 ->
  byMaxDurationDesc a c <= 0.
Proof. unfold byMaxDurationDesc. lia. Qed.

(** The first [min(5, n)] of a sorted rearrangement. *)
Lemma top_five (cmp : MarkerSummary.t -> MarkerSummary.t -> Z)
    (all : list MarkerSummary.t) :
  (forall a b, 0 < cmp a b -> cmp b a <= 0) ->
  (forall a b c, cmp a b <= 0 -> cmp b c <= 0 -> cmp a c <= 0) ->
  let top := Js.slice0 (Z.min 5 (Z.of_nat (length all))) (Js.sort cmp all) in
  exists rest,
    Permutation (top ++ rest) all /\
    StronglySorted (fun a b => cmp a b <= 0) (top ++ rest) /\
    Z.of_nat (length top) = Z.min 5 (Z.of_nat (length all)).
Proof.
  intros Htot Htrans top.
  destruct (Js.slice0_split (Z.min 5 (Z.of_nat (length all))) (Js.sort cmp all))
    as [rest Hsplit].
  exists rest. fold top in Hsplit. rewrite <- Hsplit.
  split; [apply Js.sort_perm|]. split; [by apply Js.sort_sorted|].
  unfold top. rewrite Js.slice0_length_nonneg by lia.
  rewrite Js.sort_length. lia.
Qed.

(** Without a number after [--top-markers], the program prints two lists,
    each numbered from 1 and holding min(5, n) of the n summaries: the
    summaries of the largest total durations in descending order, and those
    of the largest maximal durations in descending order; no summary left
    out of a list exceeds one in it. *)
Theorem default_view_shows_the_top_five (argv : Cli.Argv)
    (all : list MarkerSummary.t) :
  Cli.topMarkers argv = None ->
  let out := printTopMarkers argv all in
  (exists top rest,
      byTotalShown out = fromOne top /\
      Permutation (top ++ rest) all /\
      StronglySorted (fun a b => totalDuration b <= totalDuration a) (top ++ rest) /\
      Z.of_nat (length top) = Z.min 5 (Z.of_nat (length all))) /\
  (exists top rest,
      byMaxShown out = fromOne top /\
      Permutation (top ++ rest) all /\
      StronglySorted (fun a b => maxDuration b <= maxDuration a) (top ++ rest) /\
      Z.of_nat (length top) = Z.min 5 (Z.of_nat (length all))).
Proof.
  intros Hnone out. subst out. unfold printTopMarkers. rewrite Hnone. cbn zeta.
  set (n := Z.min 5 (Z.of_nat (length all))).
  split.
  - destruct (top_five byTotalDurationDesc all byTotalDurationDesc_total
                byTotalDurationDesc_trans) as (rest & Hp & Hs & Hl).
    fold n in Hp, Hs, Hl.
    exists (Js.slice0 n (Js.sort byTotalDurationDesc all)), rest.
    split; [|split; [done|split; [|done]]].
    + unfold byTotalShown. cbn [omap list_omap]. fold (@omap list _).
      rewrite omap_app. cbn [omap list_omap]. fold (@omap list _).
      rewrite (numbered_shown ByTotalLine) by done.
      rewrite (numbered_hidden ByMaxLine) by done.
      by rewrite app_nil_r.
    + eapply Js.StronglySorted_weaken; [|exact Hs].
      intros a b. unfold byTotalDurationDesc. lia.
  - destruct (top_five byMaxDurationDesc all byMaxDurationDesc_total
                byMaxDurationDesc_trans) as (rest & Hp & Hs & Hl).
    fold n in Hp, Hs, Hl.
    exists (Js.slice0 n (Js.sort byMaxDurationDesc all)), rest.
    split; [|split; [done|split; [|done]]].
    + unfold byMaxShown. cbn [omap list_omap]. fold (@omap list _).
      rewrite omap_app. cbn [omap list_omap]. fold (@omap list _).
      rewrite (numbered_hidden ByTotalLine) by done.
      by rewrite (numbered_shown ByMaxLine).
    + eapply Js.StronglySorted_weaken; [|exact Hs].
      intros a b. unfold byMaxDurationDesc. lia.
Qed.

Lemma default_view_shows_the_top_five_witness :
  Cli.topMarkers (withLimit None) = None /\
  exists top rest,
    byTotalShown (printTopMarkers (withLimit None)
                    (getMarkerSummary Markers.exampleTable exampleMarkers)) = fromOne top /\
    Permutation (top ++ rest) (getMarkerSummary Markers.exampleTable exampleMarkers).
Proof.
  split; [reflexivity|].
  destruct (default_view_shows_the_top_five (withLimit None)
              (getMarkerSummary Markers.exampleTable exampleMarkers) eq_refl)
    as ((top & rest & H1 & H2 & _) & _).
  by exists top, rest.
Defined.

(** With [--top-markers N], N >= 0, the program prints, numbered from 1,
    the first min(N, n) of the n summaries in the order of the page script,
    so that no summary left out has a larger count than one printed; and it
    announces a cut exactly when summaries are left out. *)
Theorem frequency_view_shows_the_most_frequent (argv : Cli.Argv) (limit : Z)
    (stringTable : Markers.StringTable) (markers : list Markers.Marker) :
  Cli.topMarkers argv = Some limit ->
  0 <= limit ->
  let all := getMarkerSummary stringTable markers in
  let out := topMarkersOf argv stringTable markers in
  exists shown rest,
    all = shown ++ rest /\
    blocksShown out = fromOne shown /\
    Z.of_nat (length shown) = Z.min limit (Z.of_nat (length all)) /\
    (forall x y, In x shown -> In y rest -> count y <= count x) /\
    (In (ShowingTop limit) out <-> rest <> []).
Proof.
  intros Hlim Hpos all out. subst out. unfold topMarkersOf, printTopMarkers.
  fold all. rewrite Hlim.
  destruct (Js.slice0_split limit all) as [rest Hsplit].
  exists (Js.slice0 limit all), rest.
  assert (Hlen : Z.of_nat (length (Js.slice0 limit all)) =
                 Z.min limit (Z.of_nat (length all))).
  { by apply Js.slice0_length_nonneg. }
  assert (Hrest : (limit <? Z.of_nat (length all)) = true <-> rest <> []).
  { rewrite Z.ltb_lt.
    assert (Hl : length all = (length (Js.slice0 limit all) + length rest)%nat).
    { rewrite Hsplit at 1. by rewrite length_app. }
    destruct rest as [|r rest]; simpl in Hl; split; try done; lia. }
  split; [done|]. split; [|split; [done|split]].
  - unfold blocksShown. cbn [omap list_omap]. fold (@omap list _).
    rewrite omap_app, (numbered_shown SummaryBlock) by done.
    by destruct (limit <? Z.of_nat (length all)).
  - assert (Hs : StronglySorted (fun a b => count b <= count a) all).
    { unfold all, getMarkerSummary. eapply Js.StronglySorted_weaken;
        [|apply (Js.sort_sorted byCountDesc byCountDesc_total byCountDesc_trans)].
      intros a b. unfold Js.inOrder, byCountDesc. lia. }
    rewrite Hsplit in Hs. intros x y Hx Hy.
    exact (Js.StronglySorted_app_cross _ _ _ Hs x y Hx Hy).
  - rewrite <- Hrest. destruct (limit <? Z.of_nat (length all)) eqn:E.
    + split; [done|]. intros _. right. right. by left.
    + split; [|done]. intros [H|[H|H]]; try done.
      simpl in H. assert (Hb : In (ShowingTop limit)
                                 (numbered SummaryBlock 0 (Js.slice0 limit all))) by done.
      clear -Hb. revert Hb. generalize 0%nat.
      induction (Js.slice0 limit all) as [|s l IH]; intros i; [done|].
      intros [H|H]; [done|]. by apply (IH (S i)).
Qed.

Lemma frequency_view_shows_the_most_frequent_witness :
  Cli.topMarkers (withLimit (Some 2)) = Some 2 /\ 0 <= 2 /\
  exists shown rest,
    getMarkerSummary Markers.exampleTable exampleMarkers = shown ++ rest /\
    Z.of_nat (length shown) = 2.
Proof.
  split; [reflexivity|]. split; [lia|].
  destruct (frequency_view_shows_the_most_frequent (withLimit (Some 2)) 2
              Markers.exampleTable exampleMarkers eq_refl) as (shown & rest & H1 & _ & H3 & _).
  { lia. }
  exists shown, rest. split; [exact H1|]. rewrite H3. reflexivity.
Defined.

End TopMarkers.

(** ** More on [getNetworkResources]: phase sums and cache statistics *)

Module NetworkSums.
Import Markers Network.




















End NetworkSums.

(** ** The call paths collected for a function ([collectCallPaths]) *)

Module CallPaths.
Import CallTree CallTreeData.

(** [chain n frames s]: [frames] are the function names along a way from
    [n] down to a node without children, all of whose nodes have a function
    name, and [s] is the sample count of that last node. *)
Inductive chain : CallNode -> list string -> Z -> Prop :=
| chain_leaf d f nd :
    named d = Some (f, nd) ->
    chain (Node d []) [f] (leafSamples nd)
| chain_step d f nd kids c frames s :
    named d = Some (f, nd) ->
    In c kids ->
    chain c frames s ->
    chain (Node d kids) (f :: frames) s.

(** The call paths of a node are exactly its chains, each behind the path
    that led to the node; a node with children of which none has a function
    name has no call path at all. *)
Theorem call_paths_are_the_chains (n : CallNode) (path : list string) :
  (forall p, In p (collectCallPaths n path) <->
             exists frames s, chain n frames s /\
                              p = {| stack := path ++ frames; samples := s |}) /\
  (getChildren n <> [] ->
   Forall (fun c => named (getNodeData c) = None) (getChildren n) ->
   collectCallPaths n path = []).
Proof.
  split.
  - revert path. induction n as [d kids IH] using CallNode_forall_ind.
    intros path p. cbn [collectCallPaths].
    destruct (named d) as [[f nd]|] eqn:En.
    + destruct kids as [|k kids].
      * split.
        -- intros [<-|[]]. exists [f], (leafSamples nd). split; [by constructor|done].
        -- intros (frames & s & Hc & ->). inversion Hc as [? ? ? Hn|? ? ? ? ? ? ? Hn Hin];
             subst; [|destruct Hin].
           rewrite En in Hn. injection Hn as <- <-. by left.
      * rewrite in_flat_map. split.
        -- intros (c & Hc & Hp).
           apply (proj1 (List.Forall_forall _ _) IH c Hc) in Hp.
           destruct Hp as (frames & s & Hch & ->).
           exists (f :: frames), s. split; [by econstructor|].
           by rewrite <- app_assoc.
        -- intros (frames & s & Hch & ->).
           inversion Hch as [|? f' ? ? c frames' ? Hn Hin Hc']; subst.
           rewrite En in Hn. injection Hn as <- <-.
           exists c. split; [done|].
           apply (proj1 (List.Forall_forall _ _) IH c Hin).
           exists frames', s. split; [done|]. by rewrite <- app_assoc.
    + split; [done|].
      intros (frames & s & Hch & _). inversion Hch; subst; congruence.
  - destruct n as [d kids]. cbn [getChildren collectCallPaths].
    intros Hne Hall. destruct (named d) as [[f nd]|]; [|done].
    destruct kids as [|k kids]; [done|].
    generalize (path ++ [f]). intros newPath. clear Hne.
    induction Hall as [|c cs Hc Hcs IHcs]; [done|].
    cbn [flat_map]. rewrite IHcs, app_nil_r.
    destruct c as [dc kc]. simpl in Hc. simpl. by rewrite Hc.
Qed.

Definition lonelyParent : CallNode :=
  Node (Some {| funcName := Some "malloc"; self := Some 9; total := Some 12 |})
    [ Node None [];
      Node (Some {| funcName := None; self := Some 4; total := Some 4 |}) [] ].

Lemma call_paths_are_the_chains_witness :
  getChildren lonelyParent <> [] /\
  Forall (fun c => named (getNodeData c) = None) (getChildren lonelyParent) /\
  collectCallPaths lonelyParent [] = [].
Proof.
  assert (H1 : getChildren lonelyParent <> []) by discriminate.
  assert (H2 : Forall (fun c => named (getNodeData c) = None) (getChildren lonelyParent)).
  { repeat constructor. }
  split; [exact H1|]. split; [exact H2|].
  exact (proj2 (call_paths_are_the_chains lonelyParent []) H1 H2).
Defined.

End CallPaths.

(** ** What the operations return, and when they never return *)

Module Outcomes.
Import Session.

(** How an operation ends, whatever it returns. *)
Inductive Ending := Returns | Throws (message : string) | Hangs.

Definition endingOf {R : Type} (out : Outcome R) : Ending :=
  match out with
  | Returned _ => Returns
  | Threw m => Throws m
  | Blocked => Hangs
  end.

Definition ending (op : Operation) (page : Page) : Ending :=
  match op with
  | CallTreeOp url topN detailed functionName markerTransform =>
      endingOf (snd (run (getCallTreeData url topN detailed functionName markerTransform)
                         page 0))
  | MarkerSummaryOp url => endingOf (snd (run (getMarkerSummary url) page 0))
  | FlamegraphOp url maxDepth functionName markerTransform =>
      endingOf (snd (run (getFlamegraphData url maxDepth functionName markerTransform)
                         page 0))
  | PageLoadOp url => endingOf (snd (run (getPageLoadSummary url) page 0))
  | NetworkOp url => endingOf (snd (run (getNetworkResources url) page 0))
  | AnnotateOp extraction url functionName mode =>
      endingOf (snd (run (annotateFunction extraction url functionName mode) page 0))
  end.

(** The page calls of a trace, without their instants. *)
Definition callsOf (events : list Event) : list PageCall :=
  omap (fun e => match e with PageEvent _ c => Some c | ConsoleEvent _ => None end) events.

Definition isEvaluate (c : PageCall) : bool :=
  match c with
  | Evaluate _ => true
  | _ => false
  end.

(** A page that is ready from the start and never changes. *)
Definition still (st : AppState) : Page :=
  {| timeline := []; finally := st; polls := fun ms => Z.to_nat (ms / 1000) |}.

(** A page that never leaves its loading screen. *)
Definition stuck : Page := still blank.

Lemma pollFor_never page c :
  (forall t, holds c (stateAt page t) = false) ->
  forall looks now, pollFor page c now looks = None.
Proof.
  intros Hnever. induction looks as [|looks IH]; intros now; [done|].
  simpl. by rewrite Hnever.
Qed.

Example stuck_hangs : ending (NetworkOp "u") stuck = Hangs.
Proof. reflexivity. Qed.

Example stuck_times_out :
  ending (AnnotateOp (fun _ _ => Ret tt) "u" "malloc" asm) stuck = Throws "TimeoutError".
Proof. reflexivity. Qed.

Ltac run_to_the_wait :=
  unfold ending, eventsOf, trace;
  cbn [endingOf callsOf
       getCallTreeData getMarkerSummary getFlamegraphData getPageLoadSummary
       getNetworkResources annotateFunction
       run bind mbind prog_bind call say fst snd].

(** On a page where one of the two readiness conditions never holds, the
    five data operations never return (they wait without a timeout), and
    annotateFunction throws a timeout error; in both cases no script has
    been evaluated and the page has not been closed. *)
Theorem never_ready_never_read (op : Operation) (page : Page) (c : Condition) :
  (forall t, holds c (stateAt page t) = false) ->
  ending op page =
    match op with
    | AnnotateOp _ _ _ _ => Throws "TimeoutError"
    | _ => Hangs
    end /\
  Forall (fun pc => isEvaluate pc = false /\ pc <> Close) (callsOf (eventsOf op page)).
Proof.
  intros Hnever.
  destruct c.
  - destruct op; run_to_the_wait;
      rewrite (pollFor_never page ViewDataLoaded Hnever);
      (split; [reflexivity|]); cbn; repeat constructor; done.
  - destruct op; run_to_the_wait;
      match goal with
      | |- context [pollFor page ViewDataLoaded ?n ?l] =>
          destruct (pollFor page ViewDataLoaded n l) as [t1|]
      end;
      run_to_the_wait;
      rewrite ?(pollFor_never page SymbolicationDone Hnever);
      (split; [reflexivity|]); cbn; repeat constructor; done.
Qed.

Lemma never_ready_never_read_witness :
  (forall t, holds ViewDataLoaded (stateAt stuck t) = false) /\
  ending (PageLoadOp "u") stuck = Hangs.
Proof.
  assert (H : forall t, holds ViewDataLoaded (stateAt stuck t) = false).
  { intros t. unfold stateAt, stuck, still. simpl. by destruct t. }
  split; [exact H|].
  exact (proj1 (never_ready_never_read (PageLoadOp "u") stuck ViewDataLoaded H)).
Defined.

(** A wait without a timeout ends on a page whose final state satisfies
    the condition. *)
Lemma pollFor_finally page c :
  holds c (finally page) = true ->
  forall looks now, (length (timeline page) <= now + looks)%nat ->
  exists t, pollFor page c now (S looks) = Some t.
Proof.
  intros Hc. induction looks as [|looks IH]; intros now Hlen.
  - exists now. simpl. unfold stateAt. rewrite nth_overflow by lia. by rewrite Hc.
  - change (pollFor page c now (S (S looks)))
      with (if holds c (stateAt page now) then Some now
            else pollFor page c (S now) (S looks)).
    destruct (holds c (stateAt page now)); [by exists now|].
    apply IH. lia.
Qed.

Lemma wait_ends page c now :
  holds c (finally page) = true ->
  exists t, pollFor page c now (looksFor page now None) = Some t /\
            (now <= t)%nat /\ holds c (stateAt page t) = true.
Proof.
  intros Hc.
  destruct (pollFor_finally page c Hc (length (timeline page) - now) now) as [t Ht]; [lia|].
  exists t. split; [exact Ht|]. by apply pollFor_Some in Ht.
Qed.

Ltac pass_the_waits Hv Hs t1 t2 :=
  unfold eventsOf, trace;
  cbn [getMarkerSummary getPageLoadSummary getNetworkResources
       getCallTreeData getFlamegraphData
       run bind mbind prog_bind call say fst snd];
  match goal with
  | |- context [pollFor ?page ViewDataLoaded ?n ?l] =>
      let H := fresh in
      destruct (wait_ends page ViewDataLoaded n Hv) as (t1 & H & _ & _);
      rewrite H; clear H
  end;
  cbn [run bind mbind prog_bind call say fst snd];
  match goal with
  | |- context [pollFor ?page SymbolicationDone ?n ?l] =>
      let H := fresh in
      destruct (wait_ends page SymbolicationDone n Hs) as (t2 & H & _ & Hs2);
      rewrite H; clear H
  end.

(** The page calls of the three operations that read the markers. *)
Definition straight (url : string) (script : Script) : list PageCall :=
  [ NewPage; SetDefaultTimeout 0; Goto url None;
    WaitForFunction ViewDataLoaded None; WaitForFunction SymbolicationDone None;
    Evaluate script; Close ].

(** On a page that ends up ready (its final state has the view phase
    DATA_LOADED and the symbolication DONE), getMarkerSummary,
    getPageLoadSummary and getNetworkResources return: each returns what its
    script computes from the markers of the page at the instant right after
    the symbolication was seen done, and makes exactly seven page calls, the
    evaluation of its one script followed by the closing of the page last. *)
Theorem marker_operations_return (url : string) (page : Page) :
  holds ViewDataLoaded (finally page) = true ->
  holds SymbolicationDone (finally page) = true ->
  (exists t, holds SymbolicationDone (stateAt page t) = true /\
     snd (run (getMarkerSummary url) page 0) =
       Returned (MarkerSummary.getMarkerSummary (stringTable (stateAt page (S t)))
                   (filteredMarkers (stateAt page (S t)))) /\
     callsOf (eventsOf (MarkerSummaryOp url) page) = straight url ReadMarkerSummary) /\
  (exists t, holds SymbolicationDone (stateAt page t) = true /\
     snd (run (getPageLoadSummary url) page 0) =
       Returned (PageLoad.getPageLoadSummary (stringTable (stateAt page (S t)))
                   (filteredMarkers (stateAt page (S t)))) /\
     callsOf (eventsOf (PageLoadOp url) page) = straight url ReadPageLoad) /\
  (exists t, holds SymbolicationDone (stateAt page t) = true /\
     snd (run (getNetworkResources url) page 0) =
       Returned (Network.getNetworkResources (stringTable (stateAt page (S t)))
                   (filteredMarkers (stateAt page (S t)))) /\
     callsOf (eventsOf (NetworkOp url) page) = straight url ReadNetwork).
Proof.
  intros Hv Hs. split; [|split].
  all: pass_the_waits Hv Hs t1 t2; exists t2; (split; [exact Hs2|]);
    split; reflexivity.
Qed.

Lemma marker_operations_return_witness :
  holds ViewDataLoaded (finally examplePage) = true /\
  holds SymbolicationDone (finally examplePage) = true /\
  callsOf (eventsOf (NetworkOp "u") examplePage) = straight "u" ReadNetwork.
Proof.
  split; [reflexivity|]. split; [reflexivity|].
  destruct (marker_operations_return "u" examplePage eq_refl eq_refl)
    as (_ & _ & t & _ & _ & H).
  exact H.
Defined.

(** The milliseconds an operation spends in its own pauses. *)
Definition slept (calls : list PageCall) : Z :=
  fold_right (fun c acc => match c with Sleep ms => ms + acc | _ => acc end) 0 calls.

Definition evaluated (calls : list PageCall) : list Script :=
  omap (fun c => match c with Evaluate s => Some s | _ => None end) calls.

(** The scripts of the two call-tree operations, in the order in which they
    are evaluated: the view is set, the focus function and the marker filter
    are applied when given, and the tree is read last. *)
Definition scripts (inverted : bool) (functionName markerTransform : option string)
    (read : Script) : list Script :=
  [SetCallTreeView inverted]
  ++ match functionName with Some fn => [FocusFunction fn] | None => [] end
  ++ match markerTransform with Some mt => [FilterSamples mt] | None => [] end
  ++ [read].

Ltac run_the_options :=
  repeat (cbn [focusOn filterBy isNone andb evaluateIn mret prog_ret
               run bind mbind prog_bind call say fst snd];
          unfold when;
          try match goal with
              | |- context [if ?b then _ else _] => destruct b
              end).

(** On a page that ends up ready, getCallTreeData and getFlamegraphData
    return what their last script computes from the call tree of the page at
    the instant of its evaluation; they evaluate the view, focus and filter
    scripts before it in that order, pause for at least one second in all
    before reading, and close the page as their last call. *)
Theorem tree_operations_return (url : string) (page : Page)
    (topN : Z) (detailed : bool) (maxDepth : option Z)
    (functionName markerTransform : option string) :
  holds ViewDataLoaded (finally page) = true ->
  holds SymbolicationDone (finally page) = true ->
  (exists t,
     snd (run (getCallTreeData url topN detailed functionName markerTransform) page 0) =
       Returned (CallTreeData.getCallTreeData (callTree (stateAt page t)) topN detailed) /\
     let calls :=
       callsOf (eventsOf (CallTreeOp url topN detailed functionName markerTransform) page) in
     In (PageEvent t (Evaluate (ReadCallTree topN detailed)))
        (eventsOf (CallTreeOp url topN detailed functionName markerTransform) page) /\
     evaluated calls =
       scripts true functionName markerTransform (ReadCallTree topN detailed) /\
     1000 <= slept calls /\
     last calls = Some Close) /\
  (exists t,
     snd (run (getFlamegraphData url maxDepth functionName markerTransform) page 0) =
       Returned (Flamegraph.getFlamegraphData (callTree (stateAt page t)) maxDepth) /\
     let calls :=
       callsOf (eventsOf (FlamegraphOp url maxDepth functionName markerTransform) page) in
     In (PageEvent t (Evaluate (ReadFlamegraph maxDepth)))
        (eventsOf (FlamegraphOp url maxDepth functionName markerTransform) page) /\
     evaluated calls =
       scripts false functionName markerTransform (ReadFlamegraph maxDepth) /\
     1000 <= slept calls /\
     last calls = Some Close).
Proof.
  intros Hv Hs. split.
  all: destruct functionName as [fn|], markerTransform as [mt|];
    pass_the_waits Hv Hs t1 t2; run_the_options;
    eexists; (split; [reflexivity|]);
    cbn; (split; [tauto|]); (split; [reflexivity|]); (split; [lia|reflexivity]).
Qed.

Lemma tree_operations_return_witness :
  holds ViewDataLoaded (finally examplePage) = true /\
  holds SymbolicationDone (finally examplePage) = true /\
  exists t,
    snd (run (getFlamegraphData "u" (Some 2) (Some "malloc") None) examplePage 0) =
      Returned (Flamegraph.getFlamegraphData (callTree (stateAt examplePage t)) (Some 2)).
Proof.
  split; [reflexivity|]. split; [reflexivity|].
  destruct (tree_operations_return "u" examplePage 5 false (Some 2) (Some "malloc") None
              eq_refl eq_refl) as (_ & t & H & _).
  exists t. exact H.
Defined.

End Outcomes.

(** ** Merging the ranges of the functions with samples
    (annotateFunction, lines 2142-2155) *)

Module Ranges.

(** [{start, end}]: the first and last line of a function. *)
Record Range := { start : Z; end_ : Z }.

(** [(a, b) => a.start - b.start] *)
Definition byStart (a b : Range) : Z := start a - start b.

(** One turn of the loop over the sorted ranges: the range is pushed, or the
    end of the last merged range is moved. The range moved is an element of
    [ranges] that the loop has passed already, and [ranges] is not read
    after the loop. *)
Definition mergeInto (mergedRanges : list Range) (range : Range) : list Range :=
  match last mergedRanges with
  | None => mergedRanges ++ [range]
  | Some lastRange =>
      if end_ lastRange <? start range then mergedRanges ++ [range]
      else removelast mergedRanges
           ++ [{| start := start lastRange;
                  end_ := Z.max (end_ lastRange) (end_ range) |}]
  end.

Definition mergeRanges (ranges : list Range) : list Range :=
  fold_left mergeInto (Js.sort byStart ranges) [].

(** [l.lineNumber >= r.start && l.lineNumber <= r.end] *)
Definition within (lineNumber : Z) (r : Range) : bool :=
  (start r <=? lineNumber) && (lineNumber <=? end_ r).

(** [ranges.some(r => ...)] *)
Definition covered (ranges : list Range) (lineNumber : Z) : bool :=
  existsb (within lineNumber) ranges.

Record SourceLine := { lineNumber : Z; text : string }.

(** [lines.filter(l => mergedRanges.some(...))] *)
Definition relevantLines (ranges : list Range) (lines : list SourceLine) : list SourceLine :=
  List.filter (fun l => covered (mergeRanges ranges) (lineNumber l)) lines.

Definition wellFormed (r : Range) : Prop := start r <= end_ r.

(** The end of a merged range is before the start of every later one. *)
Definition apart (a b : Range) : Prop := end_ a < start b.

Definition exampleRanges : list Range :=
  [ {| start := 10; end_ := 20 |}; {| start := 1; end_ := 4 |};
    {| start := 15; end_ := 30 |}; {| start := 12; end_ := 14 |} ].

Example merge_example :
  mergeRanges exampleRanges = [ {| start := 1; end_ := 4 |}; {| start := 10; end_ := 30 |} ].
Proof. reflexivity. Qed.

Lemma byStart_total a b : 0 < byStart a b -> byStart b a <= 0.
Proof. unfold byStart. lia. Qed.

Lemma byStart_trans a b c : byStart a b <= 0 -> byStart b c <= 0 -> byStart a c <= 0.
Proof. unfold byStart. lia. Qed.

Lemma mergeInto_snoc merged lastRange range :
  mergeInto (merged ++ [lastRange]) range =
    if end_ lastRange <? start range then merged ++ [lastRange; range]
    else merged ++ [{| start := start lastRange;
                       end_ := Z.max (end_ lastRange) (end_ range) |}].
Proof.
  unfold mergeInto. rewrite last_snoc, removelast_last.
  destruct (end_ lastRange <? start range); [|done].
  by rewrite <- app_assoc.
Qed.

Lemma covered_app rs1 rs2 n : covered (rs1 ++ rs2) n = covered rs1 n || covered rs2 n.
Proof. apply existsb_app. Qed.

Lemma covered_Permutation rs1 rs2 n :
  Permutation rs1 rs2 -> covered rs1 n = covered rs2 n.
Proof.
  unfold covered.
  induction 1 as [|x l l' _ IH|x y l|l l' l'' _ IH1 _ IH2]; simpl.
  - done.
  - by rewrite IH.
  - destruct (within n x), (within n y); done.
  - by rewrite IH1.
Qed.

(** A turn of the loop keeps what is covered, when no merged range starts
    after the new one. *)
Lemma mergeInto_covered merged range n :
  Forall (fun m => start m <= start range) merged ->
  covered (mergeInto merged range) n = covered merged n || within n range.
Proof.
  destruct merged as [|lastRange merged _] using rev_ind; intros Hst.
  - simpl. by rewrite orb_false_r.
  - rewrite mergeInto_snoc.
    apply List.Forall_app in Hst. destruct Hst as [_ Hl].
    inversion Hl as [|? ? Hle _]; subst.
    destruct (end_ lastRange <? start range) eqn:E.
    + change [lastRange; range] with ([lastRange] ++ [range]).
      rewrite app_assoc, covered_app. simpl. by rewrite orb_false_r.
    + apply Z.ltb_ge in E.
      rewrite !covered_app. simpl. rewrite !orb_false_r, <- orb_assoc. f_equal.
      unfold within. simpl. lia.
Qed.

Lemma mergeInto_starts merged range x :
  Forall (fun m => start m <= start range) merged -> start range <= x ->
  Forall (fun m => start m <= x) (mergeInto merged range).
Proof.
  intros Hst Hx.
  assert (Hall : Forall (fun m => start m <= x) merged).
  { eapply List.Forall_impl; [|exact Hst]. simpl. intros. lia. }
  destruct merged as [|lastRange merged _] using rev_ind.
  - by repeat constructor.
  - rewrite mergeInto_snoc.
    apply List.Forall_app in Hall. destruct Hall as [Hm Hl].
    inversion Hl as [|? ? Hle _]; subst.
    destruct (end_ lastRange <? start range).
    + apply List.Forall_app. split; [done|]. by repeat constructor.
    + apply List.Forall_app. split; [done|]. by repeat constructor.
Qed.

Lemma merge_loop_covered n : forall rest merged,
  StronglySorted (Js.inOrder byStart) rest ->
  Forall (fun r => Forall (fun m => start m <= start r) merged) rest ->
  covered (fold_left mergeInto rest merged) n = covered merged n || covered rest n.
Proof.
  induction rest as [|r rest IH]; intros merged Hs Hm; simpl.
  - by rewrite orb_false_r.
  - inversion Hs as [|? ? Hs' Hr]; subst.
    inversion Hm as [|? ? Hm1 Hm2]; subst.
    rewrite IH; [|done|].
    + rewrite mergeInto_covered by done. by rewrite orb_assoc.
    + apply List.Forall_forall. intros r' Hr'.
      apply mergeInto_starts; [done|].
      apply (proj1 (List.Forall_forall _ _) Hr) in Hr'.
      unfold Js.inOrder, byStart in Hr'. lia.
Qed.

Lemma mergeRanges_covered ranges n :
  covered (mergeRanges ranges) n = covered ranges n.
Proof.
  unfold mergeRanges. rewrite merge_loop_covered.
  - simpl. apply covered_Permutation, Js.sort_perm.
  - apply Js.sort_sorted; [apply byStart_total|apply byStart_trans].
  - apply List.Forall_forall. intros; constructor.
Qed.

(** Merging changes nothing in what is shown: the lines kept are exactly
    those that lie in the range of some function, in the order of the file. *)
Theorem merging_keeps_the_lines_of_the_ranges
    (ranges : list Range) (lines : list SourceLine) :
  relevantLines ranges lines =
    List.filter (fun l => existsb (fun r => (start r <=? lineNumber l)
                                          && (lineNumber l <=? end_ r)) ranges) lines.
Proof.
  unfold relevantLines. apply filter_ext. intros l.
  apply mergeRanges_covered.
Qed.

Lemma mergeInto_apart merged range :
  StronglySorted apart merged -> Forall wellFormed merged -> wellFormed range ->
  StronglySorted apart (mergeInto merged range) /\
  Forall wellFormed (mergeInto merged range).
Proof.
  intros Hs Hw Hr.
  destruct merged as [|lastRange merged _] using rev_ind.
  - split; by repeat constructor.
  - rewrite mergeInto_snoc.
    assert (Hcross := Js.StronglySorted_app_cross _ _ _ Hs).
    assert (Hm := Js.StronglySorted_app_l _ _ _ Hs).
    apply List.Forall_app in Hw. destruct Hw as [Hwm Hwl].
    inversion Hwl as [|? ? Hwlast _]; subst.
    assert (Hsnoc : forall x, wellFormed x ->
              (forall m, In m merged -> apart m x) ->
              StronglySorted apart (merged ++ [x])).
    { intros x Hx Hall. clear Hcross Hs Hwm.
      induction merged as [|m merged IH]; simpl; [by repeat constructor|].
      inversion Hm as [|? ? Hm' Hma]; subst.
      constructor.
      - apply IH; [done|]. intros m' Hm''. apply Hall. by right.
      - apply List.Forall_app. split; [done|].
        constructor; [|constructor]. apply Hall. by left. }
    destruct (end_ lastRange <? start range) eqn:E.
    + apply Z.ltb_lt in E. split.
      * change [lastRange; range] with ([lastRange] ++ [range]).
        rewrite app_assoc. clear Hsnoc.
        assert (Hlast : forall m, In m (merged ++ [lastRange]) -> apart m range).
        { intros m Hin. apply in_app_or in Hin. destruct Hin as [Hin|[<-|[]]].
          - assert (apart m lastRange) by (apply Hcross; [done|by left]).
            unfold apart, wellFormed in *. lia.
          - done. }
        revert Hs Hlast. generalize (merged ++ [lastRange]). intros l Hs Hlast.
        induction l as [|m l IH]; simpl; [by repeat constructor|].
        inversion Hs as [|? ? Hs' Hma]; subst.
        constructor.
        -- apply IH; [done|]. intros m' Hm'. apply Hlast. by right.
        -- apply List.Forall_app. split; [done|].
           constructor; [|constructor]. apply Hlast. by left.
      * apply List.Forall_app. split; [done|]. by repeat constructor.
    + split.
      * apply Hsnoc.
        -- unfold wellFormed in *. simpl. lia.
        -- intros m Hin. unfold apart. simpl.
           apply (Hcross m lastRange); [done|by left].
      * apply List.Forall_app. split; [done|].
        constructor; [|constructor]. unfold wellFormed in *. simpl. lia.
Qed.

Lemma merge_loop_apart : forall rest merged,
  StronglySorted apart merged -> Forall wellFormed merged -> Forall wellFormed rest ->
  StronglySorted apart (fold_left mergeInto rest merged) /\
  Forall wellFormed (fold_left mergeInto rest merged).
Proof.
  induction rest as [|r rest IH]; intros merged Hs Hw Hr; simpl; [done|].
  inversion Hr as [|? ? Hr1 Hr2]; subst.
  destruct (mergeInto_apart merged r Hs Hw Hr1) as [Hs' Hw'].
  by apply IH.
Qed.

(** When every range ends no earlier than it starts, the merged ranges are
    such ranges too, they come in increasing order and no two of them touch:
    each ends before the next one starts, so that no line lies in two of
    them. *)
Theorem merged_ranges_are_apart (ranges : list Range) :
  Forall wellFormed ranges ->
  StronglySorted apart (mergeRanges ranges) /\
  Forall wellFormed (mergeRanges ranges) /\
  forall a b n, In a (mergeRanges ranges) -> In b (mergeRanges ranges) ->
    within n a = true -> within n b = true -> a = b.
Proof.
  intros Hw.
  assert (Hw' : Forall wellFormed (Js.sort byStart ranges)).
  { apply List.Forall_forall. intros r Hr. apply (proj1 (Js.sort_In _ _ _)) in Hr.
    by apply (proj1 (List.Forall_forall _ _) Hw). }
  destruct (merge_loop_apart (Js.sort byStart ranges) [] (SSorted_nil _)
              (@List.Forall_nil _ _) Hw') as [Hs Hwm].
  fold (mergeRanges ranges) in Hs, Hwm.
  split; [done|]. split; [done|].
  intros a b n Ha Hb Hna Hnb.
  revert Hs Hwm Ha Hb. generalize (mergeRanges ranges). intros l Hs Hwm.
  induction Hs as [|x l Hs IH Hx]; simpl; [done|].
  unfold within in Hna, Hnb.
  inversion Hwm as [|? ? Hwx Hwl]; subst.
  intros [<-|Ha] [<-|Hb]; [done| | |by apply IH].
  - apply (proj1 (List.Forall_forall _ _) Hx) in Hb. unfold apart in Hb. lia.
  - apply (proj1 (List.Forall_forall _ _) Hx) in Ha. unfold apart in Ha. lia.
Qed.

Lemma merged_ranges_are_apart_witness :
  Forall wellFormed exampleRanges /\
  StronglySorted apart (mergeRanges exampleRanges).
Proof.
  assert (H : Forall wellFormed exampleRanges).
  { repeat constructor; unfold wellFormed; simpl; lia. }
  split; [exact H|].
  exact (proj1 (merged_ranges_are_apart exampleRanges H)).
Defined.

End Ranges.

(** ** Source lines interleaved with assembly
    (annotateFunction, lines 1613-1667, and again 1839-1900 and 2220-2282) *)

Module Interleave.

Module Src.
Record t := { lineNumber : Z; selfSamples : Z; totalSamples : Z; text : string }.
End Src.

Module Asm.
Record t := {
  address : Z;
  sourceLineNumber : option Z;
  selfSamples : Z;
  totalSamples : Z;
  instruction : string
}.
End Asm.

(** What is printed: an empty line, the row of a source line, or the row of
    an instruction. *)
Inductive Output :=
| Blank
| SourceRow (line : Src.t)
| InstructionRow (inst : Asm.t).

Record Vars := {
  lastSourceLineShown : Z;
  justShowedSource : bool;
  printed : list Output
}.

(** One turn of [for (const line of relevantLines)] inside the loop over the
    instructions: [lastSourceLineShown] moves while the lines are visited. *)
Definition showUpTo (upTo : Z) (st : Z * list Output) (line : Src.t) : Z * list Output :=
  let '(lastSourceLineShown, out) := st in
  if (lastSourceLineShown <? Src.lineNumber line) && (Src.lineNumber line <=? upTo)
  then (Src.lineNumber line, out ++ [SourceRow line])
  else st.

(** One turn of the loop over the instructions. *)
Definition visit (relevantLines : list Src.t) (v : Vars) (inst : Asm.t)
    (nextInst : option Asm.t) : Vars :=
  let v1 :=
    match Asm.sourceLineNumber inst with
    | Some n =>
        let hasSourceToShow :=
          existsb (fun l => (lastSourceLineShown v <? Src.lineNumber l)
                            && (Src.lineNumber l <=? n)) relevantLines in
        if hasSourceToShow then
          let out :=
            if negb (justShowedSource v) && (0 <? lastSourceLineShown v)
            then printed v ++ [Blank] else printed v in
          let '(shown, out) :=
            fold_left (showUpTo n) relevantLines (lastSourceLineShown v, out) in
          let nextWillShowSource :=
            match nextInst with
            | Some next =>
                match Asm.sourceLineNumber next with
                | Some m => shown <? m
                | None => false
                end
            | None => false
            end in
          {| lastSourceLineShown := shown; justShowedSource := true;
             printed := if nextWillShowSource then out else out ++ [Blank] |}
        else v
    | None =>
        {| lastSourceLineShown := lastSourceLineShown v; justShowedSource := false;
           printed := printed v |}
    end in
  {| lastSourceLineShown := lastSourceLineShown v1;
     justShowedSource := justShowedSource v1;
     printed := printed v1 ++ [InstructionRow inst] |}.

(** [for (let i = 0; i < instructions.length; i++)], with
    [nextInst = instructions[i + 1]] or null. *)
Fixpoint loop (relevantLines : list Src.t) (instructions : list Asm.t) (v : Vars) : Vars :=
  match instructions with
  | [] => v
  | inst :: rest => loop relevantLines rest (visit relevantLines v inst (head rest))
  end.

(** From [let lastSourceLineShown = 0] to the last empty line. *)
Definition interleave (relevantLines : list Src.t) (instructions : list Asm.t)
  : list Output :=
  let v := loop relevantLines instructions
             {| lastSourceLineShown := 0; justShowedSource := false; printed := [] |} in
  let hasRemainingSource :=
    existsb (fun l => lastSourceLineShown v <? Src.lineNumber l) relevantLines in
  (if hasRemainingSource
   then printed v ++ [Blank]
        ++ map SourceRow
             (List.filter (fun l => lastSourceLineShown v <? Src.lineNumber l) relevantLines)
   else printed v)
  ++ [Blank].

Definition instructionRows (out : list Output) : list Asm.t :=
  omap (fun o => match o with InstructionRow i => Some i | _ => None end) out.

Definition sourceRows (out : list Output) : list Src.t :=
  omap (fun o => match o with SourceRow l => Some l | _ => None end) out.

Definition ascending (a b : Src.t) : Prop := Src.lineNumber a < Src.lineNumber b.

Definition numbered (l : Src.t) : Prop := 0 < Src.lineNumber l.

Definition line (n : Z) (text : string) : Src.t :=
  {| Src.lineNumber := n; Src.selfSamples := 0; Src.totalSamples := 1; Src.text := text |}.

Definition inst (address : Z) (n : option Z) (text : string) : Asm.t :=
  {| Asm.address := address; Asm.sourceLineNumber := n; Asm.selfSamples := 1;
     Asm.totalSamples := 1; Asm.instruction := text |}.

Definition exampleLines : list Src.t :=
  [line 1 "function f(a) {"; line 2 "  var b = a + 1;"; line 3 "  return b;"; line 4 "}"].

Definition exampleInstructions : list Asm.t :=
  [inst 0 (Some 2) "mov"; inst 4 (Some 2) "add"; inst 8 None "nop"; inst 12 (Some 3) "ret"].

Example interleave_example :
  interleave exampleLines exampleInstructions =
    [ SourceRow (line 1 "function f(a) {"); SourceRow (line 2 "  var b = a + 1;"); Blank;
      InstructionRow (inst 0 (Some 2) "mov"); InstructionRow (inst 4 (Some 2) "add");
      InstructionRow (inst 8 None "nop");
      Blank; SourceRow (line 3 "  return b;"); Blank;
      InstructionRow (inst 12 (Some 3) "ret");
      Blank; SourceRow (line 4 "}"); Blank ].
Proof. reflexivity. Qed.

(** Lines out of order are lost: line 3 is passed over once line 5 is shown. *)
Example interleave_out_of_order :
  sourceRows (interleave [line 5 "e"; line 3 "c"] [inst 0 (Some 6) "mov"]) = [line 5 "e"].
Proof. reflexivity. Qed.

Lemma instructionRows_app out1 out2 :
  instructionRows (out1 ++ out2) = instructionRows out1 ++ instructionRows out2.
Proof. apply omap_app. Qed.

Lemma sourceRows_app out1 out2 :
  sourceRows (out1 ++ out2) = sourceRows out1 ++ sourceRows out2.
Proof. apply omap_app. Qed.

Lemma instructionRows_sources ls : instructionRows (map SourceRow ls) = [].
Proof. induction ls as [|l ls IH]; [done|exact IH]. Qed.

Lemma sourceRows_sources ls : sourceRows (map SourceRow ls) = ls.
Proof. induction ls as [|l ls IH]; [done|]. simpl. by rewrite <- IH at 2. Qed.

Lemma showUpTo_instructions upTo : forall ls st,
  instructionRows (snd (fold_left (showUpTo upTo) ls st)) = instructionRows (snd st).
Proof.
  induction ls as [|l ls IH]; intros [shown out]; [done|].
  simpl. rewrite IH.
  destruct ((shown <? Src.lineNumber l) && (Src.lineNumber l <=? upTo)); [|done].
  simpl. rewrite instructionRows_app. simpl. by rewrite app_nil_r.
Qed.

Lemma visit_instructions relevantLines v i next :
  instructionRows (printed (visit relevantLines v i next)) =
    instructionRows (printed v) ++ [i].
Proof.
  unfold visit. cbn [printed]. rewrite instructionRows_app. f_equal.
  destruct (Asm.sourceLineNumber i) as [n|]; [|done].
  destruct (existsb _ relevantLines); [|done].
  match goal with
  | |- context [fold_left (showUpTo n) relevantLines ?st] =>
      pose proof (showUpTo_instructions n relevantLines st) as H;
      destruct (fold_left (showUpTo n) relevantLines st) as [shown out]
  end.
  cbn [printed snd] in *.
  assert (Hout : instructionRows out = instructionRows (printed v)).
  { rewrite H.
    destruct (negb (justShowedSource v) && (0 <? lastSourceLineShown v)); [|done].
    rewrite instructionRows_app. simpl. by rewrite app_nil_r. }
  match goal with |- context [if ?b then _ else _] => destruct b end; [done|].
  rewrite instructionRows_app. simpl. by rewrite app_nil_r.
Qed.

Lemma loop_instructions relevantLines : forall instructions v,
  instructionRows (printed (loop relevantLines instructions v)) =
    instructionRows (printed v) ++ instructions.
Proof.
  induction instructions as [|i rest IH]; intros v; simpl.
  - by rewrite app_nil_r.
  - rewrite IH, visit_instructions, <- app_assoc. done.
Qed.

(** Every instruction is printed once, in the order of the instructions,
    whatever the source lines are. *)
Theorem every_instruction_is_printed
    (relevantLines : list Src.t) (instructions : list Asm.t) :
  instructionRows (interleave relevantLines instructions) = instructions.
Proof.
  unfold interleave. rewrite instructionRows_app.
  change (instructionRows [Blank]) with (@nil Asm.t). rewrite app_nil_r.
  destruct (existsb _ relevantLines).
  - rewrite !instructionRows_app, instructionRows_sources, loop_instructions.
    change (instructionRows [Blank]) with (@nil Asm.t).
    by rewrite !app_nil_r.
  - by rewrite loop_instructions.
Qed.

(** What has been shown so far is a first part of the lines: the lines up
    to [lastSourceLineShown]. *)
Definition shownSoFar (relevantLines : list Src.t) (shown : Z) (out : list Output) : Prop :=
  exists rest,
    relevantLines = sourceRows out ++ rest /\
    Forall (fun l => Src.lineNumber l <= shown) (sourceRows out) /\
    Forall (fun l => shown < Src.lineNumber l) rest.

Lemma showUpTo_passed upTo shown out : forall ls,
  Forall (fun l => Src.lineNumber l <= shown) ls ->
  fold_left (showUpTo upTo) ls (shown, out) = (shown, out).
Proof.
  induction ls as [|l ls IH]; intros H; [done|].
  inversion H as [|? ? Hl Hls]; subst. simpl.
  replace (shown <? Src.lineNumber l) with false by (symmetry; apply Z.ltb_ge; lia).
  by apply IH.
Qed.

Lemma showUpTo_beyond upTo shown out : forall ls,
  Forall (fun l => upTo < Src.lineNumber l) ls ->
  fold_left (showUpTo upTo) ls (shown, out) = (shown, out).
Proof.
  induction ls as [|l ls IH]; intros H; [done|].
  inversion H as [|? ? Hl Hls]; subst. simpl.
  replace (Src.lineNumber l <=? upTo) with false by (symmetry; apply Z.leb_gt; lia).
  rewrite andb_false_r. by apply IH.
Qed.

Lemma showUpTo_ahead upTo : forall ls shown out,
  StronglySorted ascending ls ->
  Forall (fun l => shown < Src.lineNumber l) ls ->
  exists shown' ls1 ls2,
    fold_left (showUpTo upTo) ls (shown, out) = (shown', out ++ map SourceRow ls1) /\
    ls = ls1 ++ ls2 /\ shown <= shown' /\
    Forall (fun l => Src.lineNumber l <= shown') ls1 /\
    Forall (fun l => shown' < Src.lineNumber l) ls2.
Proof.
  induction ls as [|l ls IH]; intros shown out Hs Ha.
  - exists shown, [], []. simpl. rewrite app_nil_r. repeat split; (done || lia).
  - inversion Hs as [|? ? Hs' Hl]; subst.
    inversion Ha as [|? ? Hal Hals]; subst.
    simpl.
    replace (shown <? Src.lineNumber l) with true by (symmetry; apply Z.ltb_lt; lia).
    simpl. destruct (Src.lineNumber l <=? upTo) eqn:E.
    + destruct (IH (Src.lineNumber l) (out ++ [SourceRow l]) Hs' Hl)
        as (shown' & ls1 & ls2 & Hf & -> & Hle & H1 & H2).
      exists shown', (l :: ls1), ls2. rewrite Hf, <- app_assoc.
      repeat split; try done; try lia.
      constructor; [lia|done].
    + apply Z.leb_gt in E.
      exists shown, [], (l :: ls).
      rewrite showUpTo_beyond.
      * rewrite app_nil_r. repeat split; try done; try lia.
      * eapply List.Forall_impl; [|exact Hl]. unfold ascending. simpl. intros. lia.
Qed.

Lemma showUpTo_shown relevantLines upTo shown out :
  StronglySorted ascending relevantLines ->
  shownSoFar relevantLines shown out ->
  exists shown' out',
    fold_left (showUpTo upTo) relevantLines (shown, out) = (shown', out') /\
    shown <= shown' /\
    shownSoFar relevantLines shown' out'.
Proof.
  intros Hs (rest & Heq & Hpast & Hrest).
  assert (Hsr : StronglySorted ascending rest).
  { clear Hpast Hrest. revert Hs. rewrite Heq at 1.
    generalize (sourceRows out). intros l. induction l as [|x l IH]; simpl; [done|].
    intros H. inversion H; subst. by apply IH. }
  assert (Hfold : fold_left (showUpTo upTo) relevantLines (shown, out) =
                    fold_left (showUpTo upTo) rest (shown, out)).
  { rewrite Heq, fold_left_app. by rewrite showUpTo_passed. }
  destruct (showUpTo_ahead upTo rest shown out Hsr Hrest)
    as (shown' & ls1 & ls2 & Hf & -> & Hle & H1 & H2).
  exists shown', (out ++ map SourceRow ls1).
  split; [by rewrite Hfold|]. split; [done|].
  exists ls2. rewrite sourceRows_app, sourceRows_sources.
  split; [by rewrite <- app_assoc|]. split; [|done].
  apply List.Forall_app. split; [|done].
  eapply List.Forall_impl; [|exact Hpast]. simpl. intros. lia.
Qed.

Lemma shownSoFar_blank relevantLines shown out :
  shownSoFar relevantLines shown out -> shownSoFar relevantLines shown (out ++ [Blank]).
Proof.
  unfold shownSoFar. rewrite sourceRows_app. simpl. by rewrite app_nil_r.
Qed.

Lemma visit_shown relevantLines v i next :
  StronglySorted ascending relevantLines ->
  shownSoFar relevantLines (lastSourceLineShown v) (printed v) ->
  shownSoFar relevantLines (lastSourceLineShown (visit relevantLines v i next))
    (printed (visit relevantLines v i next)).
Proof.
  intros Hs Hv.
  assert (Hrow : forall shown out, shownSoFar relevantLines shown out ->
            shownSoFar relevantLines shown (out ++ [InstructionRow i])).
  { intros shown out. unfold shownSoFar. rewrite sourceRows_app. simpl.
    by rewrite app_nil_r. }
  unfold visit. cbn [lastSourceLineShown printed]. apply Hrow.
  destruct (Asm.sourceLineNumber i) as [n|]; [|done].
  destruct (existsb _ relevantLines); [|done].
  match goal with
  | |- context [fold_left (showUpTo n) relevantLines (?a, ?b)] =>
      destruct (showUpTo_shown relevantLines n a b Hs) as (shown' & out' & Hf & _ & Hn)
  end.
  { destruct (negb (justShowedSource v) && (0 <? lastSourceLineShown v)); [|done].
    by apply shownSoFar_blank. }
  rewrite Hf. cbn [lastSourceLineShown printed].
  match goal with |- context [if ?b then _ else _] => destruct b end; [done|].
  by apply shownSoFar_blank.
Qed.

Lemma loop_shown relevantLines : forall instructions v,
  StronglySorted ascending relevantLines ->
  shownSoFar relevantLines (lastSourceLineShown v) (printed v) ->
  shownSoFar relevantLines (lastSourceLineShown (loop relevantLines instructions v))
    (printed (loop relevantLines instructions v)).
Proof.
  induction instructions as [|i rest IH]; intros v Hs Hv; simpl; [done|].
  apply IH; [done|]. by apply visit_shown.
Qed.

(** When the relevant lines come with positive, strictly increasing line
    numbers, every one of them is printed once, in the order of the file,
    whatever lines the instructions point to. *)
Theorem every_source_line_is_printed
    (relevantLines : list Src.t) (instructions : list Asm.t) :
  StronglySorted ascending relevantLines ->
  Forall numbered relevantLines ->
  sourceRows (interleave relevantLines instructions) = relevantLines.
Proof.
  intros Hs Hpos. unfold interleave.
  match goal with
  | |- context [loop relevantLines instructions ?v0] =>
      pose proof (loop_shown relevantLines instructions v0 Hs) as Hv
  end.
  destruct Hv as (rest & Heq & Hpast & Hrest).
  { exists relevantLines. simpl. split; [done|]. split; [constructor|exact Hpos]. }
  set (v := loop relevantLines instructions _) in *.
  rewrite sourceRows_app.
  change (sourceRows [Blank]) with (@nil Src.t). rewrite app_nil_r.
  assert (Hf : List.filter (fun l => lastSourceLineShown v <? Src.lineNumber l)
                 relevantLines = rest).
  { rewrite Heq at 1. rewrite List.filter_app.
    replace (List.filter _ (sourceRows (printed v))) with (@nil Src.t).
    - simpl. apply forallb_filter_id. apply forallb_forall. intros l Hl.
      apply (proj1 (List.Forall_forall _ _) Hrest) in Hl. by apply Z.ltb_lt.
    - symmetry. clear Heq. induction Hpast as [|l ls Hl _ IH]; [done|].
      simpl. replace (lastSourceLineShown v <? Src.lineNumber l) with false; [done|].
      symmetry. apply Z.ltb_ge. lia. }
  destruct (existsb _ relevantLines) eqn:E.
  - rewrite !sourceRows_app, Hf, sourceRows_sources.
    change (sourceRows [Blank]) with (@nil Src.t). symmetry. exact Heq.
  - destruct rest as [|l rest]; [by rewrite app_nil_r in Heq|].
    exfalso.
    assert (Hin : In l relevantLines).
    { rewrite Heq. apply in_or_app. right. by left. }
    assert (Hex : existsb (fun l => lastSourceLineShown v <? Src.lineNumber l)
                    relevantLines = true).
    { apply existsb_exists. exists l. split; [done|].
      apply Z.ltb_lt. apply (proj1 (List.Forall_forall _ _) Hrest l). by left. }
    congruence.
Qed.

Lemma every_source_line_is_printed_witness :
  StronglySorted ascending exampleLines /\
  Forall numbered exampleLines /\
  sourceRows (interleave exampleLines exampleInstructions) = exampleLines.
Proof.
  assert (Hs : StronglySorted ascending exampleLines).
  { repeat constructor; unfold ascending; simpl; lia. }
  assert (Hn : Forall numbered exampleLines).
  { repeat constructor. }
  split; [exact Hs|]. split; [exact Hn|].
  exact (every_source_line_is_printed exampleLines exampleInstructions Hs Hn).
Defined.

End Interleave.

(** ** Native symbols grouped by function size
    (annotateFunction, lines 1101-1139) *)

Module SymbolGroups.

Record NativeSymbol := {
  libIndex : Z;
  address : Z;
  name : string;
  functionSize : Z
}.

(** A value of the map [groups], with its key. *)
Module Entry.
Record t := {
  functionSize : Z;
  nativeSymbols : list NativeSymbol;
  representativeSymbol : NativeSymbol
}.
End Entry.

(** An element of [groupArray]. *)
Module Group.
Record t := {
  functionSize : Z;
  symbolCount : Z;
  nativeSymbols : list NativeSymbol;
  representativeSymbol : NativeSymbol
}.
End Group.

(** One turn of the loop over the native symbols: [groups.has], [groups.set]
    for a new size, which goes last in the map, and the [push] onto the
    group of that size. *)
Fixpoint visit (groups : list Entry.t) (nativeSymbol : NativeSymbol) : list Entry.t :=
  match groups with
  | [] =>
      [ {| Entry.functionSize := functionSize nativeSymbol;
           Entry.nativeSymbols := [nativeSymbol];
           Entry.representativeSymbol := nativeSymbol |} ]
  | g :: rest =>
      if Entry.functionSize g =? functionSize nativeSymbol
      then {| Entry.functionSize := Entry.functionSize g;
              Entry.nativeSymbols := Entry.nativeSymbols g ++ [nativeSymbol];
              Entry.representativeSymbol := Entry.representativeSymbol g |} :: rest
      else g :: visit rest nativeSymbol
  end.

Definition toGroup (g : Entry.t) : Group.t :=
  {| Group.functionSize := Entry.functionSize g;
     Group.symbolCount := Z.of_nat (length (Entry.nativeSymbols g));
     Group.nativeSymbols := Entry.nativeSymbols g;
     Group.representativeSymbol := Entry.representativeSymbol g |}.

(** [(a, b) => b.functionSize - a.functionSize] *)
Definition bySizeDesc (a b : Group.t) : Z := Group.functionSize b - Group.functionSize a.

Definition groupArray (nativeSymbols : list NativeSymbol) : list Group.t :=
  Js.sort bySizeDesc (map toGroup (fold_left visit nativeSymbols [])).

Inductive Info :=
| InfoError (error : string)
| Groups (groups : list Group.t) (totalGroups totalNativeSymbols : Z).

(** The script from the test on [bottomBoxInfo] on; [None] is a missing
    [bottomBoxInfo] or one without [nativeSymbols]. *)
Definition nativeSymbolInfo (nativeSymbols : option (list NativeSymbol)) : Info :=
  match nativeSymbols with
  | None | Some [] =>
      InfoError "No native symbols found for this function (not JIT compiled?)"
  | Some symbols =>
      let groups := groupArray symbols in
      Groups groups (Z.of_nat (length groups)) (Z.of_nat (length symbols))
  end.

Definition ofSize (size : Z) (s : NativeSymbol) : bool := functionSize s =? size.

Definition larger (a b : Group.t) : Prop := Group.functionSize b < Group.functionSize a.

(** A group holds the symbols of its size, in their order, and is
    represented by the first of them. *)
Definition gathers (symbols : list NativeSymbol) (g : Group.t) : Prop :=
  Group.nativeSymbols g = List.filter (ofSize (Group.functionSize g)) symbols /\
  head (Group.nativeSymbols g) = Some (Group.representativeSymbol g) /\
  Group.symbolCount g = Z.of_nat (length (Group.nativeSymbols g)).

Definition totalCount (groups : list Group.t) : Z :=
  fold_right (fun g acc => Group.symbolCount g + acc) 0 groups.

Definition symbol (address size : Z) : NativeSymbol :=
  {| libIndex := 0; address := address; name := "f"; functionSize := size |}.

Definition exampleSymbols : list NativeSymbol :=
  [symbol 100 32; symbol 200 64; symbol 300 32; symbol 400 16].

Example groups_of_example :
  nativeSymbolInfo (Some exampleSymbols) =
    Groups
      [ {| Group.functionSize := 64; Group.symbolCount := 1;
           Group.nativeSymbols := [symbol 200 64];
           Group.representativeSymbol := symbol 200 64 |};
        {| Group.functionSize := 32; Group.symbolCount := 2;
           Group.nativeSymbols := [symbol 100 32; symbol 300 32];
           Group.representativeSymbol := symbol 100 32 |};
        {| Group.functionSize := 16; Group.symbolCount := 1;
           Group.nativeSymbols := [symbol 400 16];
           Group.representativeSymbol := symbol 400 16 |} ]
      3 4.
Proof. reflexivity. Qed.

Definition good (seen : list NativeSymbol) (g : Entry.t) : Prop :=
  Entry.nativeSymbols g = List.filter (ofSize (Entry.functionSize g)) seen /\
  head (Entry.nativeSymbols g) = Some (Entry.representativeSymbol g).

Lemma good_other seen s g :
  Entry.functionSize g <> functionSize s -> good seen g -> good (seen ++ [s]) g.
Proof.
  intros Hne [Hf Hh]. split; [|done].
  rewrite List.filter_app. simpl. unfold ofSize at 2.
  replace (functionSize s =? Entry.functionSize g) with false
    by (symmetry; apply Z.eqb_neq; congruence).
  by rewrite app_nil_r.
Qed.

Lemma visit_spec seen s : forall groups,
  Forall (good seen) groups ->
  List.NoDup (map Entry.functionSize groups) ->
  (~ In (functionSize s) (map Entry.functionSize groups) ->
   List.filter (ofSize (functionSize s)) seen = []) ->
  Forall (good (seen ++ [s])) (visit groups s) /\
  List.NoDup (map Entry.functionSize (visit groups s)) /\
  forall x, In x (map Entry.functionSize (visit groups s)) <->
            In x (map Entry.functionSize groups) \/ x = functionSize s.
Proof.
  induction groups as [|g groups IH]; intros Hg Hnd Hnew.
  - simpl. split; [|split].
    + constructor; [|constructor]. split; [|done]. simpl.
      rewrite List.filter_app, Hnew by (by intros []). simpl.
      unfold ofSize. by rewrite Z.eqb_refl.
    + repeat constructor. by intros [].
    + intros x. simpl. split; [intros [<-|[]]; by right|intros [[]|Hx]; left; by rewrite Hx].
  - inversion Hg as [|? ? Hgood Hrest]; subst.
    inversion Hnd as [|? ? Hnotin Hnd']; subst.
    simpl. destruct (Entry.functionSize g =? functionSize s) eqn:E.
    + apply Z.eqb_eq in E. simpl. split; [|split].
      * constructor.
        -- destruct Hgood as [Hf Hh]. split; simpl.
           ++ rewrite List.filter_app, <- Hf. simpl. unfold ofSize at 1.
              replace (functionSize s =? Entry.functionSize g) with true
                by (symmetry; apply Z.eqb_eq; congruence).
              done.
           ++ destruct (Entry.nativeSymbols g); [done|exact Hh].
        -- apply List.Forall_forall. intros g' Hg'.
           apply good_other; [|by apply (proj1 (List.Forall_forall _ _) Hrest)].
           intros Heq. apply Hnotin. rewrite E, <- Heq. by apply in_map.
      * by constructor.
      * intros x. split; [tauto|]. intros [H|Hx]; [done|]. left. by rewrite Hx, E.
    + apply Z.eqb_neq in E.
      destruct (IH Hrest Hnd') as (Hgood' & Hnd'' & Hin).
      { intros Hn. apply Hnew. simpl. intros [H|H]; [done|by apply Hn]. }
      simpl. split; [|split].
      * constructor; [by apply good_other|done].
      * constructor; [|done]. rewrite Hin. intros [H|H]; [done|congruence].
      * intros x. rewrite Hin. tauto.
Qed.

Lemma visit_loop_spec : forall rest seen groups,
  Forall (good seen) groups ->
  List.NoDup (map Entry.functionSize groups) ->
  (forall s, In s seen -> In (functionSize s) (map Entry.functionSize groups)) ->
  let result := fold_left visit rest groups in
  Forall (good (seen ++ rest)) result /\
  List.NoDup (map Entry.functionSize result) /\
  (forall s, In s (seen ++ rest) -> In (functionSize s) (map Entry.functionSize result)).
Proof.
  induction rest as [|s rest IH]; intros seen groups Hg Hnd Hcov; simpl.
  - by rewrite app_nil_r.
  - destruct (visit_spec seen s groups Hg Hnd) as (Hg' & Hnd' & Hin).
    { intros Hn. clear -Hn Hcov.
      induction seen as [|s' seen IH]; [done|]. simpl.
      unfold ofSize at 1. destruct (functionSize s' =? functionSize s) eqn:E.
      - exfalso. apply Hn. apply Z.eqb_eq in E. rewrite <- E. apply Hcov. by left.
      - apply IH. intros s'' Hs''. apply Hcov. by right. }
    replace (seen ++ s :: rest) with ((seen ++ [s]) ++ rest) by (by rewrite <- app_assoc).
    apply IH; [done|done|].
    intros s' Hs'. apply Hin. apply in_app_or in Hs'.
    destruct Hs' as [Hs'|[<-|[]]]; [left; by apply Hcov|by right].
Qed.

Lemma bySizeDesc_total a b : 0 < bySizeDesc a b -> bySizeDesc b a <= 0.
Proof. unfold bySizeDesc. lia. Qed.

Lemma bySizeDesc_trans a b c :
  bySizeDesc a b <= 0 -> bySizeDesc b c <= 0 -> bySizeDesc a c <= 0.
Proof. unfold bySizeDesc. lia. Qed.

Lemma distinct_sorted_larger (groups : list Group.t) :
  List.NoDup (map Group.functionSize groups) ->
  StronglySorted (Js.inOrder bySizeDesc) groups ->
  StronglySorted larger groups.
Proof.
  intros Hnd Hs. induction Hs as [|g groups Hs IH Hg]; [constructor|].
  simpl in Hnd. inversion Hnd as [|? ? Hnotin Hnd']; subst.
  constructor; [by apply IH|].
  apply List.Forall_forall. intros g' Hg'.
  pose proof (proj1 (List.Forall_forall _ _) Hg g' Hg') as Hle.
  unfold Js.inOrder, bySizeDesc in Hle. unfold larger.
  assert (Group.functionSize g' <> Group.functionSize g).
  { intros Heq. apply Hnotin. rewrite <- Heq. by apply in_map. }
  lia.
Qed.

Lemma groupArray_spec (symbols : list NativeSymbol) :
  StronglySorted larger (groupArray symbols) /\
  Forall (gathers symbols) (groupArray symbols) /\
  (forall s, In s symbols ->
     exists g, In g (groupArray symbols) /\ Group.functionSize g = functionSize s).
Proof.
  destruct (visit_loop_spec symbols [] [] (@List.Forall_nil _ _) (List.NoDup_nil _))
    as (Hg & Hnd & Hcov); [done|].
  simpl in Hg, Hnd, Hcov. unfold groupArray.
  set (entries := fold_left visit symbols []) in *.
  split; [|split].
  - apply distinct_sorted_larger.
    + eapply Permutation_NoDup.
      * apply Permutation_map. symmetry. apply Js.sort_perm.
      * by rewrite map_map.
    + apply Js.sort_sorted; [apply bySizeDesc_total|apply bySizeDesc_trans].
  - apply List.Forall_forall. intros g Hin.
    apply (proj1 (Js.sort_In _ _ _)) in Hin. apply in_map_iff in Hin.
    destruct Hin as (e & <- & He).
    destruct (proj1 (List.Forall_forall _ _) Hg e He) as [Hf Hh].
    by repeat split.
  - intros s Hs. apply Hcov in Hs. apply in_map_iff in Hs.
    destruct Hs as (e & He & Hin). exists (toGroup e). split; [|done].
    apply Js.sort_In. by apply in_map.
Qed.

(** When the script returns groups, they come by strictly decreasing
    function size (so no two have the same size), each holds exactly the
    native symbols of its size in their order, is represented by the first
    of them and counts them, every native symbol is in the group of its
    size, and no group is empty. *)
Theorem groups_gather_the_symbols_by_size
    (nativeSymbols : option (list NativeSymbol)) (symbols : list NativeSymbol)
    (groups : list Group.t) (totalGroups totalNativeSymbols : Z) :
  nativeSymbols = Some symbols ->
  nativeSymbolInfo nativeSymbols = Groups groups totalGroups totalNativeSymbols ->
  StronglySorted larger groups /\
  Forall (gathers symbols) groups /\
  (forall s, In s symbols ->
     exists g, In g groups /\ Group.functionSize g = functionSize s /\
               In s (Group.nativeSymbols g)) /\
  Forall (fun g => 0 < Group.symbolCount g) groups.
Proof.
  intros -> H. unfold nativeSymbolInfo in H.
  destruct symbols as [|s0 symbols']; [discriminate H|].
  injection H as <- _ _.
  destruct (groupArray_spec (s0 :: symbols')) as (Hs & Hg & Hcov).
  split; [done|]. split; [done|]. split.
  - intros s Hin. destruct (Hcov s Hin) as (g & Hgin & Hsize).
    exists g. split; [done|]. split; [done|].
    destruct (proj1 (List.Forall_forall _ _) Hg g Hgin) as (-> & _).
    apply filter_In. split; [done|]. unfold ofSize. by apply Z.eqb_eq.
  - apply List.Forall_forall. intros g Hgin.
    destruct (proj1 (List.Forall_forall _ _) Hg g Hgin) as (_ & Hh & ->).
    destruct (Group.nativeSymbols g); [discriminate Hh|]. simpl. lia.
Qed.

Lemma groups_gather_the_symbols_by_size_witness :
  exists groups,
    nativeSymbolInfo (Some exampleSymbols) = Groups groups 3 4 /\
    StronglySorted larger groups.
Proof.
  eexists. split; [reflexivity|].
  exact (proj1 (groups_gather_the_symbols_by_size (Some exampleSymbols) exampleSymbols
                  _ 3 4 eq_refl eq_refl)).
Defined.

Definition entryCount (groups : list Entry.t) : Z :=
  fold_right (fun g acc => Z.of_nat (length (Entry.nativeSymbols g)) + acc) 0 groups.

Lemma visit_count s : forall groups, entryCount (visit groups s) = entryCount groups + 1.
Proof.
  induction groups as [|g groups IH]; simpl; [done|].
  destruct (Entry.functionSize g =? functionSize s); simpl.
  - rewrite length_app. simpl. lia.
  - rewrite IH. lia.
Qed.

Lemma visit_loop_count : forall symbols groups,
  entryCount (fold_left visit symbols groups) =
    entryCount groups + Z.of_nat (length symbols).
Proof.
  induction symbols as [|s symbols IH]; intros groups; simpl; [lia|].
  rewrite IH, visit_count. lia.
Qed.

Lemma totalCount_Permutation gs1 gs2 :
  Permutation gs1 gs2 -> totalCount gs1 = totalCount gs2.
Proof.
  induction 1 as [|x l l' _ IH|x y l|l l' l'' _ IH1 _ IH2]; simpl; lia.
Qed.

Lemma totalCount_toGroup entries : totalCount (map toGroup entries) = entryCount entries.
Proof. induction entries as [|e entries IH]; simpl; [done|]. by rewrite IH. Qed.

(** The numbers of the line "Found N native symbol(s) in M compilation
    variant(s)": M is the number of groups listed under it, and N, the
    number of native symbols of the function, is the sum of the counts
    printed for the groups. *)
Theorem group_counts_add_up
    (nativeSymbols : option (list NativeSymbol))
    (groups : list Group.t) (totalGroups totalNativeSymbols : Z) :
  nativeSymbolInfo nativeSymbols = Groups groups totalGroups totalNativeSymbols ->
  totalGroups = Z.of_nat (length groups) /\
  totalNativeSymbols = totalCount groups /\
  Some (Z.to_nat totalNativeSymbols) = length <$> nativeSymbols /\
  0 < totalGroups <= totalNativeSymbols.
Proof.
  unfold nativeSymbolInfo. intros H.
  destruct nativeSymbols as [[|s0 symbols']|]; try discriminate H.
  injection H as <- <- <-.
  set (symbols := s0 :: symbols').
  assert (Hsum : totalCount (groupArray symbols) = Z.of_nat (length symbols)).
  { unfold groupArray.
    rewrite (totalCount_Permutation _ _ (Js.sort_perm _ _)), totalCount_toGroup.
    by rewrite visit_loop_count. }
  assert (Hpos : Forall (fun g => 0 < Group.symbolCount g) (groupArray symbols)).
  { apply List.Forall_forall. intros g Hgin.
    destruct (groupArray_spec symbols) as (_ & Hg & _).
    destruct (proj1 (List.Forall_forall _ _) Hg g Hgin) as (_ & Hh & ->).
    destruct (Group.nativeSymbols g); [discriminate Hh|]. simpl. lia. }
  assert (Hle : Z.of_nat (length (groupArray symbols)) <= totalCount (groupArray symbols)).
  { clear Hsum. induction Hpos as [|g gs Hg _ IH]; simpl; [done|]. simpl in IH. lia. }
  assert (Hne : groupArray symbols <> []).
  { destruct (groupArray_spec symbols) as (_ & _ & Hcov).
    destruct (Hcov s0) as (g & Hgin & _); [by left|].
    intros Heq. by rewrite Heq in Hgin. }
  split; [done|]. split; [by rewrite Hsum|]. split.
  - simpl. by rewrite Nat2Z.id.
  - split.
    + destruct (groupArray symbols); [done|]. simpl. lia.
    + eapply Z.le_trans; [exact Hle|]. rewrite Hsum. apply Z.le_refl.
Qed.

Lemma group_counts_add_up_witness :
  exists groups, nativeSymbolInfo (Some exampleSymbols) = Groups groups 3 4 /\
                 4 = totalCount groups.
Proof.
  eexists. split; [reflexivity|].
  exact (proj1 (proj2 (group_counts_add_up (Some exampleSymbols) _ 3 4 eq_refl))).
Defined.

End SymbolGroups.

(** ** The paint times read from the marker names
    (getPageLoadSummary, lines 558-574) *)

Module PaintNames.











End PaintNames.
